(** * Embossed cylinder generator: pattern-to-displaced-mesh pipeline

    A shallow embedding of [utils/geometryUtils.ts] (generateHeightMap,
    applyDisplacement), [components/CylinderObject.tsx]
    (buildCylinderGeometry, the export effect, updateGeometry and its
    debounce/cancellation effect) and [App.tsx] (handleExport).

    JavaScript numbers are modelled as real numbers: arithmetic is exact,
    so statements that the prose qualifies with a floating-point tolerance
    hold here with equality.  Integer-valued quantities (pixel coordinates,
    buffer indices, colour bytes) are [Z] or [nat]. *)

From Stdlib Require Import Reals Lra Lia ZArith List String.
From stdpp Require Import base list.
Import ListNotations.

Local Open Scope R_scope.

(** ** Numbers *)

Module Math.

Definition floor (x : R) : Z := Int_part x.
Definition ceil (x : R) : Z := (- Int_part (- x))%Z.
Definition abs (x : R) : R := Rabs x.
Definition min (a b : R) : R := Rmin a b.
Definition max (a b : R) : R := Rmax a b.

End Math.

(** JavaScript's [%] on integer-valued numbers truncates towards zero. *)
Definition jsmod (a b : Z) : Z := Z.rem a b.

(** ** Vectors and buffers (three.js) *)

Record Vector3 := mkV3 { vx : R; vy : R; vz : R }.
Record Vector2 := mkV2 { ux : R; uy : R }.

Definition zero3 : Vector3 := mkV3 0 0 0.
Definition zero2 : Vector2 := mkV2 0 0.

Module Vector3Ops.

Definition add (a b : Vector3) : Vector3 :=
  mkV3 (vx a + vx b) (vy a + vy b) (vz a + vz b).
Definition sub (a b : Vector3) : Vector3 :=
  mkV3 (vx a - vx b) (vy a - vy b) (vz a - vz b).
Definition multiplyScalar (a : Vector3) (s : R) : Vector3 :=
  mkV3 (vx a * s) (vy a * s) (vz a * s).
(** [v.addScaledVector(n, s)] *)
Definition addScaledVector (v n : Vector3) (s : R) : Vector3 :=
  mkV3 (vx v + vx n * s) (vy v + vy n * s) (vz v + vz n * s).
Definition cross (a b : Vector3) : Vector3 :=
  mkV3 (vy a * vz b - vz a * vy b)
       (vz a * vx b - vx a * vz b)
       (vx a * vy b - vy a * vx b).
Definition length (a : Vector3) : R :=
  sqrt (vx a * vx a + vy a * vy a + vz a * vz a).
(** [normalize] divides by [length() || 1]. *)
Definition normalize (a : Vector3) : Vector3 :=
  let l := length a in
  if Req_dec_T l 0 then a else mkV3 (vx a / l) (vy a / l) (vz a / l).
Definition distanceTo (a b : Vector3) : R := length (sub a b).

End Vector3Ops.

(** A [BufferAttribute] of item size 3 (resp. 2) is a list of [Vector3]
    (resp. [Vector2]); reads past the end see the default element. *)
Definition getV3 (a : list Vector3) (i : nat) : Vector3 := nth i a zero3.
Definition getV2 (a : list Vector2) (i : nat) : Vector2 := nth i a zero2.
Definition setXYZ (a : list Vector3) (i : nat) (p : Vector3) : list Vector3 :=
  <[i:=p]> a.
Definition setXY (a : list Vector2) (i : nat) (p : Vector2) : list Vector2 :=
  <[i:=p]> a.

(** [geometry.attributes.position] is always present in the geometries of
    this program; [normal], [uv] and the index buffer may be missing. *)
Record BufferGeometry := mkGeometry {
  position : list Vector3;
  normal : option (list Vector3);
  uv : option (list Vector2);
  index : option (list nat)
}.

Definition withPosition (g : BufferGeometry) (p : list Vector3) : BufferGeometry :=
  mkGeometry p (normal g) (uv g) (index g).
Definition withNormal (g : BufferGeometry) (n : list Vector3) : BufferGeometry :=
  mkGeometry (position g) (Some n) (uv g) (index g).
Definition withUv (g : BufferGeometry) (t : list Vector2) : BufferGeometry :=
  mkGeometry (position g) (normal g) (Some t) (index g).

(** Planar radius of a vertex, [Math.sqrt(x * x + z * z)]. *)
Definition planarRadius (p : Vector3) : R := sqrt (vx p * vx p + vz p * vz p).

(** ** The heightmap canvas *)

(** An [HTMLCanvasElement]: its size, its backing store (RGBA bytes, row
    major) and whether [getContext('2d')] hands out a context. *)
Record HTMLCanvasElement := mkCanvas {
  width : Z;
  height : Z;
  bitmap : list Z;
  has2d : bool
}.

(** [heightMap.getContext('2d')] followed by [getImageData(0,0,w,h).data]. *)
Definition getImageData (c : HTMLCanvasElement) : option (list Z) :=
  if has2d c then Some (bitmap c) else None.

(** [data[index]]: an out-of-range read is [undefined], whose quotient by
    255 is NaN; NaN fails the [rawHeight > edgeStart] test exactly as 0
    does, so the read is modelled as 0. *)
Definition dataAt (data : list Z) (index : Z) : Z :=
  if (index <? 0)%Z then 0%Z else nth (Z.to_nat index) data 0%Z.

(** ** three.js geometry operations used by the program *)

Module THREE.

Import Vector3Ops.

(** Start indices of the loop [for (i = 0; i < il; i += 3)]. *)
Definition triangleStarts (il : nat) : list nat :=
  map (fun k => (3 * k)%nat) (seq 0 ((il + 2) / 3)).

(** The face normal three.js accumulates: [(pC - pB) x (pA - pB)]. *)
Definition faceCross (pA pB pC : Vector3) : Vector3 :=
  cross (sub pC pB) (sub pA pB).

(** [BufferGeometry.computeVertexNormals]: the normal attribute is reset
    to zero (or created), the face normals are written (triangle soup) or
    accumulated (indexed), and every normal is normalized.  Positions are
    not written. *)
Definition computeVertexNormals (g : BufferGeometry) : BufferGeometry :=
  let pos := position g in
  let zeros := repeat zero3 (List.length pos) in
  let raw :=
    match index g with
    | Some idx =>
        fold_left (fun n i =>
          let vA := nth i idx 0%nat in
          let vB := nth (i + 1) idx 0%nat in
          let vC := nth (i + 2) idx 0%nat in
          let cb := faceCross (getV3 pos vA) (getV3 pos vB) (getV3 pos vC) in
          let nA := add (getV3 n vA) cb in
          let nB := add (getV3 n vB) cb in
          let nC := add (getV3 n vC) cb in
          setXYZ (setXYZ (setXYZ n vA nA) vB nB) vC nC)
          (triangleStarts (List.length idx)) zeros
    | None =>
        fold_left (fun n i =>
          let cb := faceCross (getV3 pos i) (getV3 pos (i + 1)) (getV3 pos (i + 2)) in
          setXYZ (setXYZ (setXYZ n i cb) (i + 1) cb) (i + 2) cb)
          (triangleStarts (List.length pos)) zeros
    end in
  withNormal g (map normalize raw).

(** [BufferGeometry.toNonIndexed]: every attribute is expanded along the
    index buffer; a geometry without index is returned as it is. *)
Definition toNonIndexed (g : BufferGeometry) : BufferGeometry :=
  match index g with
  | None => g
  | Some idx =>
      mkGeometry (map (getV3 (position g)) idx)
                 (option_map (fun n => map (getV3 n) idx) (normal g))
                 (option_map (fun t => map (getV2 t) idx) (uv g))
                 None
  end.

Definition present {A} (o : option A) : bool :=
  match o with Some _ => true | None => false end.

(** Whether two geometries carry the same attribute names and agree on
    being indexed: the precondition [mergeGeometries] checks. *)
Definition sameLayout (a b : BufferGeometry) : bool :=
  eqb (present (index a)) (present (index b)) &&
  eqb (present (normal a)) (present (normal b)) &&
  eqb (present (uv a)) (present (uv b)).

Definition appendOpt {A} (a b : option (list A)) : option (list A) :=
  match a, b with
  | Some x, Some y => Some (x ++ y)
  | _, _ => None
  end.

(** One step of the merge: attributes are concatenated, indices of the
    second operand are shifted by the vertex count merged so far. *)
Definition merge2 (a b : BufferGeometry) : BufferGeometry :=
  mkGeometry (position a ++ position b)
             (appendOpt (normal a) (normal b))
             (appendOpt (uv a) (uv b))
             (match index a, index b with
              | Some ia, Some ib =>
                  Some (ia ++ map (fun j => (j + List.length (position a))%nat) ib)
              | _, _ => None
              end).

(** [mergeGeometries(geometries)]: [null] (here [None]) when the list is
    empty or some operand's layout differs from the first one's. *)
Definition mergeGeometries (geometries : list BufferGeometry) : option BufferGeometry :=
  match geometries with
  | [] => None
  | g0 :: rest =>
      if forallb (sameLayout g0) rest
      then Some (fold_left merge2 rest g0)
      else None
  end.

(** [BoxGeometry(width, height, depth)] with one segment per side: six
    planes ([buildPlane]) of four vertices each, in the order +x, -x, +y,
    -y, +z, -z, and two triangles per plane.  [place u v w] puts the
    plane's own coordinates on the box axes. *)
Definition buildPlane (place : R -> R -> R -> Vector3) (udir vdir : R)
    (width height depth : R) : list (Vector3 * Vector3 * Vector2) :=
  let widthHalf := width / 2 in
  let heightHalf := height / 2 in
  let depthHalf := depth / 2 in
  let n := place 0 0 (if Rlt_dec 0 depth then 1 else -1) in
  [ (place ((0 * width - widthHalf) * udir) ((0 * height - heightHalf) * vdir) depthHalf,
     n, mkV2 0 1);
    (place ((1 * width - widthHalf) * udir) ((0 * height - heightHalf) * vdir) depthHalf,
     n, mkV2 1 1);
    (place ((0 * width - widthHalf) * udir) ((1 * height - heightHalf) * vdir) depthHalf,
     n, mkV2 0 0);
    (place ((1 * width - widthHalf) * udir) ((1 * height - heightHalf) * vdir) depthHalf,
     n, mkV2 1 0) ].

Definition boxVertices (width height depth : R) : list (Vector3 * Vector3 * Vector2) :=
  buildPlane (fun z y x => mkV3 x y z) (-1) (-1) depth height width ++
  buildPlane (fun z y x => mkV3 x y z) 1 (-1) depth height (- width) ++
  buildPlane (fun x z y => mkV3 x y z) 1 1 width depth height ++
  buildPlane (fun x z y => mkV3 x y z) 1 (-1) width depth (- height) ++
  buildPlane (fun x y z => mkV3 x y z) 1 (-1) width height depth ++
  buildPlane (fun x y z => mkV3 x y z) (-1) (-1) width height (- depth).

Definition boxIndices : list nat :=
  flat_map (fun k => [k; k + 2; k + 1; k + 2; k + 3; k + 1]%nat)
           (map (fun f => (4 * f)%nat) (seq 0 6)).

Definition BoxGeometry (width height depth : R) : BufferGeometry :=
  let vs := boxVertices width height depth in
  mkGeometry (map (fun v => fst (fst v)) vs)
             (Some (map (fun v => snd (fst v)) vs))
             (Some (map snd vs))
             (Some boxIndices).

(** [geometry.center()]: translate by minus the centre of the bounding
    box; an empty geometry is left where it is. *)
Definition boundsOf (f : Vector3 -> R) (pos : list Vector3) : option (R * R) :=
  match pos with
  | [] => None
  | p :: rest =>
      Some (fold_left (fun b q => (Rmin (fst b) (f q), Rmax (snd b) (f q)))
                      rest (f p, f p))
  end.

Definition mid (b : option (R * R)) : R :=
  match b with
  | Some (lo, hi) => (lo + hi) * 0.5
  | None => 0
  end.

Definition center (g : BufferGeometry) : BufferGeometry :=
  let pos := position g in
  let c := mkV3 (mid (boundsOf vx pos)) (mid (boundsOf vy pos)) (mid (boundsOf vz pos)) in
  withPosition g (map (fun p => sub p c) pos).

(** [geometry.rotateX(angle)]: positions and normals are rotated about
    the x axis; normals are re-normalized. *)
Definition rotX (angle : R) (p : Vector3) : Vector3 :=
  let c := cos angle in
  let s := sin angle in
  mkV3 (vx p) (c * vy p - s * vz p) (s * vy p + c * vz p).

Definition rotateX (angle : R) (g : BufferGeometry) : BufferGeometry :=
  mkGeometry (map (rotX angle) (position g))
             (option_map (map (fun n => normalize (rotX angle n))) (normal g))
             (uv g) (index g).

End THREE.

(** ** utils/geometryUtils.ts: generateHeightMap *)

(** The settled state of a promise; [Pending] is a promise that never
    settles (the call does not return). *)
Inductive Promise (A : Type) : Type :=
  | Resolved (a : A)
  | Rejected
  | Pending.
Arguments Resolved {A} a.
Arguments Rejected {A}.
Arguments Pending {A}.

Inductive PatternKind := KText | KImage.

Record HeightMapOptions := mkOptions {
  fontSize : R;
  fontFamily : option string;
  letterSpacing : option R;
  spacingX : R;
  spacingY : R;
  tilt : R;
  imageScale : R
}.

Inductive Transform := Translate (x y : R) | Rotate (angle : R).

(** The drawing state of a 2D context that [save]/[restore] push and pop. *)
Record DrawState := mkDraw {
  fillStyle : string;
  textAlign : string;
  textBaseline : string;
  font : R * string;
  ctxLetterSpacing : R;
  blur : R;
  globalCompositeOperation : string;
  transform : list Transform
}.

Definition defaultDraw : DrawState :=
  mkDraw "#000000" "start" "alphabetic" (10, "sans-serif"%string) 0 0 "source-over" [].

Record Context2D := mkCtx {
  state : DrawState;
  stack : list DrawState;
  pixels : list Z
}.

Record ImageSource := mkImage {
  naturalWidth : R;
  naturalHeight : R;
  imagePixels : list Z
}.

Definition save (c : Context2D) : Context2D :=
  mkCtx (state c) (state c :: stack c) (pixels c).
Definition restore (c : Context2D) : Context2D :=
  match stack c with
  | [] => c
  | s :: rest => mkCtx s rest (pixels c)
  end.
Definition setState (f : DrawState -> DrawState) (c : Context2D) : Context2D :=
  mkCtx (f (state c)) (stack c) (pixels c).
Definition pushTransform (t : Transform) (s : DrawState) : DrawState :=
  mkDraw (fillStyle s) (textAlign s) (textBaseline s) (font s) (ctxLetterSpacing s)
         (blur s) (globalCompositeOperation s) (t :: transform s).
Definition setFillStyle (v : string) (s : DrawState) : DrawState :=
  mkDraw v (textAlign s) (textBaseline s) (font s) (ctxLetterSpacing s)
         (blur s) (globalCompositeOperation s) (transform s).
Definition setTextAlign (v : string) (s : DrawState) : DrawState :=
  mkDraw (fillStyle s) v (textBaseline s) (font s) (ctxLetterSpacing s)
         (blur s) (globalCompositeOperation s) (transform s).
Definition setTextBaseline (v : string) (s : DrawState) : DrawState :=
  mkDraw (fillStyle s) (textAlign s) v (font s) (ctxLetterSpacing s)
         (blur s) (globalCompositeOperation s) (transform s).
Definition setFont (v : R * string) (s : DrawState) : DrawState :=
  mkDraw (fillStyle s) (textAlign s) (textBaseline s) v (ctxLetterSpacing s)
         (blur s) (globalCompositeOperation s) (transform s).
Definition setLetterSpacing (v : R) (s : DrawState) : DrawState :=
  mkDraw (fillStyle s) (textAlign s) (textBaseline s) (font s) v
         (blur s) (globalCompositeOperation s) (transform s).
Definition setBlur (v : R) (s : DrawState) : DrawState :=
  mkDraw (fillStyle s) (textAlign s) (textBaseline s) (font s) (ctxLetterSpacing s)
         v (globalCompositeOperation s) (transform s).
Definition setComposite (v : string) (s : DrawState) : DrawState :=
  mkDraw (fillStyle s) (textAlign s) (textBaseline s) (font s) (ctxLetterSpacing s)
         (blur s) v (transform s).

(** A loop bound [Math.ceil(extent / period) + 2].  With a zero period
    the quotient is +Infinity for a positive extent (the loop does not
    end) and NaN or -Infinity otherwise (the loop body never runs, as
    with the bound -1). *)
Inductive Bound := Finite (n : Z) | Unbounded.

Definition tileBound (extent : Z) (period : R) : Bound :=
  if Req_dec_T period 0
  then (if (0 <? extent)%Z then Unbounded else Finite (-1))
  else Finite (Math.ceil (IZR extent / period) + 2).

(** The integers [lo, lo+1, ..., hi-1] of a loop [for (i = lo; i < hi; i++)]. *)
Definition zrange (lo hi : Z) : list Z :=
  map (fun k => (lo + Z.of_nat k)%Z) (seq 0 (Z.to_nat (hi - lo))).

(** [document.createElement('canvas')] with [width] and [height] assigned:
    the backing store is transparent black. *)
Definition createCanvas (w h : Z) (ok2d : bool) : HTMLCanvasElement :=
  mkCanvas w h (repeat 0%Z (Z.to_nat (4 * w * h))) ok2d.

(** What [stamp.width = n] and [stamp.height = n] store: the attribute
    reflects an unsigned long, so [n] is taken modulo 2^32 and a result
    above 2147483647 gives the attribute's default (300 for the width, 150
    for the height). *)
Definition canvasDimension (default n : Z) : Z :=
  let u := (n mod 4294967296)%Z in
  if (u <=? 2147483647)%Z then u else default.

(** [drawImage] with a canvas as its source first checks that the canvas
    can be used: one whose width or height is 0 raises InvalidStateError. *)
Definition usableCanvas (c : HTMLCanvasElement) : bool :=
  negb ((width c =? 0)%Z || (height c =? 0)%Z).

(** Whether the body of the tile loop [for (i = -1; i < cols; i++)
    for (j = -1; j < rows; j++)] runs at least once. *)
Definition entersTiles (cols rows : Bound) : bool :=
  match cols, rows with
  | Finite cols, Finite rows => (-1 <? cols)%Z && (-1 <? rows)%Z
  | Finite cols, Unbounded => (-1 <? cols)%Z
  | Unbounded, Finite rows => (-1 <? rows)%Z
  | Unbounded, Unbounded => true
  end.

Section Rasterizer.

(** What the browser provides: whether a 2D context can be acquired for
    the heightmap canvas and for the stamp canvas, text metrics, image
    loading ([None] when [onerror] fires) and the three painting
    primitives, each from the drawing state, the call's arguments, the
    canvas size and the pixels before to the pixels after. *)
Variable context2d : bool.
Variable stampContext2d : bool.
Variable measureText : DrawState -> string -> R.
Variable loadImage : string -> option ImageSource.
Variable paintRect : DrawState -> R -> R -> R -> R -> Z -> Z -> list Z -> list Z.
Variable paintText : DrawState -> string -> R -> R -> Z -> Z -> list Z -> list Z.
Variable paintImage :
  DrawState -> ImageSource -> R -> R -> option (R * R) -> Z -> Z -> list Z -> list Z.

Definition fillRect (w h : Z) (x y rw rh : R) (c : Context2D) : Context2D :=
  mkCtx (state c) (stack c) (paintRect (state c) x y rw rh w h (pixels c)).
Definition fillText (w h : Z) (s : string) (x y : R) (c : Context2D) : Context2D :=
  mkCtx (state c) (stack c) (paintText (state c) s x y w h (pixels c)).
(** [drawImage] is the painting of a source that passed the check of
    [usableCanvas]; [generateHeightMap] below makes that check where the
    stamp canvas is the source. *)
Definition drawImage (w h : Z) (img : ImageSource) (x y : R) (size : option (R * R))
    (c : Context2D) : Context2D :=
  mkCtx (state c) (stack c) (paintImage (state c) img x y size w h (pixels c)).

(** The doubly nested tile loop: [i] from -1 to [cols - 1], [j] from -1 to
    [rows - 1], each tile drawn between [save] and [restore] after
    [translate(x, y)] and [rotate(tilt * PI / 180)].  [None] when a loop
    with an infinite bound is entered: the call never returns. *)
Definition stampTiles (cols rows : Bound) (periodX periodY tiltDeg : R)
    (draw : Context2D -> Context2D) (c : Context2D) : option Context2D :=
  match cols, rows with
  | Unbounded, _ => None
  | Finite cols, Unbounded => if (-1 <? cols)%Z then None else Some c
  | Finite cols, Finite rows =>
      Some (fold_left (fun c i =>
        fold_left (fun c j =>
          let x := IZR i * periodX in
          let y := IZR j * periodY in
          let c := save c in
          let c := setState (pushTransform (Translate x y)) c in
          let c := setState (pushTransform (Rotate ((tiltDeg * PI) / 180))) c in
          let c := draw c in
          restore c)
          (zrange (-1) rows) c)
        (zrange (-1) cols) c)
  end.

Definition nonEmpty (s : string) : bool :=
  match s with EmptyString => false | _ => true end.

Definition generateHeightMap (type : PatternKind) (content : string)
    (w h : Z) (options : HeightMapOptions) : Promise HTMLCanvasElement :=
  let canvas := createCanvas w h context2d in
  if negb context2d then Resolved canvas else
  let ctx := mkCtx defaultDraw [] (bitmap canvas) in
  (* Background: black (height 0) *)
  let ctx := setState (setFillStyle "#000000") ctx in
  let ctx := fillRect w h 0 0 (IZR w) (IZR h) ctx in
  (* Foreground: white (height 1) *)
  let ctx := setState (setFillStyle "#FFFFFF") ctx in
  let ctx := setState (setTextAlign "center") ctx in
  let ctx := setState (setTextBaseline "middle") ctx in
  let BASE_RESOLUTION := 1024 in
  let scaleFactor := IZR w / BASE_RESOLUTION in
  let scaledFontSize := fontSize options * scaleFactor in
  let scaledSpacingX := spacingX options * scaleFactor in
  let scaledSpacingY := spacingY options * scaleFactor in
  let scaledLetterSpacing :=
    match letterSpacing options with Some l => l | None => 0 end * scaleFactor in
  let ctx := save ctx in
  let finish (drawn : option Context2D) :=
    match drawn with
    | Some ctx => Resolved (mkCanvas w h (pixels (restore ctx)) true)
    | None => Pending
    end in
  match type with
  | KText =>
      let fontName :=
        match fontFamily options with
        | Some f => if nonEmpty f then f else "Inter"%string
        | None => "Inter"%string
        end in
      let ctx := setState (setLetterSpacing scaledLetterSpacing) ctx in
      let ctx := setState (setFont (scaledFontSize, fontName)) ctx in
      let textWidth := measureText (state ctx) content in
      let textHeight := scaledFontSize in
      let cols := tileBound w (textWidth + scaledSpacingX) in
      let rows := tileBound h (textHeight + scaledSpacingY) in
      let ctx := setState (setBlur (1 * (scaleFactor * 0.5))) ctx in
      finish (stampTiles cols rows (textWidth + scaledSpacingX)
                (textHeight + scaledSpacingY) (tilt options)
                (fillText w h content 0 0) ctx)
  | KImage =>
      if negb (nonEmpty content) then finish (Some ctx) else
      match loadImage content with
      | None => Rejected
      | Some img =>
          if Rlt_dec 0 (naturalWidth img) then
            let aspect := naturalWidth img / naturalHeight img in
            let baseDrawSize := 100 * scaleFactor in
            let drawWidth := baseDrawSize * imageScale options * aspect in
            let drawHeight := baseDrawSize * imageScale options in
            let cols := tileBound w (drawWidth + scaledSpacingX) in
            let rows := tileBound h (drawHeight + scaledSpacingY) in
            let stamp := createCanvas (canvasDimension 300 (Math.ceil (drawWidth * 1.5)))
                                      (canvasDimension 150 (Math.ceil (drawHeight * 1.5)))
                                      stampContext2d in
            let sw := width stamp in
            let sh := height stamp in
            let stampPixels :=
              if stampContext2d then
                let s := mkCtx defaultDraw [] (bitmap stamp) in
                let s := setState (pushTransform (Translate (IZR sw / 2) (IZR sh / 2))) s in
                let s := drawImage sw sh img (- drawWidth / 2) (- drawHeight / 2)
                           (Some (drawWidth, drawHeight)) s in
                let s := setState (setComposite "source-in") s in
                let s := setState (setFillStyle "#FFFFFF") s in
                let s := fillRect sw sh (- IZR sw / 2) (- IZR sh / 2) (IZR sw) (IZR sh) s in
                pixels s
              else bitmap stamp in
            let stampImage := mkImage (IZR sw) (IZR sh) stampPixels in
            let ctx := setState (setBlur (1 * (scaleFactor * 0.5))) ctx in
            (* the first [ctx.drawImage(stamp, ...)] throws on an unusable stamp *)
            if negb (usableCanvas stamp) && entersTiles cols rows then Rejected else
            finish (stampTiles cols rows (drawWidth + scaledSpacingX)
                      (drawHeight + scaledSpacingY) (tilt options)
                      (drawImage w h stampImage (- IZR sw / 2) (- IZR sh / 2) None) ctx)
          else finish (Some ctx)
      end
  end.

End Rasterizer.

(** ** utils/geometryUtils.ts: applyDisplacement *)

(** The transfer function of the loop body: [heightValue] from
    [rawHeight], with [edgeStart = 0.40] and [edgeEnd = 0.60]. *)
Definition heightValue (rawHeight : R) : R :=
  let edgeStart := 0.40 in
  let edgeEnd := 0.60 in
  if Rgt_dec rawHeight edgeStart then
    let t := Math.min (Math.max ((rawHeight - edgeStart) / (edgeEnd - edgeStart)) 0) 1 in
    t * t * (3 - 2 * t)
  else 0.

(** The index a UV pair reads.  A remainder by zero is NaN and makes the
    index NaN: [None]. *)
Definition pixelIndex (w h : Z) (u v : R) : option Z :=
  if ((w =? 0) || (h =? 0))%Z then None else
  let px := jsmod (Math.floor (u * IZR w)) w in
  let py := jsmod (Math.floor (v * IZR h)) h in
  let px := if (px <? 0)%Z then (px + w)%Z else px in
  let py := if (py <? 0)%Z then (py + h)%Z else py in
  Some ((py * w + px) * 4)%Z.

(** [data[index] / 255.0]; a NaN index reads [undefined], modelled as 0
    like every other read outside the data. *)
Definition rawHeightAt (data : list Z) (w h : Z) (u v : R) : R :=
  match pixelIndex w h u v with
  | Some index => IZR (dataAt data index) / 255.0
  | None => 0
  end.

(** One iteration of [for (let i = 0; i < posAttribute.count; i++)]: the
    position buffer after the iteration.  Each [continue] leaves the
    buffer as it is. *)
Definition displaceVertex (data : list Z) (w h : Z)
    (displacementScale minRadiusThreshold : R)
    (normalAttribute : list Vector3) (uvAttribute : list Vector2)
    (posAttribute : list Vector3) (i : nat) : list Vector3 :=
  let x := vx (getV3 posAttribute i) in
  let z := vz (getV3 posAttribute i) in
  let r := sqrt (x * x + z * z) in
  if Rlt_dec r minRadiusThreshold then posAttribute else
  let ny := vy (getV3 normalAttribute i) in
  if Rgt_dec (Math.abs ny) 0.5 then posAttribute else
  let u := ux (getV2 uvAttribute i) in
  let v := uy (getV2 uvAttribute i) in
  if Rlt_dec v 0.05 then posAttribute else
  if Rgt_dec v 0.95 then posAttribute else
  let rawHeight := rawHeightAt data w h u v in
  let hv := heightValue rawHeight in
  if Rgt_dec hv 0 then
    let nrm := getV3 normalAttribute i in
    let vector := getV3 posAttribute i in
    let vector := Vector3Ops.addScaledVector vector nrm (hv * displacementScale) in
    setXYZ posAttribute i vector
  else posAttribute.

Definition applyDisplacement (geometry : BufferGeometry) (heightMap : HTMLCanvasElement)
    (displacementScale minRadiusThreshold : R) : BufferGeometry :=
  match uv geometry, normal geometry with
  | Some uvAttribute, Some normalAttribute =>
      match getImageData heightMap with
      | None => geometry
      | Some data =>
          let posAttribute := position geometry in
          let displaced :=
            fold_left (displaceVertex data (width heightMap) (height heightMap)
                         displacementScale minRadiusThreshold
                         normalAttribute uvAttribute)
                      (seq 0 (List.length posAttribute)) posAttribute in
          THREE.computeVertexNormals (withPosition geometry displaced)
      end
  | _, _ => geometry
  end.

(** The three skip rules of the loop body, read off one vertex: position
    [p], normal [n], texture coordinates [t]. *)
Definition skipped (minRadiusThreshold : R) (p n : Vector3) (t : Vector2) : Prop :=
  planarRadius p < minRadiusThreshold \/ Math.abs (vy n) > 0.5 \/
  uy t < 0.05 \/ uy t > 0.95.

(** What one iteration stores for a vertex, as a function of that vertex
    alone. *)
Definition displacedPosition (data : list Z) (w h : Z)
    (displacementScale minRadiusThreshold : R)
    (p n : Vector3) (t : Vector2) : Vector3 :=
  if Rlt_dec (planarRadius p) minRadiusThreshold then p else
  if Rgt_dec (Math.abs (vy n)) 0.5 then p else
  if Rlt_dec (uy t) 0.05 then p else
  if Rgt_dec (uy t) 0.95 then p else
  let hv := heightValue (rawHeightAt data w h (ux t) (uy t)) in
  if Rgt_dec hv 0
  then Vector3Ops.addScaledVector p n (hv * displacementScale)
  else p.

(** The displacement weight of a vertex: 0 where a skip rule fires,
    [heightValue] of the sampled intensity elsewhere. *)
Definition vertexWeight (data : list Z) (w h : Z) (minRadiusThreshold : R)
    (p n : Vector3) (t : Vector2) : R :=
  if Rlt_dec (planarRadius p) minRadiusThreshold then 0 else
  if Rgt_dec (Math.abs (vy n)) 0.5 then 0 else
  if Rlt_dec (uy t) 0.05 then 0 else
  if Rgt_dec (uy t) 0.95 then 0 else
  heightValue (rawHeightAt data w h (ux t) (uy t)).

(** The weight [applyDisplacement] gives vertex [i] of a geometry; 0 when
    the function returns at one of its guards. *)
Definition weightOf (geometry : BufferGeometry) (heightMap : HTMLCanvasElement)
    (minRadiusThreshold : R) (i : nat) : R :=
  match uv geometry, normal geometry, getImageData heightMap with
  | Some uvAttribute, Some normalAttribute, Some data =>
      vertexWeight data (width heightMap) (height heightMap) minRadiusThreshold
        (getV3 (position geometry) i) (getV3 normalAttribute i) (getV2 uvAttribute i)
  | _, _, _ => 0
  end.

(** The first revision of the transfer function (a linear ramp clipped at
    1), kept for comparison with [heightValue]. *)
Definition heightValue_rev1 (rawHeight : R) : R :=
  let minT := 0.40 in
  let maxT := 0.60 in
  if Rgt_dec rawHeight minT then
    let hv := (rawHeight - minT) / (maxT - minT) in
    if Rgt_dec hv 1.0 then 1.0 else hv
  else 0.

(** ** types.ts *)

Inductive PatternType := TEXT | IMAGE.

Module AppState.

Record t := mk {
  patternType : PatternType;
  text : string;
  imageSrc : option string;
  cylinderRadius : R;
  cylinderHeight : R;
  fontSize : R;
  fontFamily : option string;
  letterSpacing : option R;
  imageScale : R;
  spacingX : R;
  spacingY : R;
  tilt : R;
  embossDepth : R;
  isGenerating : bool
}.

End AppState.

Definition DEFAULT_STATE : AppState.t :=
  AppState.mk TEXT "VINO's LAB" None 15 60 120 None None 1 20 120 0 0.4 false.

(** [Math.atan2(y, x)] *)
Definition atan2 (y x : R) : R :=
  if Rlt_dec 0 x then atan (y / x)
  else if Rlt_dec x 0 then
    (if Rle_dec 0 y then atan (y / x) + PI else atan (y / x) - PI)
  else if Rlt_dec 0 y then PI / 2
  else if Rlt_dec y 0 then - PI / 2
  else 0.

(** ** components/CylinderObject.tsx: buildCylinderGeometry *)

Record Shape := mkShape {
  arcRadius : R;
  holes : list (list (R * R))
}.

Record ExtrudeSettings := mkExtrude {
  depth : R;
  bevelEnabled : bool;
  bevelThickness_ : R;
  bevelSize_ : R;
  bevelSegments : Z;
  curveSegments : Z;
  steps : Z
}.

Definition TEXTURE_WIDTH : Z := 4096.
Definition TEXTURE_HEIGHT : Z := 4096.
Definition bevelSize : R := 1.
Definition bevelThickness : R := 1.

(** The shape handed to the extruder: a full circle with the 15 x 15
    square hole. *)
Definition cylinderShape (radius : R) : Shape :=
  let halfHole := 7.5 in
  mkShape radius
    [[(- halfHole, - halfHole); (halfHole, - halfHole);
      (halfHole, halfHole); (- halfHole, halfHole)]].

Definition cylinderExtrudeSettings (height : R) : ExtrudeSettings :=
  let extrudeDepth := height - (2 * bevelThickness) in
  let steps := Math.floor (height * 2.5) in
  mkExtrude extrudeDepth true bevelThickness bevelSize 2 150 steps.

(** One iteration of the UV loop over the centred, upright solid. *)
Definition shellUv (radius height : R) (pos : list Vector3)
    (uvs : list Vector2) (i : nat) : list Vector2 :=
  let rThreshold := radius * 0.8 in
  let x := vx (getV3 pos i) in
  let y := vy (getV3 pos i) in
  let z := vz (getV3 pos i) in
  let r := sqrt (x * x + z * z) in
  if Rgt_dec r rThreshold then
    let angle := atan2 x z in
    let u := (angle / (2 * PI)) + 0.5 in
    let v := (y + height / 2) / height in
    setXY uvs i (mkV2 u v)
  else uvs.

Definition assignShellUvs (radius height : R) (g : BufferGeometry) : BufferGeometry :=
  match uv g with
  | Some uvs =>
      withUv g (fold_left (shellUv radius height (position g))
                          (seq 0 (List.length (position g))) uvs)
  | None => g
  end.

(** Step 6: the plug height, two 15 mm sockets left open. *)
Definition plugHeight (height : R) : R := Math.max 0.1 (height - 30).

(** The first revision left 10 mm sockets. *)
Definition plugHeight_rev1 (height : R) : R := Math.max 0.1 (height - 20).

Section Component.

(** [new THREE.ExtrudeGeometry(shape, settings)]: the extruder's triangle
    soup, one (position, normal, uv) triple per vertex.  The geometry it
    builds is not indexed and carries the three attributes. *)
Variable extrude : Shape -> ExtrudeSettings -> list (Vector3 * Vector3 * Vector2).

Definition ExtrudeGeometry (shape : Shape) (settings : ExtrudeSettings) : BufferGeometry :=
  let vs := extrude shape settings in
  mkGeometry (map (fun v => fst (fst v)) vs)
             (Some (map (fun v => snd (fst v)) vs))
             (Some (map snd vs))
             None.

(** The extruded solid after steps 3 and 4: centred and upright. *)
Definition uprightGeometry (radius height : R) : BufferGeometry :=
  let geometry := ExtrudeGeometry (cylinderShape radius) (cylinderExtrudeSettings height) in
  let geometry := THREE.center geometry in
  THREE.rotateX (PI / 2) geometry.

(** The extruded solid after step 5: shell UVs assigned. *)
Definition shellGeometry (radius height : R) : BufferGeometry :=
  assignShellUvs radius height (uprightGeometry radius height).

Definition plugGeometry (height : R) : BufferGeometry :=
  THREE.BoxGeometry 15 (plugHeight height) 15.

Definition buildCylinderGeometry (radius height depthOffset : R) : option BufferGeometry :=
  let geometry := shellGeometry radius height in
  let plugGeo := plugGeometry height in
  let geometryNonIndexed := THREE.toNonIndexed geometry in
  let plugGeoNonIndexed := THREE.toNonIndexed plugGeo in
  THREE.mergeGeometries [geometryNonIndexed; plugGeoNonIndexed].

(** ** The synchronous tail of updateGeometry *)

(** Steps 2 and 3 of [updateGeometry], after the heightmap is there: the
    two geometries that are handed to the setters when the cycle is not
    cancelled ([None] where [buildCylinderGeometry] gave [null]). *)
Definition positiveGeometry (config : AppState.t) (canvas : HTMLCanvasElement)
    : option BufferGeometry :=
  match buildCylinderGeometry (AppState.cylinderRadius config)
                              (AppState.cylinderHeight config) 0 with
  | Some posGeo =>
      Some (applyDisplacement posGeo canvas (AppState.embossDepth config)
              (AppState.cylinderRadius config * 0.9))
  | None => None
  end.

Definition negativeGeometry (config : AppState.t) (canvas : HTMLCanvasElement)
    : option BufferGeometry :=
  let outerRadius := AppState.cylinderRadius config + AppState.embossDepth config in
  match buildCylinderGeometry outerRadius (AppState.cylinderHeight config) 0 with
  | Some negGeo =>
      Some (applyDisplacement negGeo canvas (- AppState.embossDepth config)
              (outerRadius * 0.9))
  | None => None
  end.

End Component.

(** ** The geometry effect of CylinderObject and App's export handler *)

(** Where one run of the geometry effect stands. *)
Inductive Phase :=
  | TimerArmed     (* [setTimeout] pending *)
  | TimerCleared   (* [clearTimeout] came before the timer fired *)
  | Rasterizing    (* [updateGeometry] suspended at [await generateHeightMap] *)
  | Returned       (* [updateGeometry] returned *)
  | Threw.         (* the awaited promise rejected *)

(** The closure of one run of the effect: the configuration it captured,
    its [isCancelled] flag and its phase. *)
Record Effect := mkEffect {
  config : AppState.t;
  isCancelled : bool;
  phase : Phase
}.

(** What an export request produces. *)
Inductive Outcome :=
  | Downloaded (group : list (BufferGeometry * R))
  | Alerted (msg : string)
  | Nothing.

(** The state of [App] and [CylinderObject].  Each displayed geometry is
    tagged with the number of the effect run that set it. *)
Record World := mkWorld {
  appConfig : AppState.t;
  exportFn : bool;
  isProcessing : bool;
  displayGeoPositive : option (nat * BufferGeometry);
  displayGeoNegative : option (nat * BufferGeometry);
  effects : list Effect;
  shown : list Outcome
}.

Definition initialWorld : World :=
  mkWorld DEFAULT_STATE false false None None [] [].

Definition setAppConfig (c : AppState.t) (w : World) : World :=
  mkWorld c (exportFn w) (isProcessing w) (displayGeoPositive w)
          (displayGeoNegative w) (effects w) (shown w).
Definition setExportFn (b : bool) (w : World) : World :=
  mkWorld (appConfig w) b (isProcessing w) (displayGeoPositive w)
          (displayGeoNegative w) (effects w) (shown w).
Definition setIsProcessing (b : bool) (w : World) : World :=
  mkWorld (appConfig w) (exportFn w) b (displayGeoPositive w)
          (displayGeoNegative w) (effects w) (shown w).
Definition setDisplayGeoPositive (g : nat * BufferGeometry) (w : World) : World :=
  mkWorld (appConfig w) (exportFn w) (isProcessing w) (Some g)
          (displayGeoNegative w) (effects w) (shown w).
Definition setDisplayGeoNegative (g : nat * BufferGeometry) (w : World) : World :=
  mkWorld (appConfig w) (exportFn w) (isProcessing w) (displayGeoPositive w)
          (Some g) (effects w) (shown w).
Definition setEffects (l : list Effect) (w : World) : World :=
  mkWorld (appConfig w) (exportFn w) (isProcessing w) (displayGeoPositive w)
          (displayGeoNegative w) l (shown w).
Definition addShown (o : Outcome) (w : World) : World :=
  mkWorld (appConfig w) (exportFn w) (isProcessing w) (displayGeoPositive w)
          (displayGeoNegative w) (effects w) (shown w ++ [o]).

Definition setPhase (p : Phase) (e : Effect) : Effect :=
  mkEffect (config e) (isCancelled e) p.

(** The effect's cleanup: [isCancelled = true; clearTimeout(debounceTimer)]. *)
Definition cleanup (e : Effect) : Effect :=
  mkEffect (config e) true
           (match phase e with TimerArmed => TimerCleared | p => p end).

(** The rendered group [groupRef.current] points to: it exists once both
    display geometries are set; the two meshes sit at [-offset/2] and
    [offset/2]. *)
Definition groupRef (w : World) : option (list (BufferGeometry * R)) :=
  let offset := AppState.cylinderRadius (appConfig w) * 2.5 + 20 in
  match displayGeoPositive w, displayGeoNegative w with
  | Some p, Some n => Some [(snd p, - offset / 2); (snd n, offset / 2)]
  | _, _ => None
  end.

(** The function [CylinderObject] registers with [setExportFunction]. *)
Definition exportFunction (w : World) : Outcome :=
  match groupRef w with
  | None => Nothing
  | Some group => Downloaded group
  end.

(** [App.handleExport] *)
Definition handleExport (w : World) : Outcome :=
  if exportFn w && negb (isProcessing w) then exportFunction w
  else if isProcessing w then Alerted "Please wait for generation to complete."
  else Alerted "Geometry not ready yet.".

Inductive Event :=
  | Mount
  | ConfigChange (c : AppState.t)
  | TimerFire (id : nat)
  | HeightMapSettled (id : nat)
  | ExportClick.

Section Orchestrator.

Variable extrude : Shape -> ExtrudeSettings -> list (Vector3 * Vector3 * Vector2).
(** [generateHeightMap] as imported from geometryUtils, in its browser. *)
Variable heightMapOf :
  PatternKind -> string -> Z -> Z -> HeightMapOptions -> Promise HTMLCanvasElement.

(** The call [updateGeometry] awaits. *)
Definition requestHeightMap (c : AppState.t) : Promise HTMLCanvasElement :=
  heightMapOf
    (match AppState.patternType c with TEXT => KText | IMAGE => KImage end)
    (match AppState.patternType c with
     | TEXT => AppState.text c
     | IMAGE => match AppState.imageSrc c with
                | Some s => s
                | None => ""%string
                end
     end)
    TEXTURE_WIDTH TEXTURE_HEIGHT
    (mkOptions (AppState.fontSize c) (AppState.fontFamily c)
               (AppState.letterSpacing c) (AppState.spacingX c)
               (AppState.spacingY c) (AppState.tilt c) (AppState.imageScale c)).

(** The body of the effect: [onProcessingChange(true)] and a fresh run
    with its debounce timer armed. *)
Definition runEffect (w : World) : World :=
  let w := setIsProcessing true w in
  setEffects (effects w ++ [mkEffect (appConfig w) false TimerArmed]) w.

(** [updateGeometry] up to its [await]: the first [if (isCancelled) return],
    then the call of [generateHeightMap]. *)
Definition updateGeometry_start (e : Effect) : Effect :=
  setPhase (if isCancelled e then Returned else Rasterizing) e.

(** [updateGeometry] once the awaited heightmap is there: the second
    [if (isCancelled) return], steps 2 and 3 and the final
    [onProcessingChange(false)], one uninterrupted synchronous block. *)
Definition updateGeometry_resume (id : nat) (e : Effect) (canvas : HTMLCanvasElement)
    (w : World) : World :=
  if isCancelled e then w else
  let w :=
    match positiveGeometry extrude (config e) canvas with
    | Some posGeo =>
        if negb (isCancelled e) then setDisplayGeoPositive (id, posGeo) w else w
    | None => w
    end in
  let w :=
    match negativeGeometry extrude (config e) canvas with
    | Some negGeo =>
        if negb (isCancelled e) then setDisplayGeoNegative (id, negGeo) w else w
    | None => w
    end in
  if negb (isCancelled e) then setIsProcessing false w else w.

Definition handle (w : World) (ev : Event) : World :=
  match ev with
  | Mount =>
      match effects w with
      | [] => runEffect (setExportFn true w)
      | _ :: _ => w
      end
  | ConfigChange c =>
      let w := setAppConfig c w in
      match effects w with
      | [] => w
      | _ :: _ =>
          let last := (List.length (effects w) - 1)%nat in
          runEffect (setEffects (alter cleanup last (effects w)) w)
      end
  | TimerFire id =>
      match effects w !! id with
      | Some e =>
          match phase e with
          | TimerArmed =>
              setEffects (<[id := updateGeometry_start e]> (effects w)) w
          | _ => w
          end
      | None => w
      end
  | HeightMapSettled id =>
      match effects w !! id with
      | Some e =>
          match phase e with
          | Rasterizing =>
              match requestHeightMap (config e) with
              | Resolved canvas =>
                  let w := setEffects (<[id := setPhase Returned e]> (effects w)) w in
                  updateGeometry_resume id e canvas w
              | Rejected =>
                  setEffects (<[id := setPhase Threw e]> (effects w)) w
              | Pending => w
              end
          | _ => w
          end
      | None => w
      end
  | ExportClick => addShown (handleExport w) w
  end.

Definition run (evs : list Event) (w : World) : World := fold_left handle evs w.

End Orchestrator.

(** ** Notions used in the statements *)

(** The texture coordinates step 5 stores for a shell vertex at [p]. *)
Definition cylindricalUv (height : R) (p : Vector3) : Vector2 :=
  mkV2 (atan2 (vx p) (vz p) / (2 * PI) + 0.5) ((vy p + height / 2) / height).

(** The vertices the plug contributes to the merged triangle soup. *)
Definition plugPositions (height : R) : list Vector3 :=
  position (THREE.toNonIndexed (plugGeometry height)).

(** A vertex on the lateral edges of a [w] x [h] x [d] box about the origin. *)
Definition boxCorner (w h d : R) (p : Vector3) : Prop :=
  (vx p = w / 2 \/ vx p = - (w / 2)) /\
  (vy p = h / 2 \/ vy p = - (h / 2)) /\
  (vz p = d / 2 \/ vz p = - (d / 2)).

Definition sign (positive : bool) : R := if positive then 1 else -1.

(** The run of the effect a displayed geometry comes from. *)
Definition cycleOf (slot : option (nat * BufferGeometry)) : option nat :=
  option_map fst slot.

(** The invariant of every reachable state. *)
Record Consistent (w : World) : Prop := mkConsistent {
  same_cycle : cycleOf (displayGeoPositive w) = cycleOf (displayGeoNegative w);
  idle_means_committed :
    isProcessing w = false -> effects w <> [] -> displayGeoPositive w <> None;
  mounted_has_export : effects w <> [] -> exportFn w = true;
  unmounted_is_blank :
    effects w = [] ->
    exportFn w = false /\ isProcessing w = false /\ displayGeoPositive w = None;
  superseded_cancelled :
    forall id e, effects w !! id = Some e ->
      (id + 1 < List.length (effects w))%nat -> isCancelled e = true;
  latest_live :
    forall id e, effects w !! id = Some e ->
      (id + 1 = List.length (effects w))%nat -> isCancelled e = false
}.

(** Small concrete inputs: a one-vertex geometry, a 1 x 2 canvas whose
    second row is white, the configuration of the worked scenario, and an
    extruder that emits a single vertex on the axis. *)
Definition oneVertex (p n : Vector3) (t : Vector2) : BufferGeometry :=
  mkGeometry [p] (Some [n]) (Some [t]) None.

Definition twoRowCanvas : HTMLCanvasElement :=
  mkCanvas 1 2 [0; 0; 0; 255; 255; 255; 255; 255]%Z true.

Definition scenario : AppState.t :=
  AppState.mk TEXT "AB" None 15 60 120 None None 1 20 120 0 0.4 false.

Definition axisVertex (_ : Shape) (_ : ExtrudeSettings)
    : list (Vector3 * Vector3 * Vector2) :=
  [(mkV3 0 0 0, mkV3 0 0 1, mkV2 0.25 0.75)].

(** The extruded solid after step 3 only: centred, still lying along z. *)
Definition centredExtrusion
    (extrude : Shape -> ExtrudeSettings -> list (Vector3 * Vector3 * Vector2))
    (radius height : R) : BufferGeometry :=
  THREE.center (ExtrudeGeometry extrude (cylinderShape radius)
                  (cylinderExtrudeSettings height)).

(** The quarter turn [rotateX(Math.PI / 2)] in exact arithmetic. *)
Definition quarterTurn (p : Vector3) : Vector3 := mkV3 (vx p) (- vz p) (vy p).

(** An extruder that emits two opposite vertices on the rim of radius 13,
    one at each end of an extrusion of length 58. *)
Definition rimVertices (_ : Shape) (_ : ExtrudeSettings)
    : list (Vector3 * Vector3 * Vector2) :=
  [(mkV3 13 0 29, mkV3 1 0 0, mkV2 0 0); (mkV3 (-13) 0 (-29), mkV3 (-1) 0 0, mkV2 1 1)].



(** The normals and texture coordinates the plug contributes to the merged
    triangle soup, next to [plugPositions]. *)
Definition plugNormals (height : R) : list Vector3 :=
  match normal (THREE.toNonIndexed (plugGeometry height)) with
  | Some n => n
  | None => []
  end.

Definition plugUvs (height : R) : list Vector2 :=
  match uv (THREE.toNonIndexed (plugGeometry height)) with
  | Some t => t
  | None => []
  end.

(** Whether an event is a configuration change. *)
Definition isConfigChange (ev : Event) : bool :=
  match ev with ConfigChange _ => true | _ => false end.

(** What the newest run of the effect and the busy flag have to do with
    each other in every reachable state. *)
Record Orderly
    (extrude : Shape -> ExtrudeSettings -> list (Vector3 * Vector3 * Vector2))
    (heightMapOf : PatternKind -> string -> Z -> Z -> HeightMapOptions
                   -> Promise HTMLCanvasElement)
    (w : World) : Prop := mkOrderly {
  armed_is_newest :
    forall id e, effects w !! id = Some e -> phase e = TimerArmed ->
                 (id + 1 = List.length (effects w))%nat;
  newest_not_cleared :
    forall id e, effects w !! id = Some e ->
                 (id + 1 = List.length (effects w))%nat -> phase e <> TimerCleared;
  newest_has_config :
    forall id e, effects w !! id = Some e ->
                 (id + 1 = List.length (effects w))%nat -> config e = appConfig w;
  busy_unless_returned :
    forall id e, effects w !! id = Some e ->
                 (id + 1 = List.length (effects w))%nat ->
                 (isProcessing w = false <-> phase e = Returned);
  idle_shows_newest :
    forall id e, effects w !! id = Some e ->
                 (id + 1 = List.length (effects w))%nat ->
                 isProcessing w = false ->
                 exists canvas posGeo negGeo,
                   requestHeightMap heightMapOf (config e) = Resolved canvas /\
                   positiveGeometry extrude (config e) canvas = Some posGeo /\
                   negativeGeometry extrude (config e) canvas = Some negGeo /\
                   displayGeoPositive w = Some (id, posGeo) /\
                   displayGeoNegative w = Some (id, negGeo)
}.

(** The newest run of the effect has thrown. *)
Definition stuck (id : nat) (w : World) : Prop :=
  Consistent w /\
  (id + 1 = List.length (effects w))%nat /\
  exists e, effects w !! id = Some e /\ phase e = Threw.

(** The drawing state one tile of the pattern is painted under, and the
    tiles of the grid in the order the two loops visit them. *)
Definition tileState (base : DrawState) (periodX periodY tiltDeg : R)
    (tile : Z * Z) : DrawState :=
  pushTransform (Rotate ((tiltDeg * PI) / 180))
    (pushTransform (Translate (IZR (fst tile) * periodX) (IZR (snd tile) * periodY))
       base).

Definition tileGrid (cols rows : Z) : list (Z * Z) :=
  flat_map (fun i => map (fun j => (i, j)) (zrange (-1) rows)) (zrange (-1) cols).

(** A painting call: the pixels change, the drawing state does not. *)
Definition repaint (paint : DrawState -> list Z -> list Z) (c : Context2D)
    : Context2D :=
  mkCtx (state c) (stack c) (paint (state c) (pixels c)).

(** The drawing state [generateHeightMap] measures and paints text under,
    and the two tile periods of text mode. *)
Definition textDrawState (w : Z) (options : HeightMapOptions) : DrawState :=
  let scaleFactor := IZR w / 1024 in
  setFont (fontSize options * scaleFactor,
           match fontFamily options with
           | Some f => if nonEmpty f then f else "Inter"%string
           | None => "Inter"%string
           end)
    (setLetterSpacing
       (match letterSpacing options with Some l => l | None => 0 end * scaleFactor)
       (setTextBaseline "middle"
          (setTextAlign "center" (setFillStyle "#FFFFFF"
             (setFillStyle "#000000" defaultDraw))))).

Definition textPeriodX (measureText : DrawState -> string -> R) (content : string)
    (w : Z) (options : HeightMapOptions) : R :=
  measureText (textDrawState w options) content + spacingX options * (IZR w / 1024).

Definition textPeriodY (w : Z) (options : HeightMapOptions) : R :=
  fontSize options * (IZR w / 1024) + spacingY options * (IZR w / 1024).

(** The tile size of image mode, the size the stamp canvas ends up with
    and the two loop bounds. *)
Definition imageDrawWidth (w : Z) (options : HeightMapOptions) (img : ImageSource) : R :=
  100 * (IZR w / 1024) * imageScale options * (naturalWidth img / naturalHeight img).

Definition imageDrawHeight (w : Z) (options : HeightMapOptions) : R :=
  100 * (IZR w / 1024) * imageScale options.

Definition stampWidth (w : Z) (options : HeightMapOptions) (img : ImageSource) : Z :=
  canvasDimension 300 (Math.ceil (imageDrawWidth w options img * 1.5)).

Definition stampHeight (w : Z) (options : HeightMapOptions) : Z :=
  canvasDimension 150 (Math.ceil (imageDrawHeight w options * 1.5)).

Definition imageCols (w : Z) (options : HeightMapOptions) (img : ImageSource) : Bound :=
  tileBound w (imageDrawWidth w options img + spacingX options * (IZR w / 1024)).

Definition imageRows (w h : Z) (options : HeightMapOptions) : Bound :=
  tileBound h (imageDrawHeight w options + spacingY options * (IZR w / 1024)).

(** ** App.tsx: handleConfigChange *)

(** [Partial<AppState>]: every key may be missing. *)
Module Updates.

Record t := mk {
  patternType : option PatternType;
  text : option string;
  imageSrc : option (option string);
  cylinderRadius : option R;
  cylinderHeight : option R;
  fontSize : option R;
  fontFamily : option (option string);
  letterSpacing : option (option R);
  imageScale : option R;
  spacingX : option R;
  spacingY : option R;
  tilt : option R;
  embossDepth : option R;
  isGenerating : option bool
}.

Definition none : t :=
  mk None None None None None None None None None None None None None None.

End Updates.

(** One key of the spread [{ ...prev, ...updates }]. *)
Definition spreadKey {A} (prev : A) (update : option A) : A :=
  match update with Some v => v | None => prev end.

(** [handleConfigChange]: [setConfig(prev => ({ ...prev, ...updates }))]. *)
Definition handleConfigChange (updates : Updates.t) (prev : AppState.t) : AppState.t :=
  AppState.mk
    (spreadKey (AppState.patternType prev) (Updates.patternType updates))
    (spreadKey (AppState.text prev) (Updates.text updates))
    (spreadKey (AppState.imageSrc prev) (Updates.imageSrc updates))
    (spreadKey (AppState.cylinderRadius prev) (Updates.cylinderRadius updates))
    (spreadKey (AppState.cylinderHeight prev) (Updates.cylinderHeight updates))
    (spreadKey (AppState.fontSize prev) (Updates.fontSize updates))
    (spreadKey (AppState.fontFamily prev) (Updates.fontFamily updates))
    (spreadKey (AppState.letterSpacing prev) (Updates.letterSpacing updates))
    (spreadKey (AppState.imageScale prev) (Updates.imageScale updates))
    (spreadKey (AppState.spacingX prev) (Updates.spacingX updates))
    (spreadKey (AppState.spacingY prev) (Updates.spacingY updates))
    (spreadKey (AppState.tilt prev) (Updates.tilt updates))
    (spreadKey (AppState.embossDepth prev) (Updates.embossDepth updates))
    (spreadKey (AppState.isGenerating prev) (Updates.isGenerating updates)).

(** The keys of [first] overridden by those of [second]:
    [{ ...first, ...second }] on partial objects. *)
Definition laterKey {A} (first second : option A) : option A :=
  match second with Some v => Some v | None => first end.

Definition mergeUpdates (first second : Updates.t) : Updates.t :=
  Updates.mk
    (laterKey (Updates.patternType first) (Updates.patternType second))
    (laterKey (Updates.text first) (Updates.text second))
    (laterKey (Updates.imageSrc first) (Updates.imageSrc second))
    (laterKey (Updates.cylinderRadius first) (Updates.cylinderRadius second))
    (laterKey (Updates.cylinderHeight first) (Updates.cylinderHeight second))
    (laterKey (Updates.fontSize first) (Updates.fontSize second))
    (laterKey (Updates.fontFamily first) (Updates.fontFamily second))
    (laterKey (Updates.letterSpacing first) (Updates.letterSpacing second))
    (laterKey (Updates.imageScale first) (Updates.imageScale second))
    (laterKey (Updates.spacingX first) (Updates.spacingX second))
    (laterKey (Updates.spacingY first) (Updates.spacingY second))
    (laterKey (Updates.tilt first) (Updates.tilt second))
    (laterKey (Updates.embossDepth first) (Updates.embossDepth second))
    (laterKey (Updates.isGenerating first) (Updates.isGenerating second)).

(** The keys of the configuration the geometry effect depends on: every
    key but [isGenerating]. *)
Definition sameForEffect (a b : AppState.t) : Prop :=
  AppState.patternType a = AppState.patternType b /\
  AppState.text a = AppState.text b /\
  AppState.imageSrc a = AppState.imageSrc b /\
  AppState.fontSize a = AppState.fontSize b /\
  AppState.fontFamily a = AppState.fontFamily b /\
  AppState.letterSpacing a = AppState.letterSpacing b /\
  AppState.spacingX a = AppState.spacingX b /\
  AppState.spacingY a = AppState.spacingY b /\
  AppState.tilt a = AppState.tilt b /\
  AppState.embossDepth a = AppState.embossDepth b /\
  AppState.imageScale a = AppState.imageScale b /\
  AppState.cylinderRadius a = AppState.cylinderRadius b /\
  AppState.cylinderHeight a = AppState.cylinderHeight b.

(** * Properties *)

(** ** Buffers *)

Lemma getV3_insert (a : list Vector3) (i j : nat) (p : Vector3) :
  (i < List.length a)%nat ->
  getV3 (<[i:=p]> a) j = if decide (i = j) then p else getV3 a j.
Proof.
  intros Hi. unfold getV3. rewrite !nth_lookup.
  destruct (decide (i = j)) as [->|Hne].
  - now rewrite list_lookup_insert_eq.
  - now rewrite list_lookup_insert_ne.
Qed.

Lemma getV2_insert (a : list Vector2) (i j : nat) (p : Vector2) :
  (i < List.length a)%nat ->
  getV2 (<[i:=p]> a) j = if decide (i = j) then p else getV2 a j.
Proof.
  intros Hi. unfold getV2. rewrite !nth_lookup.
  destruct (decide (i = j)) as [->|Hne].
  - now rewrite list_lookup_insert_eq.
  - now rewrite list_lookup_insert_ne.
Qed.

Lemma getV3_beyond (a : list Vector3) (i : nat) :
  (List.length a <= i)%nat -> getV3 a i = zero3.
Proof. intros H. unfold getV3. now apply nth_overflow. Qed.

Lemma insert_same_V3 (a : list Vector3) (i : nat) : <[i:=getV3 a i]> a = a.
Proof.
  destruct (decide (i < List.length a)%nat) as [Hi|Hi].
  - apply list_insert_id. unfold getV3. rewrite nth_lookup.
    destruct (lookup_lt_is_Some_2 a i Hi) as [x Hx]. now rewrite Hx.
  - apply list_insert_ge. lia.
Qed.

(** ** applyDisplacement: the loop, vertex by vertex *)

Section DisplacementLoop.

Variables (data : list Z) (w h : Z) (scale thr : R).
Variables (normals : list Vector3) (uvs : list Vector2).

Local Abbreviation step := (displaceVertex data w h scale thr normals uvs).
Local Abbreviation target pos i :=
  (displacedPosition data w h scale thr (getV3 pos i) (getV3 normals i) (getV2 uvs i)).

Lemma displaceVertex_insert (pos : list Vector3) (i : nat) :
  step pos i = <[i:=target pos i]> pos.
Proof.
  unfold displaceVertex, displacedPosition, planarRadius, setXYZ.
  repeat (destruct (Rlt_dec _ _) || destruct (Rgt_dec _ _));
    try reflexivity; symmetry; apply insert_same_V3.
Qed.

Lemma displaceVertex_length (pos : list Vector3) (i : nat) :
  List.length (step pos i) = List.length pos.
Proof. rewrite displaceVertex_insert. apply length_insert. Qed.

Lemma displace_loop (idxs : list nat) :
  NoDup idxs ->
  forall pos : list Vector3,
    (forall i, i ∈ idxs -> (i < List.length pos)%nat) ->
    List.length (fold_left step idxs pos) = List.length pos /\
    forall j, getV3 (fold_left step idxs pos) j =
              if decide (j ∈ idxs) then target pos j else getV3 pos j.
Proof.
  induction 1 as [|i idxs Hnotin Hnd IH]; intros pos Hin; simpl.
  - split; [reflexivity|]. intros j.
    destruct (decide (j ∈ [])) as [Hj|_]; [inversion Hj | reflexivity].
  - assert (Hi : (i < List.length pos)%nat) by (apply Hin; left).
    destruct (IH (step pos i)) as [Hlen Hget].
    { intros k Hk. rewrite displaceVertex_length. apply Hin. now right. }
    split; [now rewrite Hlen, displaceVertex_length|].
    intros j. rewrite Hget.
    destruct (decide (j ∈ idxs)) as [Hj|Hj].
    + assert (Hne : i <> j) by (intros ->; contradiction).
      rewrite decide_True by now right.
      rewrite displaceVertex_insert, getV3_insert by exact Hi.
      now rewrite decide_False.
    + rewrite displaceVertex_insert, getV3_insert by exact Hi.
      destruct (decide (i = j)) as [->|Hne].
      * rewrite decide_True by left. reflexivity.
      * rewrite decide_False; [reflexivity|].
        intros Hj'. apply elem_of_cons in Hj' as [->|Hj']; contradiction.
Qed.

End DisplacementLoop.

Lemma computeVertexNormals_position (g : BufferGeometry) :
  position (THREE.computeVertexNormals g) = position g.
Proof. reflexivity. Qed.

(** The position buffer [applyDisplacement] leaves behind, past its two
    guards. *)
Lemma applyDisplacement_position (g : BufferGeometry) (hm : HTMLCanvasElement)
    (scale thr : R) (na : list Vector3) (ta : list Vector2) (data : list Z) :
  normal g = Some na -> uv g = Some ta -> getImageData hm = Some data ->
  List.length (position (applyDisplacement g hm scale thr)) = List.length (position g) /\
  forall i, (i < List.length (position g))%nat ->
    getV3 (position (applyDisplacement g hm scale thr)) i =
    displacedPosition data (width hm) (height hm) scale thr
      (getV3 (position g) i) (getV3 na i) (getV2 ta i).
Proof.
  intros Hn Hu Hd. unfold applyDisplacement. rewrite Hn, Hu, Hd.
  rewrite computeVertexNormals_position. cbn [withPosition position].
  destruct (displace_loop data (width hm) (height hm) scale thr na ta
              (seq 0 (List.length (position g))) (NoDup_seq _ _) (position g))
    as [Hlen Hget].
  { intros i Hi. apply elem_of_seq in Hi. lia. }
  split; [exact Hlen|].
  intros i Hi. rewrite Hget. rewrite decide_True; [reflexivity|].
  apply elem_of_seq. lia.
Qed.

Lemma applyDisplacement_length (g : BufferGeometry) (hm : HTMLCanvasElement)
    (scale thr : R) :
  List.length (position (applyDisplacement g hm scale thr)) = List.length (position g).
Proof.
  unfold applyDisplacement.
  destruct (uv g) as [ta|] eqn:Hu; [|reflexivity].
  destruct (normal g) as [na|] eqn:Hn; [|reflexivity].
  destruct (getImageData hm) as [data|] eqn:Hd; [|reflexivity].
  pose proof (applyDisplacement_position g hm scale thr na ta data Hn Hu Hd) as [H _].
  unfold applyDisplacement in H. now rewrite Hu, Hn, Hd in H.
Qed.

Lemma displacedPosition_skipped data w h scale thr p n t :
  skipped thr p n t -> displacedPosition data w h scale thr p n t = p.
Proof.
  unfold skipped, displacedPosition. intros Hs.
  repeat (destruct (Rlt_dec _ _) || destruct (Rgt_dec _ _)); try reflexivity;
    exfalso; destruct Hs as [?|[?|[?|?]]]; lra.
Qed.

Lemma applyDisplacement_skip_position
    (g : BufferGeometry) (hm : HTMLCanvasElement) (scale thr : R)
    (na : list Vector3) (ta : list Vector2) (i : nat) :
  normal g = Some na -> uv g = Some ta ->
  skipped thr (getV3 (position g) i) (getV3 na i) (getV2 ta i) ->
  getV3 (position (applyDisplacement g hm scale thr)) i = getV3 (position g) i.
Proof.
  intros Hn Hu Hs.
  destruct (decide (i < List.length (position g))%nat) as [Hi|Hi].
  - destruct (getImageData hm) as [data|] eqn:Hd.
    + destruct (applyDisplacement_position g hm scale thr na ta data Hn Hu Hd) as [_ H].
      rewrite H by exact Hi. now apply displacedPosition_skipped.
    + unfold applyDisplacement. now rewrite Hn, Hu, Hd.
  - rewrite !getV3_beyond; [reflexivity|lia|rewrite applyDisplacement_length; lia].
Qed.

(** C2. Whenever a skip rule fires for a vertex (planar radius below the
    threshold, normal's |y| above 0.5, or v below 0.05 or above 0.95),
    applyDisplacement leaves that vertex's position exactly as it was:
    for every geometry, heightmap, displacement scale and threshold. *)
Theorem applyDisplacement_skip_keeps_position
    (g : BufferGeometry) (hm : HTMLCanvasElement) (scale thr : R)
    (na : list Vector3) (ta : list Vector2) (i : nat) :
  normal g = Some na -> uv g = Some ta ->
  skipped thr (getV3 (position g) i) (getV3 na i) (getV2 ta i) ->
  getV3 (position (applyDisplacement g hm scale thr)) i = getV3 (position g) i.
Proof. apply applyDisplacement_skip_position. Qed.

Lemma applyDisplacement_skip_keeps_position_witness :
  getV3 (position (applyDisplacement
           (oneVertex (mkV3 20 0 0) (mkV3 1 0 0) (mkV2 0 0.01))
           (mkCanvas 1 1 [255; 255; 255; 255]%Z true) 0.4 13.5)) 0
  = mkV3 20 0 0.
Proof.
  apply (applyDisplacement_skip_keeps_position
           (oneVertex (mkV3 20 0 0) (mkV3 1 0 0) (mkV2 0 0.01))
           (mkCanvas 1 1 [255; 255; 255; 255]%Z true) 0.4 13.5
           [mkV3 1 0 0] [mkV2 0 0.01] 0%nat);
    [reflexivity | reflexivity |].
  right; right; left. simpl. lra.
Defined.

(** ** The transfer function *)

Lemma heightValue_range (raw : R) : 0 <= heightValue raw <= 1.
Proof.
  unfold heightValue, Math.min, Math.max.
  destruct (Rgt_dec raw 0.40); [|lra].
  set (t := Rmin (Rmax ((raw - 0.40) / (0.60 - 0.40)) 0) 1).
  assert (Ht : 0 <= t <= 1).
  { subst t. split.
    - apply Rmin_glb; [apply Rmax_r | lra].
    - apply Rmin_r. }
  split.
  - apply Rmult_le_pos; [apply Rmult_le_pos; lra | lra].
  - assert (Hsq : 0 <= (1 - t) * (1 - t) * (1 + 2 * t)).
    { apply Rmult_le_pos; [apply Rmult_le_pos; lra | lra]. }
    replace (t * t * (3 - 2 * t)) with (1 - (1 - t) * (1 - t) * (1 + 2 * t)) by ring.
    lra.
Qed.

(** C3. The weight applyDisplacement derives from a sampled intensity in
    [0,1] is the Hermite smoothstep over the band [0.40, 0.60]: 0 up to
    0.40, 1 from 0.60 on, and t^2 (3 - 2t) with t = (intensity - 0.40) / 0.20
    strictly in between. *)
Theorem heightValue_smoothstep (intensity : R) :
  0 <= intensity <= 1 ->
  (intensity <= 0.40 -> heightValue intensity = 0) /\
  (0.60 <= intensity -> heightValue intensity = 1) /\
  (0.40 < intensity < 0.60 ->
   let t := (intensity - 0.40) / 0.20 in
   heightValue intensity = t * t * (3 - 2 * t)).
Proof.
  intros Hrange. unfold heightValue, Math.min, Math.max.
  split; [|split].
  - intros Hlo. destruct (Rgt_dec intensity 0.40); [lra | reflexivity].
  - intros Hhi. destruct (Rgt_dec intensity 0.40); [|lra].
    assert (Hq : 1 <= (intensity - 0.40) / (0.60 - 0.40)).
    { apply Rmult_le_reg_r with (0.60 - 0.40); [lra|].
      unfold Rdiv. rewrite Rmult_assoc, Rinv_l by lra. lra. }
    rewrite Rmax_left by lra. rewrite Rmin_right by lra. lra.
  - intros [Hlo Hhi]. destruct (Rgt_dec intensity 0.40); [|lra].
    replace (0.60 - 0.40) with 0.20 by lra.
    set (t := (intensity - 0.40) / 0.20).
    assert (Ht : 0 < t < 1).
    { subst t. split.
      - apply Rdiv_lt_0_compat; lra.
      - apply Rmult_lt_reg_r with 0.20; [lra|].
        unfold Rdiv. rewrite Rmult_assoc, Rinv_l by lra. lra. }
    rewrite Rmax_left by lra. rewrite Rmin_left by lra. reflexivity.
Qed.

Lemma heightValue_smoothstep_witness :
  heightValue 0.5 = (0.5 - 0.40) / 0.20 * ((0.5 - 0.40) / 0.20)
                    * (3 - 2 * ((0.5 - 0.40) / 0.20)).
Proof.
  assert (Hr : 0 <= 0.5 <= 1) by lra.
  destruct (heightValue_smoothstep 0.5 Hr) as [_ [_ H]].
  apply H. lra.
Defined.

(** The first revision ramped linearly over the same band; it agrees with
    the smoothstep at both ends of the band and differs inside it. *)
Lemma heightValue_rev1_linear (raw : R) :
  0.40 < raw < 0.60 -> heightValue_rev1 raw = (raw - 0.40) / 0.20.
Proof.
  intros [Hlo Hhi]. unfold heightValue_rev1.
  destruct (Rgt_dec raw 0.40); [|lra].
  replace (0.60 - 0.40) with 0.20 by lra.
  destruct (Rgt_dec ((raw - 0.40) / 0.20) 1.0) as [Hgt|_]; [|reflexivity].
  exfalso. apply Rmult_gt_compat_r with (r := 0.20) in Hgt; [|lra].
  unfold Rdiv in Hgt. rewrite Rmult_assoc, Rinv_l in Hgt by lra. lra.
Qed.

(** ** How far a vertex moves *)

Lemma distanceTo_self (p : Vector3) : Vector3Ops.distanceTo p p = 0.
Proof.
  unfold Vector3Ops.distanceTo, Vector3Ops.length, Vector3Ops.sub. simpl.
  replace ((vx p - vx p) * (vx p - vx p) + (vy p - vy p) * (vy p - vy p)
           + (vz p - vz p) * (vz p - vz p)) with 0 by ring.
  apply sqrt_0.
Qed.

Lemma distanceTo_addScaledVector (p n : Vector3) (k : R) :
  Vector3Ops.distanceTo (Vector3Ops.addScaledVector p n k) p
  = Rabs k * Vector3Ops.length n.
Proof.
  unfold Vector3Ops.distanceTo, Vector3Ops.length, Vector3Ops.sub,
    Vector3Ops.addScaledVector. simpl.
  replace ((vx p + vx n * k - vx p) * (vx p + vx n * k - vx p)
           + (vy p + vy n * k - vy p) * (vy p + vy n * k - vy p)
           + (vz p + vz n * k - vz p) * (vz p + vz n * k - vz p))
    with (Rsqr k * (vx n * vx n + vy n * vy n + vz n * vz n))
    by (unfold Rsqr; ring).
  rewrite sqrt_mult; [now rewrite sqrt_Rsqr_abs | apply Rle_0_sqr |].
  pose proof (Rle_0_sqr (vx n)). pose proof (Rle_0_sqr (vy n)).
  pose proof (Rle_0_sqr (vz n)). unfold Rsqr in *. lra.
Qed.

Lemma vertexWeight_range data w h thr p n t :
  0 <= vertexWeight data w h thr p n t <= 1.
Proof.
  unfold vertexWeight.
  repeat (destruct (Rlt_dec _ _) || destruct (Rgt_dec _ _));
    try lra; apply heightValue_range.
Qed.

Lemma displacedPosition_distance data w h scale thr p n t :
  Vector3Ops.length n = 1 ->
  Vector3Ops.distanceTo (displacedPosition data w h scale thr p n t) p
  = vertexWeight data w h thr p n t * Rabs scale.
Proof.
  intros Hunit. unfold displacedPosition, vertexWeight.
  destruct (Rlt_dec (planarRadius p) thr); [rewrite distanceTo_self; ring|].
  destruct (Rgt_dec (Math.abs (vy n)) 0.5); [rewrite distanceTo_self; ring|].
  destruct (Rlt_dec (uy t) 0.05); [rewrite distanceTo_self; ring|].
  destruct (Rgt_dec (uy t) 0.95); [rewrite distanceTo_self; ring|].
  pose proof (heightValue_range (rawHeightAt data w h (ux t) (uy t))) as Hr.
  set (hv := heightValue (rawHeightAt data w h (ux t) (uy t))) in *.
  destruct (Rgt_dec hv 0) as [Hpos|Hzero].
  - rewrite distanceTo_addScaledVector, Hunit, Rabs_mult.
    rewrite (Rabs_pos_eq hv) by lra. ring.
  - rewrite distanceTo_self. replace hv with 0 by lra. ring.
Qed.

(** C4. A vertex whose stored normal has unit length moves by exactly
    weight * |displacementScale|, where the weight lies in [0,1]; so with
    the scale at plus or minus embossDepth no vertex moves farther than
    embossDepth. *)
Theorem applyDisplacement_moves_by_weight
    (g : BufferGeometry) (hm : HTMLCanvasElement) (scale thr : R)
    (na : list Vector3) (ta : list Vector2) (i : nat) :
  normal g = Some na -> uv g = Some ta ->
  (i < List.length (position g))%nat ->
  Vector3Ops.length (getV3 na i) = 1 ->
  Vector3Ops.distanceTo (getV3 (position (applyDisplacement g hm scale thr)) i)
                        (getV3 (position g) i)
    = weightOf g hm thr i * Rabs scale /\
  0 <= weightOf g hm thr i <= 1 /\
  forall embossDepth, 0 <= embossDepth ->
    scale = embossDepth \/ scale = - embossDepth ->
    Vector3Ops.distanceTo (getV3 (position (applyDisplacement g hm scale thr)) i)
                          (getV3 (position g) i) <= embossDepth.
Proof.
  intros Hn Hu Hi Hunit.
  assert (Hw : 0 <= weightOf g hm thr i <= 1).
  { unfold weightOf. rewrite Hu, Hn.
    destruct (getImageData hm); [apply vertexWeight_range | lra]. }
  assert (Hd : Vector3Ops.distanceTo
                 (getV3 (position (applyDisplacement g hm scale thr)) i)
                 (getV3 (position g) i) = weightOf g hm thr i * Rabs scale).
  { unfold weightOf. rewrite Hu, Hn.
    destruct (getImageData hm) as [data|] eqn:Hdata.
    - destruct (applyDisplacement_position g hm scale thr na ta data Hn Hu Hdata)
        as [_ Hget].
      rewrite Hget by exact Hi. now apply displacedPosition_distance.
    - unfold applyDisplacement. rewrite Hu, Hn, Hdata.
      rewrite distanceTo_self. ring. }
  split; [exact Hd|]. split; [exact Hw|].
  intros d Hd0 Hscale. rewrite Hd.
  assert (Habs : Rabs scale = d).
  { destruct Hscale as [->| ->]; [|rewrite Rabs_Ropp]; now apply Rabs_pos_eq. }
  rewrite Habs. nra.
Qed.

Lemma unit_x_length : Vector3Ops.length (mkV3 1 0 0) = 1.
Proof.
  unfold Vector3Ops.length. simpl.
  replace (1 * 1 + 0 * 0 + 0 * 0) with 1 by ring. apply sqrt_1.
Qed.

Lemma applyDisplacement_moves_by_weight_witness :
  let g := oneVertex (mkV3 20 0 0) (mkV3 1 0 0) (mkV2 0 0.5) in
  let hm := mkCanvas 1 2 [0; 0; 0; 255; 255; 255; 255; 255]%Z true in
  Vector3Ops.length (mkV3 1 0 0) = 1 /\
  Vector3Ops.distanceTo (getV3 (position (applyDisplacement g hm 0.4 13.5)) 0)
                        (getV3 (position g) 0) <= 0.4.
Proof.
  intros g hm. split; [exact unit_x_length|].
  destruct (applyDisplacement_moves_by_weight g hm 0.4 13.5
              [mkV3 1 0 0] [mkV2 0 0.5] 0%nat) as [_ [_ H]];
    [reflexivity | reflexivity | simpl; lia | exact unit_x_length |].
  apply H; [lra | now left].
Defined.

(** ** Pushing a vertex towards the axis *)



(** *** A concrete vertex *)

Lemma floor_between (z : Z) (r : R) : IZR z <= r < IZR z + 1 -> Math.floor r = z.
Proof. intros H. unfold Math.floor. symmetry. apply Int_part_spec. lra. Qed.

Lemma twoRowCanvas_white (u : R) : 0 <= u < 1 ->
  rawHeightAt (bitmap twoRowCanvas) 1 2 u 0.5 = 1.
Proof.
  intros Hu. unfold rawHeightAt, pixelIndex. cbn [Z.eqb orb].
  rewrite (floor_between 0 (u * IZR 1)) by (simpl; lra).
  rewrite (floor_between 1 (0.5 * IZR 2)) by (simpl; lra).
  match goal with
  | |- IZR ?z / _ = _ => replace z with 255%Z by (vm_compute; reflexivity)
  end.
  lra.
Qed.

Lemma planarRadius_on_x (x : R) : 0 <= x -> planarRadius (mkV3 x 0 0) = x.
Proof.
  intros Hx. unfold planarRadius. simpl.
  replace (x * x + 0 * 0) with (x * x) by ring. now apply sqrt_square.
Qed.

Lemma heightValue_one : heightValue 1 = 1.
Proof.
  assert (Hr : 0 <= 1 <= 1) by lra.
  destruct (heightValue_smoothstep 1 Hr) as [_ [H _]]. apply H. lra.
Qed.

Lemma shellVertex_weight (x thr : R) :
  0 <= x -> thr <= x ->
  weightOf (oneVertex (mkV3 x 0 0) (mkV3 1 0 0) (mkV2 0 0.5)) twoRowCanvas thr 0 = 1.
Proof.
  intros Hx Hthr. unfold weightOf, oneVertex. cbn -[twoRowCanvas].
  unfold vertexWeight. rewrite planarRadius_on_x by exact Hx.
  destruct (Rlt_dec x thr); [lra|].
  cbn -[twoRowCanvas]. unfold Math.abs. rewrite Rabs_R0.
  destruct (Rgt_dec 0 0.5); [lra|].
  destruct (Rlt_dec 0.5 0.05); [lra|].
  destruct (Rgt_dec 0.5 0.95); [lra|].
  change (getImageData twoRowCanvas) with (Some (bitmap twoRowCanvas)).
  cbv iota. rewrite twoRowCanvas_white by lra. apply heightValue_one.
Qed.

(** ** buildCylinderGeometry: the UV loop *)

Section UvLoop.

Variables (radius height : R) (pos : list Vector3).

Local Abbreviation step := (shellUv radius height pos).
Local Abbreviation target uvs j :=
  (if Rgt_dec (planarRadius (getV3 pos j)) (radius * 0.8)
   then cylindricalUv height (getV3 pos j)
   else getV2 uvs j).

Lemma shellUv_length (uvs : list Vector2) (i : nat) :
  List.length (step uvs i) = List.length uvs.
Proof.
  unfold shellUv, setXY.
  destruct (Rgt_dec _ _); [apply length_insert | reflexivity].
Qed.

Lemma shellUv_get (uvs : list Vector2) (i j : nat) :
  (i < List.length uvs)%nat ->
  getV2 (step uvs i) j = if decide (i = j) then target uvs j else getV2 uvs j.
Proof.
  intros Hi. unfold shellUv, setXY, planarRadius, cylindricalUv.
  destruct (decide (i = j)) as [->|Hne].
  - destruct (Rgt_dec _ _); [|reflexivity].
    rewrite getV2_insert by exact Hi. now rewrite decide_True.
  - destruct (Rgt_dec _ _); [|reflexivity].
    rewrite getV2_insert by exact Hi. now rewrite decide_False.
Qed.

Lemma shellUv_loop (idxs : list nat) :
  NoDup idxs ->
  forall uvs : list Vector2,
    (forall i, i ∈ idxs -> (i < List.length uvs)%nat) ->
    List.length (fold_left step idxs uvs) = List.length uvs /\
    forall j, getV2 (fold_left step idxs uvs) j =
              if decide (j ∈ idxs) then target uvs j else getV2 uvs j.
Proof.
  induction 1 as [|i idxs Hnotin Hnd IH]; intros uvs Hin; simpl.
  - split; [reflexivity|]. intros j.
    destruct (decide (j ∈ [])) as [Hj|_]; [inversion Hj | reflexivity].
  - assert (Hi : (i < List.length uvs)%nat) by (apply Hin; left).
    destruct (IH (step uvs i)) as [Hlen Hget].
    { intros k Hk. rewrite shellUv_length. apply Hin. now right. }
    split; [now rewrite Hlen, shellUv_length|].
    intros j. rewrite Hget.
    destruct (decide (j ∈ idxs)) as [Hj|Hj].
    + assert (Hne : i <> j) by (intros ->; contradiction).
      rewrite decide_True by now right.
      rewrite shellUv_get by exact Hi.
      now rewrite decide_False.
    + rewrite shellUv_get by exact Hi.
      destruct (decide (i = j)) as [->|Hne].
      * rewrite decide_True by left. reflexivity.
      * rewrite decide_False; [reflexivity|].
        intros Hj'. apply elem_of_cons in Hj' as [->|Hj']; contradiction.
Qed.

End UvLoop.

Section BuildFacts.

Variable extrude : Shape -> ExtrudeSettings -> list (Vector3 * Vector3 * Vector2).

Lemma uprightGeometry_attributes (radius height : R) :
  exists na ta,
    normal (uprightGeometry extrude radius height) = Some na /\
    uv (uprightGeometry extrude radius height) = Some ta /\
    index (uprightGeometry extrude radius height) = None /\
    List.length na = List.length (position (uprightGeometry extrude radius height)) /\
    List.length ta = List.length (position (uprightGeometry extrude radius height)).
Proof.
  unfold uprightGeometry, THREE.rotateX, THREE.center, ExtrudeGeometry, withPosition.
  cbn [position normal uv index option_map].
  eexists _, _. repeat split; rewrite ?length_map; reflexivity.
Qed.

Lemma shellGeometry_position (radius height : R) :
  position (shellGeometry extrude radius height)
  = position (uprightGeometry extrude radius height).
Proof.
  unfold shellGeometry, assignShellUvs.
  now destruct (uv (uprightGeometry extrude radius height)).
Qed.

(** C5. After the extruded solid has been centred and turned upright,
    the UV loop gives every vertex with planar radius r > 0.8 * radius the
    cylindrical coordinates u = atan2(x,z)/(2 pi) + 0.5 and
    v = (y + height/2) / height, and leaves the UVs of every vertex with
    r <= 0.8 * radius as the extruder assigned them; positions are not
    changed. *)
Theorem shell_uv_assignment (radius height : R) (i : nat) :
  (i < List.length (position (uprightGeometry extrude radius height)))%nat ->
  exists before after : list Vector2,
    uv (uprightGeometry extrude radius height) = Some before /\
    uv (shellGeometry extrude radius height) = Some after /\
    position (shellGeometry extrude radius height)
      = position (uprightGeometry extrude radius height) /\
    let p := getV3 (position (uprightGeometry extrude radius height)) i in
    (planarRadius p > 0.8 * radius ->
     getV2 after i = mkV2 (atan2 (vx p) (vz p) / (2 * PI) + 0.5)
                          ((vy p + height / 2) / height)) /\
    (planarRadius p <= 0.8 * radius -> getV2 after i = getV2 before i).
Proof.
  intros Hi.
  destruct (uprightGeometry_attributes radius height)
    as (na & ta & Hn & Hu & Hidx & Hlna & Hlta).
  destruct (shellUv_loop radius height
              (position (uprightGeometry extrude radius height))
              (seq 0 (List.length (position (uprightGeometry extrude radius height))))
              (NoDup_seq _ _) ta) as [Hlen Hget].
  { intros k Hk. apply elem_of_seq in Hk. lia. }
  exists ta. eexists. split; [exact Hu|]. split.
  { unfold shellGeometry, assignShellUvs. rewrite Hu. reflexivity. }
  split; [apply shellGeometry_position|].
  cbv zeta. rewrite Hget. rewrite decide_True by (apply elem_of_seq; lia).
  split; intros Hr.
  - destruct (Rgt_dec _ _) as [_|Hno]; [reflexivity | exfalso; apply Hno; lra].
  - destruct (Rgt_dec _ _) as [Hyes|_]; [lra | reflexivity].
Qed.

End BuildFacts.

(** ** buildCylinderGeometry: the plug *)

Lemma box_positions_explicit (w h d : R) :
  position (THREE.toNonIndexed (THREE.BoxGeometry w h d))
  = map (getV3 (map (fun v => fst (fst v)) (THREE.boxVertices w h d))) THREE.boxIndices.
Proof. reflexivity. Qed.

Ltac box_unfold :=
  rewrite box_positions_explicit;
  unfold THREE.boxVertices, THREE.buildPlane, THREE.boxIndices;
  cbn [map flat_map seq app getV3 nth fst snd Nat.mul Nat.add].

Lemma box_corners (w h d : R) :
  Forall (boxCorner w h d) (position (THREE.toNonIndexed (THREE.BoxGeometry w h d))).
Proof.
  box_unfold.
  repeat (apply Forall_cons; split;
          [unfold boxCorner; cbn [vx vy vz];
           repeat split; first [left; lra | right; lra] |]).
  constructor.
Qed.

Lemma box_all_corners (w h d : R) (sx sy sz : bool) :
  Exists (fun p => vx p = sign sx * (w / 2) /\ vy p = sign sy * (h / 2) /\
                   vz p = sign sz * (d / 2))
         (position (THREE.toNonIndexed (THREE.BoxGeometry w h d))).
Proof.
  box_unfold.
  destruct sx, sy, sz; unfold sign;
    repeat first
      [ apply Exists_cons_hd; cbn [vx vy vz]; repeat split; lra
      | apply Exists_cons_tl ].
Qed.

Lemma box_vertex_count (w h d : R) :
  List.length (position (THREE.toNonIndexed (THREE.BoxGeometry w h d))) = 36%nat.
Proof. reflexivity. Qed.

Section PlugFacts.

Variable extrude : Shape -> ExtrudeSettings -> list (Vector3 * Vector3 * Vector2).

(** [mergeGeometries] never gives [null] here: both operands are triangle
    soups with position, normal and uv. *)
Lemma buildCylinderGeometry_merged (radius height depthOffset : R) :
  exists na ta,
    buildCylinderGeometry extrude radius height depthOffset
    = Some (mkGeometry (position (shellGeometry extrude radius height)
                          ++ plugPositions height)
                       (Some na) (Some ta) None).
Proof.
  destruct (uprightGeometry_attributes extrude radius height)
    as (na & ta & Hn & Hu & Hidx & _ & _).
  unfold buildCylinderGeometry, plugPositions, shellGeometry, assignShellUvs.
  rewrite Hu.
  destruct (uprightGeometry extrude radius height) as [pos nrm uvs idx].
  cbn in Hn, Hu, Hidx. subst nrm uvs idx.
  unfold withUv. cbn [position normal uv index].
  eexists _, _. reflexivity.
Qed.

Lemma plugHeight_floor (height : R) : 0.1 <= plugHeight height.
Proof. unfold plugHeight, Math.max. apply Rmax_l. Qed.

(** C10. The plug merged into the solid is the box of cross-section
    15 x 15 and height max(0.1, h - 30): the merged soup is the shell
    followed by the plug's 36 vertices, each on a lateral edge of that
    box, with all eight corners present; the plug height is at least 0.1,
    hence positive, also when h <= 30 and h - 30 is zero or negative. *)
Theorem plug_is_clamped_box (radius height : R) :
  exists merged,
    buildCylinderGeometry extrude radius height 0 = Some merged /\
    position merged
      = position (shellGeometry extrude radius height) ++ plugPositions height /\
    plugGeometry height = THREE.BoxGeometry 15 (Rmax 0.1 (height - 30)) 15 /\
    List.length (plugPositions height) = 36%nat /\
    Forall (boxCorner 15 (Rmax 0.1 (height - 30)) 15) (plugPositions height) /\
    (forall sx sy sz : bool,
       Exists (fun p => vx p = sign sx * 7.5 /\
                        vy p = sign sy * (Rmax 0.1 (height - 30) / 2) /\
                        vz p = sign sz * 7.5)
              (plugPositions height)) /\
    0.1 <= plugHeight height /\ 0 < plugHeight height /\
    (height <= 30 -> height - 30 <= 0 /\ plugHeight height = 0.1).
Proof.
  destruct (buildCylinderGeometry_merged radius height 0) as (na & ta & Hb).
  eexists. split; [exact Hb|]. split; [reflexivity|]. split; [reflexivity|].
  split; [apply box_vertex_count|]. split; [apply box_corners|].
  split.
  { intros sx sy sz.
    pose proof (box_all_corners 15 (Rmax 0.1 (height - 30)) 15 sx sy sz) as H.
    replace 7.5 with (15 / 2) by lra. exact H. }
  pose proof (plugHeight_floor height) as Hfloor.
  split; [exact Hfloor|]. split; [lra|].
  intros Hh. split; [lra|].
  unfold plugHeight, Math.max. apply Rmax_left. lra.
Qed.

End PlugFacts.

(** ** The plug under displacement *)

Lemma getV3_drop (l : list Vector3) (k n : nat) :
  getV3 (drop k l) n = getV3 l (k + n).
Proof. unfold getV3. now rewrite !nth_lookup, lookup_drop. Qed.

Lemma getV3_app_r (a b : list Vector3) (n : nat) :
  getV3 (a ++ b) (List.length a + n) = getV3 b n.
Proof.
  unfold getV3. rewrite !nth_lookup, lookup_app_r by lia.
  now replace (List.length a + n - List.length a)%nat with n by lia.
Qed.

(** Vertices appended to a geometry that all lie within the radius
    threshold come out of applyDisplacement as they went in. *)
Lemma appended_inner_vertices_untouched
    (shell inner : list Vector3) (na : option (list Vector3))
    (ta : option (list Vector2)) (idx : option (list nat))
    (canvas : HTMLCanvasElement) (scale thr : R) :
  Forall (fun p => planarRadius p < thr) inner ->
  drop (List.length shell)
       (position (applyDisplacement (mkGeometry (shell ++ inner) na ta idx)
                                    canvas scale thr))
  = inner.
Proof.
  intros Hin.
  set (g := mkGeometry (shell ++ inner) na ta idx).
  pose proof (applyDisplacement_length g canvas scale thr) as Hlen.
  cbn [g position] in Hlen. rewrite length_app in Hlen.
  apply (nth_ext _ _ zero3 zero3).
  - rewrite length_drop, Hlen. lia.
  - intros n Hn. rewrite length_drop, Hlen in Hn.
    assert (Hn' : (n < List.length inner)%nat) by lia.
    change (getV3 (drop (List.length shell)
                     (position (applyDisplacement g canvas scale thr))) n
            = getV3 inner n).
    rewrite getV3_drop.
    assert (Hsame : getV3 (position (applyDisplacement g canvas scale thr))
                      (List.length shell + n)
                    = getV3 (position g) (List.length shell + n)).
    { destruct na as [na|]; [|unfold applyDisplacement; cbn;
                               now destruct ta].
      destruct ta as [ta|]; [|reflexivity].
      apply (applyDisplacement_skip_position g canvas scale thr na ta);
        [reflexivity | reflexivity |].
      left. cbn [g position]. rewrite getV3_app_r.
      rewrite Forall_forall in Hin. apply Hin.
      unfold getV3. apply list_elem_of_In, nth_In. exact Hn'. }
    rewrite Hsame. cbn [g position]. apply getV3_app_r.
Qed.

Lemma plug_vertex_radius (h : R) (p : Vector3) :
  boxCorner 15 h 15 p ->
  planarRadius p = 7.5 * sqrt 2 /\ planarRadius p < 13.5.
Proof.
  intros (Hx & _ & Hz).
  assert (Hxx : vx p * vx p = 7.5 * 7.5) by (destruct Hx as [-> | ->]; lra).
  assert (Hzz : vz p * vz p = 7.5 * 7.5) by (destruct Hz as [-> | ->]; lra).
  unfold planarRadius. rewrite Hxx, Hzz. split.
  - replace (7.5 * 7.5 + 7.5 * 7.5) with (7.5 * 7.5 * 2) by lra.
    rewrite sqrt_mult by lra. rewrite sqrt_square by lra. reflexivity.
  - rewrite <- (sqrt_square 13.5) by lra.
    apply sqrt_lt_1_alt. lra.
Qed.

Section Scenario.

Variable extrude : Shape -> ExtrudeSettings -> list (Vector3 * Vector3 * Vector2).

Lemma plug_survives (radius height scale thr : R) (canvas : HTMLCanvasElement) :
  13.5 <= thr ->
  exists built,
    buildCylinderGeometry extrude radius height 0 = Some built /\
    drop (List.length (position (shellGeometry extrude radius height)))
         (position (applyDisplacement built canvas scale thr))
    = plugPositions height.
Proof.
  intros Hthr.
  destruct (buildCylinderGeometry_merged extrude radius height 0) as (na & ta & Hb).
  eexists. split; [exact Hb|].
  apply appended_inner_vertices_untouched.
  eapply Forall_impl; [apply box_corners|].
  intros p Hp. cbv beta. apply plug_vertex_radius in Hp. lra.
Qed.

(** C6. With radius 15 the thresholds handed to applyDisplacement are
    13.5 for the positive mesh and 0.9 * (15 + embossDepth) >= 13.5 for
    the negative one; every plug vertex has planar radius
    7.5 * sqrt 2 < 13.5, so the radius rule skips it, and in both meshes
    the plug comes out as built: vertices on the lateral edges of the
    15 x 15 prism. *)
Theorem plug_untouched_at_radius_15
    (config : AppState.t) (canvas : HTMLCanvasElement) :
  let d := AppState.embossDepth config in
  let h := AppState.cylinderHeight config in
  AppState.cylinderRadius config = 15 -> 0 <= d ->
  AppState.cylinderRadius config * 0.9 = 13.5 /\
  13.5 <= (AppState.cylinderRadius config + d) * 0.9 /\
  Forall (fun p => boxCorner 15 (plugHeight h) 15 p /\
                   planarRadius p = 7.5 * sqrt 2 /\ planarRadius p < 13.5)
         (plugPositions h) /\
  exists posGeo negGeo,
    positiveGeometry extrude config canvas = Some posGeo /\
    negativeGeometry extrude config canvas = Some negGeo /\
    drop (List.length (position (shellGeometry extrude 15 h))) (position posGeo)
      = plugPositions h /\
    drop (List.length (position (shellGeometry extrude (15 + d) h))) (position negGeo)
      = plugPositions h.
Proof.
  intros d h HR Hd.
  split; [rewrite HR; lra|]. split; [rewrite HR; lra|]. split.
  { eapply Forall_impl; [apply box_corners|].
    intros p Hp. cbv beta. split; [exact Hp|]. now apply plug_vertex_radius in Hp. }
  unfold positiveGeometry, negativeGeometry. fold d h. rewrite HR.
  destruct (plug_survives 15 h d (15 * 0.9) canvas) as (pg & Hpg & Hpd); [lra|].
  destruct (plug_survives (15 + d) h (- d) ((15 + d) * 0.9) canvas)
    as (ng & Hng & Hnd); [lra|].
  rewrite Hpg, Hng. eexists _, _.
  split; [reflexivity|]. split; [reflexivity|]. split; assumption.
Qed.

End Scenario.

Lemma plug_untouched_at_radius_15_witness :
  AppState.cylinderRadius scenario = 15 /\ 0 <= AppState.embossDepth scenario /\
  AppState.cylinderRadius scenario * 0.9 = 13.5.
Proof.
  assert (HR : AppState.cylinderRadius scenario = 15) by reflexivity.
  assert (Hd : 0 <= AppState.embossDepth scenario) by (simpl; lra).
  split; [exact HR|]. split; [exact Hd|].
  exact (proj1 (plug_untouched_at_radius_15 (fun _ _ => []) scenario twoRowCanvas HR Hd)).
Defined.

(** ** The geometry effect: cancellation and commits *)

Section OrchestratorFacts.

Variable extrude : Shape -> ExtrudeSettings -> list (Vector3 * Vector3 * Vector2).
Variable heightMapOf :
  PatternKind -> string -> Z -> Z -> HeightMapOptions -> Promise HTMLCanvasElement.

Local Abbreviation react := (handle extrude heightMapOf).
Local Abbreviation replay := (run extrude heightMapOf).
Local Abbreviation awaited := (requestHeightMap heightMapOf).

Lemma positiveGeometry_some (c : AppState.t) (canvas : HTMLCanvasElement) :
  exists posGeo, positiveGeometry extrude c canvas = Some posGeo.
Proof.
  unfold positiveGeometry.
  destruct (buildCylinderGeometry_merged extrude (AppState.cylinderRadius c)
              (AppState.cylinderHeight c) 0) as (na & ta & ->).
  eexists. reflexivity.
Qed.

Lemma negativeGeometry_some (c : AppState.t) (canvas : HTMLCanvasElement) :
  exists negGeo, negativeGeometry extrude c canvas = Some negGeo.
Proof.
  unfold negativeGeometry.
  destruct (buildCylinderGeometry_merged extrude
              (AppState.cylinderRadius c + AppState.embossDepth c)
              (AppState.cylinderHeight c) 0) as (na & ta & ->).
  eexists. reflexivity.
Qed.

(** What a completed, uncancelled run leaves behind. *)
Lemma updateGeometry_resume_live (id : nat) (e : Effect) (canvas : HTMLCanvasElement)
    (w : World) :
  isCancelled e = false ->
  exists posGeo negGeo,
    positiveGeometry extrude (config e) canvas = Some posGeo /\
    negativeGeometry extrude (config e) canvas = Some negGeo /\
    updateGeometry_resume extrude id e canvas w
    = mkWorld (appConfig w) (exportFn w) false (Some (id, posGeo))
              (Some (id, negGeo)) (effects w) (shown w).
Proof.
  intros Hlive.
  destruct (positiveGeometry_some (config e) canvas) as [pg Hpg].
  destruct (negativeGeometry_some (config e) canvas) as [ng Hng].
  exists pg, ng. split; [exact Hpg|]. split; [exact Hng|].
  unfold updateGeometry_resume. rewrite Hpg, Hng, Hlive. reflexivity.
Qed.

Lemma initialWorld_consistent : Consistent initialWorld.
Proof.
  constructor; cbn; try congruence; try tauto.
  - intros id e H. now rewrite lookup_nil in H.
  - intros id e H. now rewrite lookup_nil in H.
Qed.

Lemma setPhase_effects_consistent (w : World) (id : nat) (e : Effect) (p : Phase) :
  Consistent w -> effects w !! id = Some e ->
  Consistent (setEffects (<[id := setPhase p e]> (effects w)) w).
Proof.
  intros [H1 H2 H3 H4 H5 H6] He.
  assert (Hid : (id < List.length (effects w))%nat) by (eapply lookup_lt_Some; eauto).
  assert (Hne : effects w <> []) by (intros E; rewrite E in He; discriminate).
  assert (Hne' : <[id := setPhase p e]> (effects w) <> []).
  { intros E. apply (f_equal List.length) in E.
    rewrite length_insert in E. cbn in E. lia. }
  constructor; cbn [setEffects displayGeoPositive displayGeoNegative isProcessing
                      exportFn effects appConfig shown].
  - exact H1.
  - intros Hp _. now apply H2.
  - intros _. now apply H3.
  - intros E. contradiction.
  - intros k e' Hk Hlt. rewrite length_insert in Hlt.
    destruct (decide (id = k)) as [->|Hneq].
    + rewrite list_lookup_insert_eq in Hk by exact Hid. inversion Hk; subst e'.
      cbn. now apply (H5 k e).
    + rewrite list_lookup_insert_ne in Hk by exact Hneq. now apply (H5 k e').
  - intros k e' Hk Heq. rewrite length_insert in Heq.
    destruct (decide (id = k)) as [->|Hneq].
    + rewrite list_lookup_insert_eq in Hk by exact Hid. inversion Hk; subst e'.
      cbn. now apply (H6 k e).
    + rewrite list_lookup_insert_ne in Hk by exact Hneq. now apply (H6 k e').
Qed.

Lemma runEffect_consistent (w : World) :
  exportFn w = true ->
  cycleOf (displayGeoPositive w) = cycleOf (displayGeoNegative w) ->
  (forall id e, effects w !! id = Some e -> isCancelled e = true) ->
  Consistent (runEffect w).
Proof.
  intros Hex Hsame Hall.
  constructor; cbn [runEffect setEffects setIsProcessing displayGeoPositive
                      displayGeoNegative isProcessing exportFn effects].
  - exact Hsame.
  - discriminate.
  - intros _. exact Hex.
  - intros E. now destruct (effects w).
  - intros id e He Hlt. rewrite length_app in Hlt. cbn in Hlt.
    rewrite lookup_app_l in He by lia. now apply (Hall id e).
  - intros id e He Heq. rewrite length_app in Heq. cbn in Heq.
    rewrite lookup_app_r in He by lia.
    replace (id - List.length (effects w))%nat with 0%nat in He by lia.
    cbn in He. now inversion He.
Qed.

Lemma alter_cleanup_all_cancelled (l : list Effect) :
  (forall id e, l !! id = Some e -> (id + 1 < List.length l)%nat ->
                isCancelled e = true) ->
  forall id e, alter cleanup (List.length l - 1)%nat l !! id = Some e ->
               isCancelled e = true.
Proof.
  intros Hold id e He.
  destruct (decide (id = List.length l - 1)%nat) as [->|Hne].
  - rewrite list_lookup_alter_eq in He.
    destruct (l !! (List.length l - 1)%nat); [|discriminate].
    cbn in He. now inversion He.
  - rewrite list_lookup_alter_ne in He by congruence.
    apply (Hold id e He).
    apply lookup_lt_Some in He. lia.
Qed.

Lemma handle_consistent (w : World) (ev : Event) :
  Consistent w -> Consistent (react w ev).
Proof.
  intros Hw. pose proof Hw as [H1 H2 H3 H4 H5 H6].
  destruct ev as [|c|id|id|]; cbn [handle].
  - (* Mount *)
    destruct (effects w) as [|e0 rest] eqn:Heff; [|exact Hw].
    apply runEffect_consistent; cbn.
    + reflexivity.
    + exact H1.
    + intros id e He. rewrite Heff in He. now rewrite lookup_nil in He.
  - (* ConfigChange *)
    cbn [setAppConfig effects].
    destruct (effects w) as [|e0 rest] eqn:Heff.
    + constructor; cbn; rewrite ?Heff; tauto.
    + apply runEffect_consistent; cbn [setEffects exportFn displayGeoPositive
                                         displayGeoNegative effects].
      * apply H3. discriminate.
      * exact H1.
      * intros id e He.
        apply (alter_cleanup_all_cancelled (e0 :: rest)) with id; [|exact He].
        exact H5.
  - (* TimerFire *)
    destruct (effects w !! id) as [e|] eqn:He; [|exact Hw].
    destruct (phase e); try exact Hw.
    unfold updateGeometry_start. now apply setPhase_effects_consistent.
  - (* HeightMapSettled *)
    destruct (effects w !! id) as [e|] eqn:He; [|exact Hw].
    destruct (phase e); try exact Hw.
    destruct (awaited (config e)) as [canvas| |]; [| |exact Hw].
    + pose proof (setPhase_effects_consistent w id e Returned Hw He) as Hw'.
      destruct (isCancelled e) eqn:Hc;
        [unfold updateGeometry_resume; rewrite Hc; exact Hw'|].
      set (w' := setEffects (<[id := setPhase Returned e]> (effects w)) w) in *.
      destruct (updateGeometry_resume_live id e canvas w' Hc) as (pg & ng & _ & _ & ->).
      destruct Hw' as [K1 K2 K3 K4 K5 K6].
      constructor; cbn [displayGeoPositive displayGeoNegative isProcessing
                          exportFn effects cycleOf option_map fst].
      * reflexivity.
      * intros _ _. discriminate.
      * exact K3.
      * intros E. exfalso. apply (f_equal List.length) in E.
        cbn [w' setEffects effects] in E. rewrite length_insert in E.
        apply lookup_lt_Some in He. cbn in E. lia.
      * exact K5.
      * exact K6.
    + now apply setPhase_effects_consistent.
  - (* ExportClick *)
    constructor; cbn; assumption.
Qed.

Lemma run_consistent (evs : list Event) (w : World) :
  Consistent w -> Consistent (replay evs w).
Proof.
  revert w. induction evs as [|ev evs IH]; intros w Hw; [exact Hw|].
  cbn. apply IH. now apply handle_consistent.
Qed.

(** A cancelled run changes neither display geometry nor the busy flag,
    whichever of its events arrives. *)
Lemma cancelled_run_is_inert (w : World) (id : nat) (e : Effect) (ev : Event) :
  effects w !! id = Some e -> isCancelled e = true ->
  ev = TimerFire id \/ ev = HeightMapSettled id ->
  displayGeoPositive (react w ev) = displayGeoPositive w /\
  displayGeoNegative (react w ev) = displayGeoNegative w /\
  isProcessing (react w ev) = isProcessing w.
Proof.
  intros He Hc [-> | ->]; cbn [handle]; rewrite He.
  - destruct (phase e); auto.
  - destruct (phase e); auto.
    destruct (awaited (config e)); unfold updateGeometry_resume;
      rewrite ?Hc; auto.
Qed.

End OrchestratorFacts.

Section EffectGuarantees.

Variable extrude : Shape -> ExtrudeSettings -> list (Vector3 * Vector3 * Vector2).
Variable heightMapOf :
  PatternKind -> string -> Z -> Z -> HeightMapOptions -> Promise HTMLCanvasElement.

Local Abbreviation react := (handle extrude heightMapOf).
Local Abbreviation replay := (run extrude heightMapOf).
Local Abbreviation awaited := (requestHeightMap heightMapOf).

(** C7. In every state the program can reach: the two displayed meshes
    come from the same run of the effect, never from two different ones; a
    run that has been superseded by a newer one has its cancellation flag
    set and none of its pending events (timer, heightmap arrival) changes
    either displayed mesh; and when the newest run's heightmap arrives,
    both displayed meshes become that run's positive and negative outputs. *)
Theorem superseded_cycle_never_commits (evs : list Event) :
  let w := replay evs initialWorld in
  cycleOf (displayGeoPositive w) = cycleOf (displayGeoNegative w) /\
  (forall A e ev,
     effects w !! A = Some e -> (A + 1 < List.length (effects w))%nat ->
     ev = TimerFire A \/ ev = HeightMapSettled A ->
     isCancelled e = true /\
     displayGeoPositive (react w ev) = displayGeoPositive w /\
     displayGeoNegative (react w ev) = displayGeoNegative w) /\
  (forall B e canvas,
     effects w !! B = Some e -> (B + 1 = List.length (effects w))%nat ->
     phase e = Rasterizing -> awaited (config e) = Resolved canvas ->
     exists posGeo negGeo,
       positiveGeometry extrude (config e) canvas = Some posGeo /\
       negativeGeometry extrude (config e) canvas = Some negGeo /\
       displayGeoPositive (react w (HeightMapSettled B)) = Some (B, posGeo) /\
       displayGeoNegative (react w (HeightMapSettled B)) = Some (B, negGeo)).
Proof.
  intros w.
  pose proof (run_consistent extrude heightMapOf evs initialWorld
                initialWorld_consistent) as Hw.
  fold w in Hw. destruct Hw as [H1 H2 H3 H4 H5 H6].
  split; [exact H1|]. split.
  - intros A e ev He Hlt Hev.
    assert (Hc : isCancelled e = true) by now apply (H5 A e).
    split; [exact Hc|].
    destruct (cancelled_run_is_inert extrude heightMapOf w A e ev He Hc Hev)
      as (Hp & Hn & _).
    now split.
  - intros B e canvas He Hlast Hphase Hcanvas.
    assert (Hc : isCancelled e = false) by now apply (H6 B e).
    cbn [handle]. rewrite He, Hphase, Hcanvas.
    destruct (updateGeometry_resume_live extrude B e canvas
                (setEffects (<[B := setPhase Returned e]> (effects w)) w) Hc)
      as (pg & ng & Hpg & Hng & ->).
    exists pg, ng. repeat split; assumption.
Qed.

Lemma cycleOf_none_iff (a b : option (nat * BufferGeometry)) :
  cycleOf a = cycleOf b -> (a = None <-> b = None).
Proof. destruct a, b; cbn; intros H; split; congruence. Qed.

(** C8. In every reachable state in which no mesh pair has been committed
    yet, an export request runs to an alert: "Please wait for generation
    to complete." while a generation is in progress, "Geometry not ready
    yet." otherwise.  It never downloads and never does nothing: the
    function CylinderObject registers would return silently in such a
    state, but handleExport does not call it there. *)
Theorem export_before_commit_alerts (evs : list Event) :
  let w := replay evs initialWorld in
  displayGeoPositive w = None \/ displayGeoNegative w = None ->
  handleExport w
  = Alerted (if isProcessing w
             then "Please wait for generation to complete."
             else "Geometry not ready yet.")%string /\
  shown (react w ExportClick) = (shown w ++ [handleExport w])%list /\
  exportFunction w = Nothing.
Proof.
  intros w Hnone.
  pose proof (run_consistent extrude heightMapOf evs initialWorld
                initialWorld_consistent) as Hw.
  fold w in Hw. destruct Hw as [H1 H2 H3 H4 H5 H6].
  assert (Hpos : displayGeoPositive w = None).
  { destruct Hnone as [H|H]; [exact H|]. now apply (cycleOf_none_iff _ _ H1). }
  split; [|split; [reflexivity|unfold exportFunction, groupRef; now rewrite Hpos]].
  unfold handleExport.
  destruct (effects w) as [|e0 rest] eqn:Heff.
  - destruct H4 as (-> & -> & _); reflexivity.
  - destruct (isProcessing w) eqn:Hp.
    + now rewrite andb_false_r.
    + exfalso. apply H2; [reflexivity | discriminate | exact Hpos].
Qed.

End EffectGuarantees.

Lemma export_before_commit_alerts_witness :
  let w := run (fun _ _ => []) (fun _ _ _ _ _ => Rejected) [Mount] initialWorld in
  displayGeoPositive w = None /\
  handleExport w = Alerted "Please wait for generation to complete.".
Proof.
  intros w.
  assert (Hnone : displayGeoPositive w = None \/ displayGeoNegative w = None)
    by (left; reflexivity).
  split; [reflexivity|].
  exact (proj1 (export_before_commit_alerts (fun _ _ => [])
                  (fun _ _ _ _ _ => Rejected) [Mount] Hnone)).
Defined.

(** ** The heightmap when no drawing context can be acquired *)

Lemma dataAt_zeros (n : nat) (idx : Z) : dataAt (repeat 0%Z n) idx = 0%Z.
Proof. unfold dataAt. destruct (idx <? 0)%Z; [reflexivity | apply nth_repeat]. Qed.

Lemma rawHeightAt_zeros (n : nat) (w h : Z) (u v : R) :
  rawHeightAt (repeat 0%Z n) w h u v = 0.
Proof.
  unfold rawHeightAt. destruct (pixelIndex w h u v); [|reflexivity].
  rewrite dataAt_zeros. lra.
Qed.

Lemma heightValue_zero : heightValue 0 = 0.
Proof. unfold heightValue. destruct (Rgt_dec 0 0.40); [lra | reflexivity]. Qed.

Lemma displacedPosition_background data w h scale thr p n t :
  rawHeightAt data w h (ux t) (uy t) = 0 ->
  displacedPosition data w h scale thr p n t = p.
Proof.
  intros Hraw. unfold displacedPosition. rewrite Hraw, heightValue_zero.
  repeat (destruct (Rlt_dec _ _) || destruct (Rgt_dec _ _)); try reflexivity; lra.
Qed.

(** An all-zero heightmap displaces nothing. *)
Lemma applyDisplacement_background (g : BufferGeometry) (w h : Z) (n : nat)
    (ok : bool) (scale thr : R) :
  position (applyDisplacement g (mkCanvas w h (repeat 0%Z n) ok) scale thr)
  = position g.
Proof.
  set (c := mkCanvas w h (repeat 0%Z n) ok).
  destruct (uv g) as [ta|] eqn:Hu;
    [|unfold applyDisplacement; now rewrite Hu].
  destruct (normal g) as [na|] eqn:Hn;
    [|unfold applyDisplacement; now rewrite Hu, Hn].
  destruct (getImageData c) as [data|] eqn:Hd;
    [|unfold applyDisplacement; now rewrite Hu, Hn, Hd].
  assert (Hdata : data = repeat 0%Z n).
  { unfold getImageData, c in Hd. cbn in Hd. destruct ok; congruence. }
  destruct (applyDisplacement_position g c scale thr na ta data Hn Hu Hd)
    as [Hlen Hget].
  apply (nth_ext _ _ zero3 zero3); [exact Hlen|].
  intros i Hi. rewrite Hlen in Hi.
  change (getV3 (position (applyDisplacement g c scale thr)) i
          = getV3 (position g) i).
  rewrite Hget by exact Hi. apply displacedPosition_background.
  rewrite Hdata. apply rawHeightAt_zeros.
Qed.

Section MissingContext.

Variable stampContext2d : bool.
Variable measureText : DrawState -> string -> R.
Variable loadImage : string -> option ImageSource.
Variable paintRect : DrawState -> R -> R -> R -> R -> Z -> Z -> list Z -> list Z.
Variable paintText : DrawState -> string -> R -> R -> Z -> Z -> list Z -> list Z.
Variable paintImage :
  DrawState -> ImageSource -> R -> R -> option (R * R) -> Z -> Z -> list Z -> list Z.
Variable extrude : Shape -> ExtrudeSettings -> list (Vector3 * Vector3 * Vector2).

Local Abbreviation generateNoContext :=
  (generateHeightMap false stampContext2d measureText loadImage
     paintRect paintText paintImage).

(** C9. When the 2D context cannot be acquired, generateHeightMap still
    resolves, with the untouched canvas: every byte of it is 0, so every
    pixel samples as intensity 0 and weight 0.  Displacing with it moves
    no vertex, whether or not a context can be obtained from that canvas
    later, and the generation cycle goes on to build and commit both
    meshes. *)
Theorem missing_context_blank_heightmap
    (type : PatternKind) (content : string) (w h : Z) (options : HeightMapOptions) :
  exists canvas,
    generateNoContext type content w h options = Resolved canvas /\
    width canvas = w /\ height canvas = h /\ has2d canvas = false /\
    Forall (fun byte => byte = 0%Z) (bitmap canvas) /\
    (forall u v, rawHeightAt (bitmap canvas) w h u v = 0 /\
                 heightValue (rawHeightAt (bitmap canvas) w h u v) = 0) /\
    (forall g later scale thr,
       position (applyDisplacement g (mkCanvas w h (bitmap canvas) later) scale thr)
       = position g) /\
    (forall (w0 : World) (id : nat) (e : Effect),
       effects w0 !! id = Some e -> phase e = Rasterizing ->
       isCancelled e = false ->
       requestHeightMap generateNoContext (config e)
         = Resolved (createCanvas TEXTURE_WIDTH TEXTURE_HEIGHT false) /\
       let w1 := handle extrude generateNoContext w0 (HeightMapSettled id) in
       isProcessing w1 = false /\
       cycleOf (displayGeoPositive w1) = Some id /\
       cycleOf (displayGeoNegative w1) = Some id).
Proof.
  exists (createCanvas w h false).
  split; [reflexivity|]. split; [reflexivity|]. split; [reflexivity|].
  split; [reflexivity|]. split.
  { cbn. apply Forall_forall. intros x Hx.
    apply list_elem_of_In, repeat_spec in Hx. exact Hx. }
  split.
  { intros u v. cbn [createCanvas bitmap].
    rewrite rawHeightAt_zeros. split; [reflexivity | apply heightValue_zero]. }
  split.
  { intros g later scale thr. cbn [createCanvas bitmap].
    apply applyDisplacement_background. }
  intros w0 id e He Hphase Hlive.
  assert (Hreq : requestHeightMap generateNoContext (config e)
                 = Resolved (createCanvas TEXTURE_WIDTH TEXTURE_HEIGHT false))
    by reflexivity.
  split; [exact Hreq|].
  cbn [handle]. rewrite He, Hphase, Hreq.
  destruct (updateGeometry_resume_live extrude id e
              (createCanvas TEXTURE_WIDTH TEXTURE_HEIGHT false)
              (setEffects (<[id := setPhase Returned e]> (effects w0)) w0) Hlive)
    as (pg & ng & _ & _ & ->).
  cbn. repeat split.
Qed.

End MissingContext.

(** *** A one-vertex extruder for the UV loop *)

Lemma shell_uv_assignment_witness :
  (0 < List.length (position (uprightGeometry axisVertex 15 60)))%nat /\
  exists before after : list Vector2,
    uv (uprightGeometry axisVertex 15 60) = Some before /\
    uv (shellGeometry axisVertex 15 60) = Some after /\
    position (shellGeometry axisVertex 15 60)
      = position (uprightGeometry axisVertex 15 60) /\
    let p := getV3 (position (uprightGeometry axisVertex 15 60)) 0 in
    (planarRadius p > 0.8 * 15 ->
     getV2 after 0 = mkV2 (atan2 (vx p) (vz p) / (2 * PI) + 0.5)
                          ((vy p + 60 / 2) / 60)) /\
    (planarRadius p <= 0.8 * 15 -> getV2 after 0 = getV2 before 0).
Proof.
  assert (H : (0 < List.length (position (uprightGeometry axisVertex 15 60)))%nat)
    by (cbn; lia).
  split; [exact H|].
  exact (shell_uv_assignment axisVertex 15 60 0%nat H).
Defined.

(** *** A superseded run, replayed *)

Lemma superseded_cycle_never_commits_witness :
  let hm := fun (_ : PatternKind) (_ : string) (_ _ : Z) (_ : HeightMapOptions) =>
              Resolved twoRowCanvas in
  let w := run axisVertex hm
             [Mount; TimerFire 0; ConfigChange scenario; TimerFire 1] initialWorld in
  let afterA := handle axisVertex hm w (HeightMapSettled 0) in
  let afterB := handle axisVertex hm w (HeightMapSettled 1) in
  displayGeoPositive afterA = None /\ displayGeoNegative afterA = None /\
  cycleOf (displayGeoPositive afterB) = Some 1%nat /\
  cycleOf (displayGeoNegative afterB) = Some 1%nat.
Proof.
  intros hm w afterA afterB.
  destruct (superseded_cycle_never_commits axisVertex hm
              [Mount; TimerFire 0; ConfigChange scenario; TimerFire 1])
    as (_ & Hstale & Hlatest).
  fold w in Hstale, Hlatest.
  destruct (Hstale 0%nat (mkEffect DEFAULT_STATE true Rasterizing)
              (HeightMapSettled 0)) as (_ & Hp & Hn);
    [reflexivity | cbn; lia | now right |].
  destruct (Hlatest 1%nat (mkEffect scenario false Rasterizing) twoRowCanvas)
    as (pg & ng & _ & _ & Hpb & Hnb);
    [reflexivity | reflexivity | reflexivity | reflexivity |].
  fold afterA in Hp, Hn. fold afterB in Hpb, Hnb.
  rewrite Hp, Hn, Hpb, Hnb. repeat split.
Defined.

(** ** Worked values *)

Example plugHeight_60 : plugHeight 60 = 30.
Proof. unfold plugHeight, Math.max. rewrite Rmax_right; lra. Qed.

Example plugHeight_20 : plugHeight 20 = 0.1.
Proof. unfold plugHeight, Math.max. rewrite Rmax_left; lra. Qed.

Example plugHeight_rev1_60 : plugHeight_rev1 60 = 40.
Proof. unfold plugHeight_rev1, Math.max. rewrite Rmax_right; lra. Qed.

Example heightValue_045 : heightValue 0.45 = 0.15625.
Proof.
  unfold heightValue, Math.min, Math.max.
  destruct (Rgt_dec 0.45 0.40); [|lra].
  replace ((0.45 - 0.40) / (0.60 - 0.40)) with 0.25 by lra.
  rewrite Rmax_left by lra. rewrite Rmin_left by lra. lra.
Qed.

Example heightValue_rev1_045 : heightValue_rev1 0.45 = 0.25.
Proof. rewrite heightValue_rev1_linear by lra. lra. Qed.

Example export_before_mount :
  handleExport initialWorld = Alerted "Geometry not ready yet.".
Proof. reflexivity. Qed.

Example steps_for_60 : steps (cylinderExtrudeSettings 60) = 150%Z.
Proof.
  unfold cylinderExtrudeSettings. cbn [steps].
  apply floor_between. simpl. lra.
Qed.

(** An empty text with zero horizontal spacing has a zero tile period:
    the column bound is infinite and the call never returns. *)
Example empty_text_never_returns
    (stamp : bool) (load : string -> option ImageSource)
    (pr : DrawState -> R -> R -> R -> R -> Z -> Z -> list Z -> list Z)
    (pt : DrawState -> string -> R -> R -> Z -> Z -> list Z -> list Z)
    (pi : DrawState -> ImageSource -> R -> R -> option (R * R) -> Z -> Z
          -> list Z -> list Z) :
  generateHeightMap true stamp (fun _ _ => 0) load pr pt pi KText ""
    TEXTURE_WIDTH TEXTURE_HEIGHT (mkOptions 120 None None 0 120 0 1)
  = Pending.
Proof.
  unfold generateHeightMap. cbn [negb fontSize spacingX spacingY letterSpacing
                                   fontFamily tilt].
  unfold stampTiles, tileBound.
  destruct (Req_dec_T _ _) as [_|Hne]; [reflexivity|].
  exfalso. apply Hne. lra.
Qed.

(** * Further properties of the code *)

(** ** applyDisplacement: where every vertex ends *)

Lemma addScaledVector_zero (p n : Vector3) (k : R) :
  k = 0 -> Vector3Ops.addScaledVector p n k = p.
Proof.
  intros ->. destruct p as [x y z]. unfold Vector3Ops.addScaledVector. cbn.
  f_equal; ring.
Qed.

Lemma displacedPosition_law data w h scale thr p n t :
  displacedPosition data w h scale thr p n t
  = Vector3Ops.addScaledVector p n (vertexWeight data w h thr p n t * scale).
Proof.
  unfold displacedPosition, vertexWeight.
  destruct (Rlt_dec _ _); [symmetry; apply addScaledVector_zero; ring|].
  destruct (Rgt_dec _ _); [symmetry; apply addScaledVector_zero; ring|].
  destruct (Rlt_dec _ _); [symmetry; apply addScaledVector_zero; ring|].
  destruct (Rgt_dec _ _); [symmetry; apply addScaledVector_zero; ring|].
  pose proof (heightValue_range (rawHeightAt data w h (ux t) (uy t))) as Hr.
  destruct (Rgt_dec _ 0) as [_|Hz]; [reflexivity|].
  symmetry. apply addScaledVector_zero.
  replace (heightValue (rawHeightAt data w h (ux t) (uy t))) with 0 by lra. ring.
Qed.

Lemma applyDisplacement_vertex (g : BufferGeometry) (hm : HTMLCanvasElement)
    (scale thr : R) (na : list Vector3) (ta : list Vector2) (i : nat) :
  normal g = Some na -> uv g = Some ta ->
  (i < List.length (position g))%nat ->
  getV3 (position (applyDisplacement g hm scale thr)) i
  = Vector3Ops.addScaledVector (getV3 (position g) i) (getV3 na i)
      (weightOf g hm thr i * scale).
Proof.
  intros Hn Hu Hi. unfold weightOf. rewrite Hu, Hn.
  destruct (getImageData hm) as [data|] eqn:Hd.
  - destruct (applyDisplacement_position g hm scale thr na ta data Hn Hu Hd) as [_ H].
    rewrite H by exact Hi. apply displacedPosition_law.
  - unfold applyDisplacement. rewrite Hu, Hn, Hd.
    symmetry. apply addScaledVector_zero. ring.
Qed.

(** X1. Every vertex of the geometry ends at its old position plus its
    stored normal times weight * displacementScale, the weight being 0
    where a skip rule or a guard applies and the smoothstep of the sampled
    intensity elsewhere; no other vertex's data enters. *)
Theorem applyDisplacement_vertex_law (g : BufferGeometry) (hm : HTMLCanvasElement)
    (scale thr : R) (na : list Vector3) (ta : list Vector2) (i : nat) :
  normal g = Some na -> uv g = Some ta ->
  (i < List.length (position g))%nat ->
  getV3 (position (applyDisplacement g hm scale thr)) i
  = Vector3Ops.addScaledVector (getV3 (position g) i) (getV3 na i)
      (weightOf g hm thr i * scale).
Proof. apply applyDisplacement_vertex. Qed.

Lemma applyDisplacement_vertex_law_witness :
  getV3 (position (applyDisplacement
           (oneVertex (mkV3 15 0 0) (mkV3 1 0 0) (mkV2 0 0.5)) twoRowCanvas 0.4 13.5)) 0
  = mkV3 (15 + 1 * (1 * 0.4)) (0 + 0 * (1 * 0.4)) (0 + 0 * (1 * 0.4)).
Proof.
  rewrite (applyDisplacement_vertex_law
             (oneVertex (mkV3 15 0 0) (mkV3 1 0 0) (mkV2 0 0.5)) twoRowCanvas 0.4 13.5
             [mkV3 1 0 0] [mkV2 0 0.5] 0%nat);
    [| reflexivity | reflexivity | simpl; lia].
  rewrite shellVertex_weight by lra. reflexivity.
Defined.

Lemma applyDisplacement_untouched_parts (g : BufferGeometry) (hm : HTMLCanvasElement)
    (scale thr : R) :
  uv (applyDisplacement g hm scale thr) = uv g /\
  index (applyDisplacement g hm scale thr) = index g.
Proof.
  unfold applyDisplacement.
  destruct (uv g) eqn:Hu; [|now rewrite Hu].
  destruct (normal g); [|now rewrite Hu].
  destruct (getImageData hm); [|now rewrite Hu].
  cbn. now rewrite Hu.
Qed.

Lemma fold_left_keeps_length {A B} (f : list A -> B -> list A) (l : list B) :
  (forall a b, List.length (f a b) = List.length a) ->
  forall a, List.length (fold_left f l a) = List.length a.
Proof.
  intros Hf. induction l as [|b l IH]; intros a; cbn; [reflexivity|].
  now rewrite IH, Hf.
Qed.

Lemma computeVertexNormals_count (g : BufferGeometry) :
  exists na, normal (THREE.computeVertexNormals g) = Some na /\
             List.length na = List.length (position g).
Proof.
  unfold THREE.computeVertexNormals. cbn [normal withNormal].
  eexists. split; [reflexivity|]. rewrite length_map.
  destruct (index g);
    (rewrite fold_left_keeps_length;
     [apply repeat_length
     | intros a b; unfold setXYZ; now rewrite !length_insert]).
Qed.

(** X2. applyDisplacement keeps the vertex count, the texture coordinates
    and the index buffer of the geometry; when it gets past its guards the
    normal attribute it leaves has one normal per vertex. *)
Theorem applyDisplacement_keeps_layout (g : BufferGeometry) (hm : HTMLCanvasElement)
    (scale thr : R) :
  List.length (position (applyDisplacement g hm scale thr)) = List.length (position g) /\
  uv (applyDisplacement g hm scale thr) = uv g /\
  index (applyDisplacement g hm scale thr) = index g /\
  (forall na ta data,
     normal g = Some na -> uv g = Some ta -> getImageData hm = Some data ->
     exists na', normal (applyDisplacement g hm scale thr) = Some na' /\
                 List.length na' = List.length (position g)).
Proof.
  split; [apply applyDisplacement_length|].
  destruct (applyDisplacement_untouched_parts g hm scale thr) as [Hu Hi].
  split; [exact Hu|]. split; [exact Hi|].
  intros na ta data Hn Hta Hd.
  pose proof (applyDisplacement_length g hm scale thr) as Hlen.
  unfold applyDisplacement in *. rewrite Hn, Hta, Hd in *.
  match goal with
  | |- context [THREE.computeVertexNormals ?g'] =>
      destruct (computeVertexNormals_count g') as (na' & Hna & Hl)
  end.
  exists na'. split; [exact Hna|].
  rewrite Hl. rewrite computeVertexNormals_position in Hlen. exact Hlen.
Qed.

(** X3. Engraving mirrors embossing: displacing the same geometry with
    the same heightmap and threshold by [-scale] moves every vertex by the
    opposite vector, so the old position is the midpoint of the two
    results. *)
Theorem emboss_engrave_mirror (g : BufferGeometry) (hm : HTMLCanvasElement)
    (scale thr : R) (i : nat) :
  Vector3Ops.add (getV3 (position (applyDisplacement g hm scale thr)) i)
                 (getV3 (position (applyDisplacement g hm (- scale) thr)) i)
  = Vector3Ops.multiplyScalar (getV3 (position g) i) 2.
Proof.
  assert (Hsame : forall p, Vector3Ops.add p p = Vector3Ops.multiplyScalar p 2).
  { intros [x y z]. unfold Vector3Ops.add, Vector3Ops.multiplyScalar. cbn.
    f_equal; ring. }
  destruct (uv g) as [ta|] eqn:Hu;
    [|unfold applyDisplacement; rewrite Hu; apply Hsame].
  destruct (normal g) as [na|] eqn:Hn;
    [|unfold applyDisplacement; rewrite Hu, Hn; apply Hsame].
  destruct (decide (i < List.length (position g))%nat) as [Hi|Hi].
  - rewrite !(applyDisplacement_vertex g hm _ thr na ta i Hn Hu Hi).
    destruct (getV3 (position g) i) as [x y z].
    unfold Vector3Ops.add, Vector3Ops.addScaledVector, Vector3Ops.multiplyScalar.
    cbn. f_equal; ring.
  - rewrite !getV3_beyond by (rewrite ?applyDisplacement_length; lia).
    apply Hsame.
Qed.

(** ** Zero emboss depth *)

Lemma applyDisplacement_zero_scale (g : BufferGeometry) (hm : HTMLCanvasElement)
    (thr : R) :
  position (applyDisplacement g hm 0 thr) = position g.
Proof.
  destruct (uv g) as [ta|] eqn:Hu;
    [|unfold applyDisplacement; now rewrite Hu].
  destruct (normal g) as [na|] eqn:Hn;
    [|unfold applyDisplacement; now rewrite Hu, Hn].
  apply (nth_ext _ _ zero3 zero3); [apply applyDisplacement_length|].
  intros i Hi. rewrite applyDisplacement_length in Hi.
  change (getV3 (position (applyDisplacement g hm 0 thr)) i = getV3 (position g) i).
  rewrite (applyDisplacement_vertex g hm 0 thr na ta i Hn Hu Hi).
  apply addScaledVector_zero. ring.
Qed.

(** X4. With embossDepth = 0 the two meshes of a cycle are the same
    geometry, and its vertices are where buildCylinderGeometry put them. *)
Theorem zero_depth_pair_coincides
    (extrude : Shape -> ExtrudeSettings -> list (Vector3 * Vector3 * Vector2))
    (config : AppState.t) (canvas : HTMLCanvasElement) :
  AppState.embossDepth config = 0 ->
  positiveGeometry extrude config canvas = negativeGeometry extrude config canvas /\
  exists built posGeo,
    buildCylinderGeometry extrude (AppState.cylinderRadius config)
      (AppState.cylinderHeight config) 0 = Some built /\
    positiveGeometry extrude config canvas = Some posGeo /\
    position posGeo = position built.
Proof.
  intros Hd. unfold positiveGeometry, negativeGeometry.
  rewrite Hd, Rplus_0_r, Ropp_0. split; [reflexivity|].
  destruct (buildCylinderGeometry_merged extrude (AppState.cylinderRadius config)
              (AppState.cylinderHeight config) 0) as (na & ta & ->).
  eexists _, _. split; [reflexivity|]. split; [reflexivity|].
  apply applyDisplacement_zero_scale.
Qed.

Lemma zero_depth_pair_coincides_witness :
  let flat := AppState.mk TEXT "AB" None 15 60 120 None None 1 20 120 0 0 false in
  positiveGeometry axisVertex flat twoRowCanvas
  = negativeGeometry axisVertex flat twoRowCanvas.
Proof.
  intros flat.
  exact (proj1 (zero_depth_pair_coincides axisVertex flat twoRowCanvas eq_refl)).
Defined.

(** ** Sampling the heightmap *)

Lemma wrapped_remainder (a w : Z) :
  (0 < w)%Z ->
  (if (jsmod a w <? 0)%Z then (jsmod a w + w)%Z else jsmod a w) = (a mod w)%Z.
Proof.
  intros Hw. unfold jsmod.
  pose proof (Z.quot_rem' a w) as Hqr.
  pose proof (Z.rem_bound_abs a w) as Habs.
  destruct (Z.ltb_spec (Z.rem a w) 0) as [Hneg|Hpos].
  - apply (Z.mod_unique_pos a w (Z.quot a w - 1)); lia.
  - apply (Z.mod_unique_pos a w (Z.quot a w)); lia.
Qed.

Lemma pixelIndex_modulo (w h : Z) (u v : R) :
  (0 < w)%Z -> (0 < h)%Z ->
  pixelIndex w h u v
  = Some (((Math.floor (v * IZR h) mod h) * w + Math.floor (u * IZR w) mod w) * 4)%Z.
Proof.
  intros Hw Hh. unfold pixelIndex.
  replace (w =? 0)%Z with false by (symmetry; apply Z.eqb_neq; lia).
  replace (h =? 0)%Z with false by (symmetry; apply Z.eqb_neq; lia).
  cbn [orb]. now rewrite !wrapped_remainder.
Qed.

(** X5. On a canvas of positive width and height the index read for any
    texture coordinates is the red byte of the pixel in column
    floor(u * width) mod width and row floor(v * height) mod height
    (mathematical mod, never negative), so it always lies inside the
    4 * width * height bytes of the image data. *)
Theorem pixelIndex_in_bounds (w h : Z) (u v : R) :
  (0 < w)%Z -> (0 < h)%Z ->
  exists px py,
    px = (Math.floor (u * IZR w) mod w)%Z /\
    py = (Math.floor (v * IZR h) mod h)%Z /\
    (0 <= px < w)%Z /\ (0 <= py < h)%Z /\
    pixelIndex w h u v = Some ((py * w + px) * 4)%Z /\
    (0 <= (py * w + px) * 4 <= 4 * w * h - 4)%Z.
Proof.
  intros Hw Hh.
  exists (Math.floor (u * IZR w) mod w)%Z, (Math.floor (v * IZR h) mod h)%Z.
  pose proof (Z.mod_pos_bound (Math.floor (u * IZR w)) w Hw) as Hx.
  pose proof (Z.mod_pos_bound (Math.floor (v * IZR h)) h Hh) as Hy.
  repeat split; try lia; [now apply pixelIndex_modulo | nia].
Qed.

Lemma pixelIndex_in_bounds_witness :
  exists px py,
    px = (Math.floor (0.3 * IZR 4096) mod 4096)%Z /\
    py = (Math.floor (0.5 * IZR 4096) mod 4096)%Z /\
    (0 <= px < 4096)%Z /\ (0 <= py < 4096)%Z /\
    pixelIndex 4096 4096 0.3 0.5 = Some ((py * 4096 + px) * 4)%Z /\
    (0 <= (py * 4096 + px) * 4 <= 4 * 4096 * 4096 - 4)%Z.
Proof. apply (pixelIndex_in_bounds 4096 4096 0.3 0.5); lia. Defined.

Lemma floor_add_integer (x : R) (k : Z) :
  Math.floor (x + IZR k) = (Math.floor x + k)%Z.
Proof.
  unfold Math.floor. symmetry. apply Int_part_spec.
  pose proof (base_Int_part x) as [Hlo Hhi].
  rewrite plus_IZR. lra.
Qed.

Lemma pixelIndex_shift (w h : Z) (u v : R) (k l : Z) :
  (0 < w)%Z -> (0 < h)%Z ->
  pixelIndex w h (u + IZR k) (v + IZR l) = pixelIndex w h u v.
Proof.
  intros Hw Hh. rewrite !pixelIndex_modulo by assumption.
  replace ((u + IZR k) * IZR w) with (u * IZR w + IZR (k * w))
    by (rewrite mult_IZR; ring).
  replace ((v + IZR l) * IZR h) with (v * IZR h + IZR (l * h))
    by (rewrite mult_IZR; ring).
  rewrite !floor_add_integer, !Z_mod_plus_full. reflexivity.
Qed.

(** X6. Sampling wraps around without mirroring: shifting u or v by any
    whole number reads the same pixel, so the intensity is periodic with
    period 1 in both texture coordinates. *)
Theorem sampling_wraps_around (data : list Z) (w h : Z) (u v : R) (k l : Z) :
  (0 < w)%Z -> (0 < h)%Z ->
  rawHeightAt data w h (u + IZR k) (v + IZR l) = rawHeightAt data w h u v.
Proof.
  intros Hw Hh. unfold rawHeightAt. now rewrite pixelIndex_shift.
Qed.

Lemma sampling_wraps_around_witness :
  rawHeightAt (bitmap twoRowCanvas) 1 2 (0.25 + IZR 1) (0.5 + IZR (-3))
  = rawHeightAt (bitmap twoRowCanvas) 1 2 0.25 0.5.
Proof.
  apply (sampling_wraps_around (bitmap twoRowCanvas) 1 2 0.25 0.5 1 (-3)); lia.
Defined.

(** ** The transfer function, further *)

Lemma smooth_poly_monotone (a b : R) :
  0 <= a -> a <= b -> b <= 1 -> a * a * (3 - 2 * a) <= b * b * (3 - 2 * b).
Proof.
  intros Ha Hab Hb.
  assert (H : 0 <= (b - a) * (a * (3 - 2 * a - b) + b * (3 - 2 * b - a))).
  { apply Rmult_le_pos; [lra|].
    apply Rplus_le_le_0_compat; apply Rmult_le_pos; lra. }
  replace (b * b * (3 - 2 * b)) with
    (a * a * (3 - 2 * a) + (b - a) * (a * (3 - 2 * a - b) + b * (3 - 2 * b - a)))
    by ring.
  lra.
Qed.

Lemma band_position (x : R) :
  (x - 0.40) / (0.60 - 0.40) = 5 * (x - 0.40).
Proof. replace (0.60 - 0.40) with (/ 5) by lra. unfold Rdiv. rewrite Rinv_inv. ring. Qed.

(** X7. The weight never decreases when the sampled intensity increases. *)
Theorem heightValue_monotone (a b : R) :
  a <= b -> heightValue a <= heightValue b.
Proof.
  intros Hab. unfold heightValue, Math.min, Math.max.
  destruct (Rgt_dec a 0.40) as [Ha|Ha].
  - destruct (Rgt_dec b 0.40) as [Hb|Hb]; [|lra].
    rewrite !band_position.
    apply smooth_poly_monotone.
    + apply Rmin_glb; [apply Rmax_r | lra].
    + apply Rle_min_compat_r. apply Rle_max_compat_r. lra.
    + apply Rmin_r.
  - destruct (Rgt_dec b 0.40) as [Hb|Hb]; [|lra].
    pose proof (heightValue_range b) as Hr.
    unfold heightValue, Math.min, Math.max in Hr.
    destruct (Rgt_dec b 0.40); [lra | contradiction].
Qed.

Lemma heightValue_monotone_witness : heightValue 0.45 <= heightValue 0.55.
Proof. apply heightValue_monotone. lra. Defined.

Lemma heightValue_zero_iff (x : R) : heightValue x = 0 <-> x <= 0.40.
Proof.
  unfold heightValue, Math.min, Math.max. split.
  - destruct (Rgt_dec x 0.40) as [Hx|Hx]; [|lra].
    rewrite band_position. intros H. exfalso.
    set (t := Rmin (Rmax (5 * (x - 0.40)) 0) 1) in *.
    assert (Ht : 0 < t <= 1).
    { subst t. split; [|apply Rmin_r].
      apply Rmin_glb_lt; [|lra].
      apply Rlt_le_trans with (5 * (x - 0.40)); [lra | apply Rmax_l]. }
    assert (0 < t * t * (3 - 2 * t)).
    { apply Rmult_lt_0_compat; [apply Rmult_lt_0_compat; lra | lra]. }
    lra.
  - intros Hx. destruct (Rgt_dec x 0.40); [lra | reflexivity].
Qed.

Lemma heightValue_one_iff (x : R) : heightValue x = 1 <-> 0.60 <= x.
Proof.
  unfold heightValue, Math.min, Math.max. split.
  - destruct (Rgt_dec x 0.40) as [Hx|Hx]; [|lra].
    rewrite band_position. intros H.
    destruct (Rle_lt_dec 0.60 x) as [Hok|Hlt]; [exact Hok|]. exfalso.
    rewrite Rmax_left in H by lra. rewrite Rmin_left in H by lra.
    set (t := 5 * (x - 0.40)) in *.
    assert (Ht : 0 < t < 1) by (subst t; lra).
    assert (0 < (1 - t) * (1 - t) * (1 + 2 * t)).
    { apply Rmult_lt_0_compat; [apply Rmult_lt_0_compat; lra | lra]. }
    replace (t * t * (3 - 2 * t)) with (1 - (1 - t) * (1 - t) * (1 + 2 * t)) in H
      by ring.
    lra.
  - intros Hx. destruct (Rgt_dec x 0.40); [|lra].
    rewrite band_position. rewrite Rmax_left by lra. rewrite Rmin_right by lra.
    lra.
Qed.

(** X8. In terms of the red byte read from the canvas: a vertex is not
    displaced at all exactly when the byte is at most 102, and displaced by
    the full depth exactly when the byte is at least 153. *)
Theorem byte_thresholds (byte : Z) :
  (heightValue (IZR byte / 255.0) = 0 <-> (byte <= 102)%Z) /\
  (heightValue (IZR byte / 255.0) = 1 <-> (153 <= byte)%Z).
Proof.
  rewrite heightValue_zero_iff, heightValue_one_iff. split; split; intros H.
  - apply le_IZR. lra.
  - apply IZR_le in H. lra.
  - apply le_IZR. lra.
  - apply IZR_le in H. lra.
Qed.

(** ** buildCylinderGeometry, further *)

Lemma atan2_range (y x : R) : - PI < atan2 y x <= PI.
Proof.
  pose proof PI_RGT_0 as Hpi.
  pose proof (atan_bound (y / x)) as [Hlo Hhi].
  unfold atan2.
  destruct (Rlt_dec 0 x) as [Hx|Hx]; [lra|].
  destruct (Rlt_dec x 0) as [Hx'|Hx'].
  - assert (Hinv : / x < 0) by now apply Rinv_lt_0_compat.
    destruct (Rle_dec 0 y) as [Hy|Hy].
    + assert (Hq : y / x <= 0) by (unfold Rdiv; nra).
      assert (Ha : atan (y / x) <= 0).
      { destruct Hq as [Hq|Hq].
        - left. rewrite <- atan_0. now apply atan_increasing.
        - rewrite Hq, atan_0. lra. }
      lra.
    + assert (Hq : 0 < y / x) by (unfold Rdiv; nra).
      assert (Ha : 0 < atan (y / x)).
      { rewrite <- atan_0. now apply atan_increasing. }
      lra.
  - destruct (Rlt_dec 0 y); [lra|]. destruct (Rlt_dec y 0); lra.
Qed.

Lemma cylindricalUv_u_range (height : R) (p : Vector3) :
  0 < ux (cylindricalUv height p) <= 1.
Proof.
  pose proof PI_RGT_0 as Hpi.
  pose proof (atan2_range (vx p) (vz p)) as [Hlo Hhi].
  unfold cylindricalUv. cbn [ux].
  set (a := atan2 (vx p) (vz p)) in *.
  assert (Hk : 0 < / (2 * PI)) by (apply Rinv_0_lt_compat; lra).
  assert (Hone : 2 * PI * / (2 * PI) = 1) by (apply Rinv_r; lra).
  unfold Rdiv. split; nra.
Qed.

Lemma cylindricalUv_margin (height : R) (p : Vector3) :
  0 < height ->
  (uy (cylindricalUv height p) < 0.05 \/ uy (cylindricalUv height p) > 0.95)
  <-> Rabs (vy p) > 0.45 * height.
Proof.
  intros Hh. unfold cylindricalUv. cbn [uy].
  assert (Hk : 0 < / height) by now apply Rinv_0_lt_compat.
  assert (Hone : height * / height = 1) by (apply Rinv_r; lra).
  assert (Hv : (vy p + height / 2) / height = vy p / height + 0.5)
    by (unfold Rdiv; nra).
  rewrite Hv.
  unfold Rdiv. unfold Rabs. destruct (Rcase_abs (vy p)); split; intros H.
  - destruct H as [H|H]; nra.
  - left. nra.
  - destruct H as [H|H]; nra.
  - right. nra.
Qed.

Section BuildFurther.

Variable extrude : Shape -> ExtrudeSettings -> list (Vector3 * Vector3 * Vector2).

(** The texture coordinates of the shell geometry, vertex by vertex. *)
Lemma shellGeometry_uv (radius height : R) :
  exists before after : list Vector2,
    uv (uprightGeometry extrude radius height) = Some before /\
    uv (shellGeometry extrude radius height) = Some after /\
    List.length after = List.length (position (uprightGeometry extrude radius height)) /\
    forall i, (i < List.length (position (uprightGeometry extrude radius height)))%nat ->
      getV2 after i =
      if Rgt_dec (planarRadius (getV3 (position (uprightGeometry extrude radius height)) i))
                 (radius * 0.8)
      then cylindricalUv height (getV3 (position (uprightGeometry extrude radius height)) i)
      else getV2 before i.
Proof.
  destruct (uprightGeometry_attributes extrude radius height)
    as (na & ta & Hn & Hu & Hidx & Hlna & Hlta).
  destruct (shellUv_loop radius height
              (position (uprightGeometry extrude radius height))
              (seq 0 (List.length (position (uprightGeometry extrude radius height))))
              (NoDup_seq _ _) ta) as [Hlen Hget].
  { intros k Hk. apply elem_of_seq in Hk. lia. }
  exists ta. eexists. split; [exact Hu|]. split.
  { unfold shellGeometry, assignShellUvs. rewrite Hu. reflexivity. }
  split; [now rewrite Hlen|].
  intros i Hi. rewrite Hget. rewrite decide_True by (apply elem_of_seq; lia).
  reflexivity.
Qed.

(** X9. Every vertex the UV loop classifies as shell gets a u coordinate
    in (0, 1]; and for a positive height its v coordinate falls into the
    flat safety margin of applyDisplacement (v < 0.05 or v > 0.95) exactly
    when the vertex lies more than 0.45 * height above or below the
    middle of the cylinder. *)
Theorem shell_uv_ranges (radius height : R) (i : nat) :
  (i < List.length (position (uprightGeometry extrude radius height)))%nat ->
  planarRadius (getV3 (position (uprightGeometry extrude radius height)) i)
    > radius * 0.8 ->
  exists after,
    uv (shellGeometry extrude radius height) = Some after /\
    0 < ux (getV2 after i) <= 1 /\
    (0 < height ->
     (uy (getV2 after i) < 0.05 \/ uy (getV2 after i) > 0.95) <->
     Rabs (vy (getV3 (position (uprightGeometry extrude radius height)) i))
       > 0.45 * height).
Proof.
  intros Hi Hr.
  destruct (shellGeometry_uv radius height) as (before & after & _ & Hu & _ & Hget).
  exists after. split; [exact Hu|].
  rewrite (Hget i Hi). destruct (Rgt_dec _ _) as [_|Hno]; [|contradiction].
  split; [apply cylindricalUv_u_range|].
  intros Hh. now apply cylindricalUv_margin.
Qed.

End BuildFurther.

(** ** Centring and turning upright *)

Lemma rotX_quarter (p : Vector3) : THREE.rotX (PI / 2) p = quarterTurn p.
Proof.
  unfold THREE.rotX, quarterTurn. rewrite cos_PI2, sin_PI2.
  f_equal; ring.
Qed.

Lemma getV3_quarterTurn (l : list Vector3) (i : nat) :
  getV3 (map quarterTurn l) i = quarterTurn (getV3 l i).
Proof.
  unfold getV3. rewrite <- (map_nth quarterTurn l zero3 i).
  f_equal. unfold quarterTurn, zero3. cbn. f_equal. ring.
Qed.

Section Upright.

Variable extrude : Shape -> ExtrudeSettings -> list (Vector3 * Vector3 * Vector2).

Lemma uprightGeometry_positions (radius height : R) :
  position (uprightGeometry extrude radius height)
  = map quarterTurn (position (centredExtrusion extrude radius height)).
Proof.
  unfold uprightGeometry, centredExtrusion, THREE.rotateX. cbn [position].
  apply map_ext. intros p. apply rotX_quarter.
Qed.

(** X10. Turning the centred solid upright maps each vertex (x, y, z) to
    (x, -z, y): the extrusion axis becomes the vertical axis, and the
    planar radius the UV loop and applyDisplacement test is the vertex's
    distance from the extrusion axis. *)
Theorem upright_turns_extrusion_axis (radius height : R) :
  position (uprightGeometry extrude radius height)
    = map (fun p => mkV3 (vx p) (- vz p) (vy p))
          (position (centredExtrusion extrude radius height)) /\
  forall i,
    planarRadius (getV3 (position (uprightGeometry extrude radius height)) i)
    = sqrt (vx (getV3 (position (centredExtrusion extrude radius height)) i)
            * vx (getV3 (position (centredExtrusion extrude radius height)) i)
            + vy (getV3 (position (centredExtrusion extrude radius height)) i)
              * vy (getV3 (position (centredExtrusion extrude radius height)) i)).
Proof.
  split; [apply uprightGeometry_positions|].
  intros i. rewrite uprightGeometry_positions, getV3_quarterTurn. reflexivity.
Qed.

End Upright.

(** *** Bounding boxes *)

Lemma bounds_fold (f : Vector3 -> R) (rest : list Vector3) :
  forall b : R * R,
    fst b <= snd b ->
    let b' := fold_left (fun b q => (Rmin (fst b) (f q), Rmax (snd b) (f q))) rest b in
    fst b' <= fst b /\ snd b <= snd b' /\
    forall q, In q rest -> fst b' <= f q <= snd b'.
Proof.
  induction rest as [|p rest IH]; intros b Hb; cbn.
  - split; [lra|]. split; [lra|]. intros q [].
  - destruct (IH (Rmin (fst b) (f p), Rmax (snd b) (f p))) as (H1 & H2 & H3).
    { cbn. pose proof (Rmin_l (fst b) (f p)). pose proof (Rmax_l (snd b) (f p)). lra. }
    cbn in H1, H2.
    pose proof (Rmin_l (fst b) (f p)). pose proof (Rmin_r (fst b) (f p)).
    pose proof (Rmax_l (snd b) (f p)). pose proof (Rmax_r (snd b) (f p)).
    split; [lra|]. split; [lra|].
    intros q [->|Hq]; [split; lra | now apply H3].
Qed.

Lemma boundsOf_encloses (f : Vector3 -> R) (pos : list Vector3) (lo hi : R) :
  THREE.boundsOf f pos = Some (lo, hi) ->
  forall q, In q pos -> lo <= f q <= hi.
Proof.
  destruct pos as [|p rest]; [discriminate|].
  cbn [THREE.boundsOf]. intros Hb q Hq.
  destruct (bounds_fold f rest (f p, f p)) as (H1 & H2 & H3); [cbn; lra|].
  inversion Hb as [Hfold]. rewrite Hfold in H1, H2, H3. cbn in H1, H2, H3.
  destruct Hq as [->|Hq]; [lra | now apply H3].
Qed.

Section Centred.

Variable extrude : Shape -> ExtrudeSettings -> list (Vector3 * Vector3 * Vector2).

(** X11. Centring puts the middle of the extrusion at height 0: if the
    extruder's vertices span [lo, hi] along the extrusion axis, every
    vertex of the upright solid has |y| <= (hi - lo) / 2; so when that
    span is at most the cylinder height, every cylindrical v coordinate
    (y + height/2) / height lies in [0, 1]. *)
Theorem upright_solid_is_centred (radius height lo hi : R) :
  THREE.boundsOf vz
    (map (fun v => fst (fst v))
         (extrude (cylinderShape radius) (cylinderExtrudeSettings height)))
    = Some (lo, hi) ->
  Forall (fun p => Rabs (vy p) <= (hi - lo) / 2)
         (position (uprightGeometry extrude radius height)) /\
  (0 < height -> hi - lo <= height ->
   Forall (fun p => 0 <= uy (cylindricalUv height p) <= 1)
          (position (uprightGeometry extrude radius height))).
Proof.
  intros Hb.
  assert (Hall : Forall (fun p => Rabs (vy p) <= (hi - lo) / 2)
                   (position (uprightGeometry extrude radius height))).
  { rewrite uprightGeometry_positions.
    unfold centredExtrusion, THREE.center, ExtrudeGeometry.
    cbn [position withPosition]. rewrite Hb. cbn [THREE.mid].
    rewrite !Forall_map. apply List.Forall_forall. intros q Hq.
    pose proof (boundsOf_encloses vz _ lo hi Hb (fst (fst q))
                  (in_map (fun v => fst (fst v)) _ _ Hq)) as Hz.
    unfold quarterTurn, Vector3Ops.sub. cbn [vy vz].
    apply Rabs_le. lra. }
  split; [exact Hall|].
  intros Hh Hspan. eapply Forall_impl; [exact Hall|].
  intros p Hp. cbv beta in *. unfold cylindricalUv. cbn [uy].
  assert (Hy : - ((hi - lo) / 2) <= vy p <= (hi - lo) / 2).
  { unfold Rabs in Hp. destruct (Rcase_abs (vy p)); lra. }
  assert (Hk : 0 < / height) by now apply Rinv_0_lt_compat.
  assert (Hone : height * / height = 1) by (apply Rinv_r; lra).
  unfold Rdiv. split; nra.
Qed.

End Centred.

Lemma planarRadius_in_xy (x y : R) : 0 <= x -> planarRadius (mkV3 x y 0) = x.
Proof.
  intros Hx. unfold planarRadius. simpl.
  replace (x * x + 0 * 0) with (x * x) by ring. now apply sqrt_square.
Qed.

Lemma rim_first_vertex (radius height : R) :
  getV3 (position (uprightGeometry rimVertices radius height)) 0 = mkV3 13 (-29) 0.
Proof.
  rewrite uprightGeometry_positions, getV3_quarterTurn.
  unfold centredExtrusion, THREE.center, ExtrudeGeometry, rimVertices, quarterTurn.
  cbn [position withPosition map fst snd getV3 nth THREE.boundsOf fold_left
       THREE.mid Vector3Ops.sub vx vy vz].
  f_equal; unfold Rmin, Rmax; repeat destruct (Rle_dec _ _); lra.
Qed.

Lemma shell_uv_ranges_witness :
  exists after,
    uv (shellGeometry rimVertices 15 60) = Some after /\
    0 < ux (getV2 after 0) <= 1 /\
    (0 < 60 ->
     (uy (getV2 after 0) < 0.05 \/ uy (getV2 after 0) > 0.95) <->
     Rabs (vy (getV3 (position (uprightGeometry rimVertices 15 60)) 0)) > 0.45 * 60).
Proof.
  apply (shell_uv_ranges rimVertices 15 60 0%nat).
  - cbn. lia.
  - rewrite rim_first_vertex, planarRadius_in_xy; lra.
Defined.

Lemma upright_solid_is_centred_witness :
  Forall (fun p => Rabs (vy p) <= (0 - 0) / 2)
         (position (uprightGeometry axisVertex 15 60)).
Proof.
  exact (proj1 (upright_solid_is_centred axisVertex 15 60 0 0 eq_refl)).
Defined.

(** ** The merged solid *)

Lemma getV3_app_l (a b : list Vector3) (i : nat) :
  (i < List.length a)%nat -> getV3 (a ++ b) i = getV3 a i.
Proof. intros Hi. unfold getV3. now rewrite !nth_lookup, lookup_app_l. Qed.

Lemma getV2_app_l (a b : list Vector2) (i : nat) :
  (i < List.length a)%nat -> getV2 (a ++ b) i = getV2 a i.
Proof. intros Hi. unfold getV2. now rewrite !nth_lookup, lookup_app_l. Qed.

Lemma getV2_app_r (a b : list Vector2) (n : nat) :
  getV2 (a ++ b) (List.length a + n) = getV2 b n.
Proof.
  unfold getV2. rewrite !nth_lookup, lookup_app_r by lia.
  now replace (List.length a + n - List.length a)%nat with n by lia.
Qed.

Section Merged.

Variable extrude : Shape -> ExtrudeSettings -> list (Vector3 * Vector3 * Vector2).

Lemma shellGeometry_attributes (radius height : R) :
  exists sn st,
    normal (shellGeometry extrude radius height) = Some sn /\
    uv (shellGeometry extrude radius height) = Some st /\
    index (shellGeometry extrude radius height) = None /\
    List.length sn = List.length (position (shellGeometry extrude radius height)) /\
    List.length st = List.length (position (shellGeometry extrude radius height)).
Proof.
  destruct (uprightGeometry_attributes extrude radius height)
    as (na & ta & Hn & Hu & Hidx & Hlna & Hlta).
  destruct (shellGeometry_uv extrude radius height)
    as (before & after & _ & Hafter & Hlen & _).
  rewrite shellGeometry_position.
  exists na, after.
  split; [unfold shellGeometry, assignShellUvs; rewrite Hu; exact Hn|].
  split; [exact Hafter|].
  split; [unfold shellGeometry, assignShellUvs; rewrite Hu; exact Hidx|].
  split; assumption.
Qed.

Lemma buildCylinderGeometry_explicit (radius height depthOffset : R) :
  exists sn st,
    normal (shellGeometry extrude radius height) = Some sn /\
    uv (shellGeometry extrude radius height) = Some st /\
    List.length sn = List.length (position (shellGeometry extrude radius height)) /\
    List.length st = List.length (position (shellGeometry extrude radius height)) /\
    buildCylinderGeometry extrude radius height depthOffset
    = Some (mkGeometry (position (shellGeometry extrude radius height)
                          ++ plugPositions height)
                       (Some (sn ++ plugNormals height))
                       (Some (st ++ plugUvs height)) None).
Proof.
  destruct (shellGeometry_attributes radius height)
    as (sn & st & Hn & Hu & Hidx & Hlsn & Hlst).
  exists sn, st. repeat split; try assumption.
  unfold buildCylinderGeometry, plugPositions, plugNormals, plugUvs.
  destruct (shellGeometry extrude radius height) as [pos nrm uvs idx].
  cbn in Hn, Hu, Hidx. subst nrm uvs idx. reflexivity.
Qed.

(** X12. buildCylinderGeometry always returns a geometry, never null: a
    triangle soup without index whose vertices are those of the extruded
    shell followed by the 36 of the plug, with exactly one normal and one
    texture coordinate per vertex. *)
Theorem buildCylinderGeometry_well_formed (radius height depthOffset : R) :
  exists g na ta,
    buildCylinderGeometry extrude radius height depthOffset = Some g /\
    index g = None /\ normal g = Some na /\ uv g = Some ta /\
    List.length (position g)
      = (List.length (extrude (cylinderShape radius) (cylinderExtrudeSettings height))
         + 36)%nat /\
    List.length na = List.length (position g) /\
    List.length ta = List.length (position g).
Proof.
  destruct (buildCylinderGeometry_explicit radius height depthOffset)
    as (sn & st & Hn & Hu & Hlsn & Hlst & Hb).
  eexists _, _, _. split; [exact Hb|].
  cbn [index normal uv position].
  split; [reflexivity|]. split; [reflexivity|]. split; [reflexivity|].
  rewrite !length_app, Hlsn, Hlst.
  assert (Hcount : List.length (position (shellGeometry extrude radius height))
                   = List.length (extrude (cylinderShape radius)
                                    (cylinderExtrudeSettings height))).
  { rewrite shellGeometry_position.
    unfold uprightGeometry, THREE.rotateX, THREE.center, ExtrudeGeometry.
    cbn [position withPosition]. now rewrite !length_map. }
  rewrite Hcount. repeat split.
Qed.

(** X13. Without the two toNonIndexed calls the merge would fail: the
    extruded shell has no index buffer and the box has one, so
    mergeGeometries of the two as they are gives null. *)
Theorem merge_needs_non_indexed (radius height : R) :
  THREE.mergeGeometries [shellGeometry extrude radius height; plugGeometry height]
    = None /\
  THREE.mergeGeometries [THREE.toNonIndexed (shellGeometry extrude radius height);
                         THREE.toNonIndexed (plugGeometry height)]
    = buildCylinderGeometry extrude radius height 0 /\
  buildCylinderGeometry extrude radius height 0 <> None.
Proof.
  destruct (shellGeometry_attributes radius height)
    as (sn & st & Hn & Hu & Hidx & _ & _).
  split; [|split; [reflexivity|]].
  - unfold THREE.mergeGeometries, THREE.sameLayout. cbn [forallb].
    rewrite Hidx. reflexivity.
  - destruct (buildCylinderGeometry_merged extrude radius height 0) as (na & ta & ->).
    discriminate.
Qed.

End Merged.

(** ** The plug and the flat bands under displacement *)

Lemma plugUvs_explicit (height : R) :
  plugUvs height
  = map (getV2 (map snd (THREE.boxVertices 15 (plugHeight height) 15))) THREE.boxIndices.
Proof. reflexivity. Qed.

Lemma plugUvs_on_edge (height : R) :
  Forall (fun t => uy t = 0 \/ uy t = 1) (plugUvs height) /\
  List.length (plugUvs height) = 36%nat.
Proof.
  split; [|reflexivity].
  rewrite plugUvs_explicit.
  unfold THREE.boxVertices, THREE.buildPlane, THREE.boxIndices.
  cbn [map flat_map seq app getV2 nth fst snd Nat.mul Nat.add].
  repeat (apply Forall_cons; split; [cbn [uy]; first [now left | now right]|]).
  constructor.
Qed.

Lemma appended_skipped_vertices_untouched
    (shell inner sn pn : list Vector3) (st pt : list Vector2)
    (idx : option (list nat)) (canvas : HTMLCanvasElement) (scale thr : R) :
  List.length sn = List.length shell -> List.length st = List.length shell ->
  (forall k, (k < List.length inner)%nat ->
             skipped thr (getV3 inner k) (getV3 pn k) (getV2 pt k)) ->
  drop (List.length shell)
       (position (applyDisplacement
                    (mkGeometry (shell ++ inner) (Some (sn ++ pn)) (Some (st ++ pt)) idx)
                    canvas scale thr))
  = inner.
Proof.
  intros Hsn Hst Hskip.
  set (g := mkGeometry (shell ++ inner) (Some (sn ++ pn)) (Some (st ++ pt)) idx).
  pose proof (applyDisplacement_length g canvas scale thr) as Hlen.
  cbn [g position] in Hlen. rewrite length_app in Hlen.
  apply (nth_ext _ _ zero3 zero3).
  - rewrite length_drop, Hlen. lia.
  - intros n Hn. rewrite length_drop, Hlen in Hn.
    assert (Hn' : (n < List.length inner)%nat) by lia.
    change (getV3 (drop (List.length shell)
                     (position (applyDisplacement g canvas scale thr))) n
            = getV3 inner n).
    rewrite getV3_drop.
    rewrite (applyDisplacement_skip_position g canvas scale thr (sn ++ pn) (st ++ pt));
      [cbn [g position]; apply getV3_app_r | reflexivity | reflexivity |].
    cbn [g position]. rewrite getV3_app_r.
    rewrite <- Hsn at 1. rewrite getV3_app_r.
    rewrite <- Hst. rewrite getV2_app_r.
    now apply Hskip.
Qed.

Section FlatParts.

Variable extrude : Shape -> ExtrudeSettings -> list (Vector3 * Vector3 * Vector2).

(** X14. The plug is never displaced, whatever the radius, the height,
    the heightmap, the depth and the radius threshold (0 included): every
    plug vertex carries a box texture coordinate v of 0 or 1, which the
    flat-margin rule skips. *)
Theorem plug_never_displaced (radius height scale thr : R)
    (canvas : HTMLCanvasElement) :
  Forall (fun t => uy t = 0 \/ uy t = 1) (plugUvs height) /\
  exists built,
    buildCylinderGeometry extrude radius height 0 = Some built /\
    drop (List.length (position (shellGeometry extrude radius height)))
         (position (applyDisplacement built canvas scale thr))
    = plugPositions height.
Proof.
  destruct (plugUvs_on_edge height) as [Hedge Hcount].
  split; [exact Hedge|].
  destruct (buildCylinderGeometry_explicit extrude radius height 0)
    as (sn & st & _ & _ & Hlsn & Hlst & Hb).
  eexists. split; [exact Hb|].
  apply appended_skipped_vertices_untouched; [exact Hlsn | exact Hlst |].
  intros k Hk. unfold skipped. right. right.
  assert (Hk' : (k < List.length (plugUvs height))%nat).
  { rewrite Hcount. exact Hk. }
  rewrite List.Forall_forall in Hedge.
  destruct (Hedge (getV2 (plugUvs height) k)) as [H0|H1];
    [unfold getV2; now apply nth_In | left; lra | right; lra].
Qed.

(** X15. The top and bottom 5% of the side wall stay flat: for a positive
    height, a shell vertex of the built solid that lies more than
    0.45 * height above or below the middle keeps its position under
    applyDisplacement, for every heightmap, depth and threshold. *)
Theorem top_bottom_band_stays_flat (radius height scale thr : R)
    (canvas : HTMLCanvasElement) (i : nat) :
  0 < height ->
  (i < List.length (position (uprightGeometry extrude radius height)))%nat ->
  planarRadius (getV3 (position (uprightGeometry extrude radius height)) i)
    > radius * 0.8 ->
  Rabs (vy (getV3 (position (uprightGeometry extrude radius height)) i))
    > 0.45 * height ->
  exists built,
    buildCylinderGeometry extrude radius height 0 = Some built /\
    getV3 (position built) i
      = getV3 (position (uprightGeometry extrude radius height)) i /\
    getV3 (position (applyDisplacement built canvas scale thr)) i
      = getV3 (position built) i.
Proof.
  intros Hh Hi Hr Hy.
  destruct (buildCylinderGeometry_explicit extrude radius height 0)
    as (sn & st & _ & Hst & Hlsn & Hlst & Hb).
  destruct (shellGeometry_uv extrude radius height)
    as (before & after & _ & Hafter & _ & Hget).
  rewrite Hst in Hafter. inversion Hafter; subst after.
  rewrite shellGeometry_position in *.
  eexists. split; [exact Hb|]. cbn [position].
  split; [now apply getV3_app_l|].
  eapply applyDisplacement_skip_position; [reflexivity | reflexivity |].
  cbn [position]. unfold skipped. right. right.
  rewrite getV2_app_l by lia. rewrite (Hget i Hi).
  destruct (Rgt_dec _ _) as [_|Hno]; [|contradiction].
  now apply cylindricalUv_margin.
Qed.

End FlatParts.

Lemma top_bottom_band_stays_flat_witness :
  exists built,
    buildCylinderGeometry rimVertices 15 60 0 = Some built /\
    getV3 (position built) 0
      = getV3 (position (uprightGeometry rimVertices 15 60)) 0 /\
    getV3 (position (applyDisplacement built twoRowCanvas 0.4 13.5)) 0
      = getV3 (position built) 0.
Proof.
  apply (top_bottom_band_stays_flat rimVertices 15 60 0.4 13.5 twoRowCanvas 0%nat).
  - lra.
  - cbn. lia.
  - rewrite rim_first_vertex, planarRadius_in_xy; lra.
  - rewrite rim_first_vertex. cbn [vy]. unfold Rabs.
    destruct (Rcase_abs (-29)); lra.
Defined.

(** ** Nesting of the two solids as they are built *)


Section Nesting.

Variable extrude : Shape -> ExtrudeSettings -> list (Vector3 * Vector3 * Vector2).




End Nesting.

(** *** The bevelled wall at radius 15, depth 0.4 *)






(** ** The geometry effect, further *)

Section EffectOrder.

Variable extrude : Shape -> ExtrudeSettings -> list (Vector3 * Vector3 * Vector2).
Variable heightMapOf :
  PatternKind -> string -> Z -> Z -> HeightMapOptions -> Promise HTMLCanvasElement.

Local Abbreviation react := (handle extrude heightMapOf).
Local Abbreviation replay := (run extrude heightMapOf).
Local Abbreviation awaited := (requestHeightMap heightMapOf).
Local Abbreviation orderly := (Orderly extrude heightMapOf).

Lemma initialWorld_orderly : orderly initialWorld.
Proof.
  constructor; intros id e He; cbn in He; now rewrite lookup_nil in He.
Qed.

(** Changing the phase of one run, everything else as it was. *)
Lemma setPhase_orderly (w : World) (id : nat) (e : Effect) (p : Phase) :
  orderly w -> effects w !! id = Some e ->
  p <> TimerArmed -> p <> TimerCleared ->
  ((id + 1 = List.length (effects w))%nat ->
   (isProcessing w = false <-> p = Returned) /\
   (isProcessing w = false -> phase e = Returned)) ->
  orderly (setEffects (<[id := setPhase p e]> (effects w)) w).
Proof.
  intros [O1 O2 O3 O4 O5] He Hp1 Hp2 Hlast.
  assert (Hid : (id < List.length (effects w))%nat) by (eapply lookup_lt_Some; eauto).
  constructor; cbn [setEffects displayGeoPositive displayGeoNegative isProcessing
                      exportFn effects appConfig shown];
    intros k e' Hk; rewrite ?length_insert;
    (destruct (decide (id = k)) as [->|Hneq];
     [rewrite list_lookup_insert_eq in Hk by exact Hid; inversion Hk; subst e'; cbn
     |rewrite list_lookup_insert_ne in Hk by exact Hneq]).
  - intros Hph. congruence.
  - now apply O1.
  - intros _. exact Hp2.
  - now apply O2.
  - intros Hl. now apply (O3 k e).
  - now apply O3.
  - intros Hl. now apply Hlast.
  - now apply O4.
  - intros Hl Hidle. destruct (Hlast Hl) as [_ Hret].
    destruct (O5 k e He Hl Hidle) as (c & pg & ng & H). now exists c, pg, ng.
  - now apply O5.
Qed.

Lemma handle_orderly (w : World) (ev : Event) :
  Consistent w -> orderly w -> orderly (react w ev).
Proof.
  intros Hc Ho. pose proof Hc as [C1 C2 C3 C4 C5 C6].
  pose proof Ho as [O1 O2 O3 O4 O5].
  destruct ev as [|c|id|id|]; cbn [handle].
  - (* Mount *)
    destruct (effects w) as [|e0 rest] eqn:Heff; [|exact Ho].
    constructor; cbn [runEffect setEffects setIsProcessing setExportFn effects
                        isProcessing appConfig displayGeoPositive displayGeoNegative];
      rewrite Heff; cbn [app List.length];
      intros id e He;
      (assert (id = 0%nat) as ->
         by (pose proof (lookup_lt_Some _ _ _ He) as Hlt; cbn in Hlt; lia));
      cbn in He; inversion He; subst e; cbn; try reflexivity; try discriminate.
    intros _. split; discriminate.
  - (* ConfigChange *)
    cbn [setAppConfig effects].
    destruct (effects w) as [|e0 rest] eqn:Heff.
    + constructor; cbn; rewrite ?Heff; intros id e He; now rewrite lookup_nil in He.
    + set (old := e0 :: rest) in *.
      set (cleaned := alter cleanup (List.length old - 1)%nat old).
      assert (Hlen : List.length cleaned = List.length old)
        by apply length_alter.
      constructor; cbn [runEffect setEffects setIsProcessing effects isProcessing
                          appConfig displayGeoPositive displayGeoNegative];
        fold cleaned; intros id e He; rewrite length_app, Hlen; cbn [List.length];
        intros Hx.
      * destruct (decide (id < List.length cleaned)%nat) as [Hlt|Hge].
        -- exfalso. rewrite lookup_app_l in He by exact Hlt.
           unfold cleaned in He.
           destruct (decide (id = List.length old - 1)%nat) as [->|Hne].
           ++ rewrite list_lookup_alter_eq in He.
              destruct (old !! (List.length old - 1)%nat) as [e1|]; [|discriminate].
              cbn in He. inversion He; subst e. cbn in Hx.
              destruct (phase e1); discriminate.
           ++ rewrite list_lookup_alter_ne in He by congruence.
              pose proof (O1 id e He Hx). rewrite Hlen in Hlt. lia.
        -- apply lookup_lt_Some in He. rewrite length_app in He. cbn in He. lia.
      * rewrite lookup_app_r in He by lia.
        replace (id - List.length cleaned)%nat with 0%nat in He by lia.
        cbn in He. inversion He. discriminate.
      * rewrite lookup_app_r in He by lia.
        replace (id - List.length cleaned)%nat with 0%nat in He by lia.
        cbn in He. now inversion He.
      * rewrite lookup_app_r in He by lia.
        replace (id - List.length cleaned)%nat with 0%nat in He by lia.
        cbn in He. inversion He. cbn. split; discriminate.
      * discriminate.
  - (* TimerFire *)
    destruct (effects w !! id) as [e|] eqn:He; [|exact Ho].
    destruct (phase e) eqn:Hph; try exact Ho.
    unfold updateGeometry_start.
    pose proof (O1 id e He Hph) as Hnew.
    rewrite (C6 id e He Hnew).
    apply setPhase_orderly; try assumption; try discriminate.
    intros _. pose proof (O4 id e He Hnew) as Hbusy. rewrite Hph in Hbusy.
    split; [split; [intros H; apply Hbusy in H; discriminate | discriminate]
           | intros H; apply Hbusy in H; discriminate].
  - (* HeightMapSettled *)
    destruct (effects w !! id) as [e|] eqn:He; [|exact Ho].
    destruct (phase e) eqn:Hph; try exact Ho.
    destruct (awaited (config e)) as [canvas| |] eqn:Hcanvas; [| |exact Ho].
    + assert (Hid : (id < List.length (effects w))%nat)
        by (eapply lookup_lt_Some; eauto).
      destruct (isCancelled e) eqn:Hcan.
      * unfold updateGeometry_resume. rewrite Hcan.
        apply setPhase_orderly; try assumption; try discriminate.
        intros Hl. rewrite (C6 id e He Hl) in Hcan. discriminate.
      * assert (Hl : (id + 1 = List.length (effects w))%nat).
        { destruct (decide (id + 1 < List.length (effects w))%nat) as [Hlt|Hge];
            [|lia]. rewrite (C5 id e He Hlt) in Hcan. discriminate. }
        destruct (updateGeometry_resume_live extrude id e canvas
                    (setEffects (<[id := setPhase Returned e]> (effects w)) w) Hcan)
          as (pg & ng & Hpg & Hng & ->).
        constructor; cbn [setEffects displayGeoPositive displayGeoNegative
                            isProcessing exportFn effects appConfig shown];
          intros k e' Hk; rewrite ?length_insert;
          (destruct (decide (id = k)) as [->|Hneq];
           [rewrite list_lookup_insert_eq in Hk by exact Hid;
            inversion Hk; subst e'; cbn
           |rewrite list_lookup_insert_ne in Hk by exact Hneq]).
        -- discriminate.
        -- now apply O1.
        -- intros _. discriminate.
        -- now apply O2.
        -- intros _. now apply (O3 k e).
        -- now apply O3.
        -- intros _. split; reflexivity.
        -- intros Hk'. lia.
        -- intros _ _. exists canvas, pg, ng. repeat split; assumption.
        -- intros Hk'. lia.
    + apply setPhase_orderly; try assumption; try discriminate.
      intros Hl. pose proof (O4 id e He Hl) as Hbusy. rewrite Hph in Hbusy.
      split; [split; [intros H; apply Hbusy in H; discriminate | discriminate]
             | intros H; apply Hbusy in H; discriminate].
  - (* ExportClick *)
    constructor; cbn; assumption.
Qed.

Lemma run_orderly (evs : list Event) (w : World) :
  Consistent w -> orderly w ->
  Consistent (replay evs w) /\ orderly (replay evs w).
Proof.
  revert w. induction evs as [|ev evs IH]; intros w Hc Ho; [now split|].
  cbn. apply IH; [now apply handle_consistent | now apply handle_orderly].
Qed.

End EffectOrder.

Section EffectOrderFacts.

Variable extrude : Shape -> ExtrudeSettings -> list (Vector3 * Vector3 * Vector2).
Variable heightMapOf :
  PatternKind -> string -> Z -> Z -> HeightMapOptions -> Promise HTMLCanvasElement.

Local Abbreviation react := (handle extrude heightMapOf).
Local Abbreviation replay := (run extrude heightMapOf).
Local Abbreviation awaited := (requestHeightMap heightMapOf).
Local Abbreviation orderly := (Orderly extrude heightMapOf).

Lemma reachable_invariants (evs : list Event) :
  Consistent (replay evs initialWorld) /\ orderly (replay evs initialWorld).
Proof.
  apply run_orderly; [apply initialWorld_consistent | apply initialWorld_orderly].
Qed.

Lemma not_idle_is_busy (b : bool) : b <> false -> b = true.
Proof. now destruct b. Qed.

(** X16. Debounce: in every reachable state a run whose timer is still
    armed is the newest run; it is not cancelled and the busy flag is on.
    So at most one timer is pending, that of the latest change. *)
Theorem debounce_keeps_one_timer (evs : list Event) (id : nat) (e : Effect) :
  let w := replay evs initialWorld in
  effects w !! id = Some e -> phase e = TimerArmed ->
  (id + 1 = List.length (effects w))%nat /\
  isCancelled e = false /\ isProcessing w = true /\
  forall id' e', effects w !! id' = Some e' -> phase e' = TimerArmed -> id' = id.
Proof.
  intros w He Hph.
  destruct (reachable_invariants evs) as [[C1 C2 C3 C4 C5 C6] [O1 O2 O3 O4 O5]].
  fold w in C1, C2, C3, C4, C5, C6, O1, O2, O3, O4, O5.
  pose proof (O1 id e He Hph) as Hl.
  split; [exact Hl|]. split; [now apply (C6 id e)|]. split.
  - apply not_idle_is_busy. intros Hidle.
    apply (O4 id e He Hl) in Hidle. congruence.
  - intros id' e' He' Hph'. pose proof (O1 id' e' He' Hph'). lia.
Qed.

(** X17. The busy flag is off exactly when nothing has been mounted yet
    or the newest run of the effect has returned; while the newest run is
    debouncing or rasterizing, and after its heightmap promise has
    rejected, the flag is on. *)
Theorem busy_flag_characterised (evs : list Event) :
  let w := replay evs initialWorld in
  isProcessing w = false <->
  effects w = [] \/ exists e, last (effects w) = Some e /\ phase e = Returned.
Proof.
  intros w.
  destruct (reachable_invariants evs) as [[C1 C2 C3 C4 C5 C6] [O1 O2 O3 O4 O5]].
  fold w in C1, C2, C3, C4, C5, C6, O1, O2, O3, O4, O5.
  destruct (effects w) as [|e0 rest] eqn:Heff.
  - split; [now left | intros _; now apply C4].
  - rewrite <- Heff in *.
    assert (Hlen : (0 < List.length (effects w))%nat) by (rewrite Heff; cbn; lia).
    rewrite last_lookup.
    destruct (lookup_lt_is_Some_2 (effects w) (pred (List.length (effects w))))
      as [e He]; [lia|].
    assert (Hl : (pred (List.length (effects w)) + 1 = List.length (effects w))%nat)
      by lia.
    rewrite He. split.
    + intros Hidle. right. exists e. split; [reflexivity|].
      now apply (O4 _ e He Hl).
    + intros [Hnil | (e' & He' & Hph)].
      * rewrite Heff in Hnil. discriminate.
      * inversion He'; subst e'. now apply (O4 _ e He Hl).
Qed.

(** X18. Whenever the busy flag is off after mounting, the displayed pair
    is the one generated from the current configuration: its heightmap
    promise resolved, the positive and the negative mesh are
    positiveGeometry and negativeGeometry of that configuration and
    heightmap, and an export request downloads exactly these two, placed
    at -offset/2 and +offset/2 with offset = cylinderRadius * 2.5 + 20. *)
Theorem idle_display_matches_config (evs : list Event) :
  let w := replay evs initialWorld in
  isProcessing w = false -> effects w <> [] ->
  exists canvas posGeo negGeo,
    awaited (appConfig w) = Resolved canvas /\
    positiveGeometry extrude (appConfig w) canvas = Some posGeo /\
    negativeGeometry extrude (appConfig w) canvas = Some negGeo /\
    option_map snd (displayGeoPositive w) = Some posGeo /\
    option_map snd (displayGeoNegative w) = Some negGeo /\
    handleExport w
    = Downloaded
        [(posGeo, - (AppState.cylinderRadius (appConfig w) * 2.5 + 20) / 2);
         (negGeo, (AppState.cylinderRadius (appConfig w) * 2.5 + 20) / 2)].
Proof.
  intros w Hidle Hne.
  destruct (reachable_invariants evs) as [[C1 C2 C3 C4 C5 C6] [O1 O2 O3 O4 O5]].
  fold w in C1, C2, C3, C4, C5, C6, O1, O2, O3, O4, O5.
  assert (Hlen : (0 < List.length (effects w))%nat).
  { destruct (effects w); [contradiction | cbn; lia]. }
  destruct (lookup_lt_is_Some_2 (effects w) (pred (List.length (effects w))))
    as [e He]; [lia|].
  assert (Hl : (pred (List.length (effects w)) + 1 = List.length (effects w))%nat)
    by lia.
  destruct (O5 _ e He Hl Hidle) as (canvas & pg & ng & Hc & Hpg & Hng & Hdp & Hdn).
  rewrite (O3 _ e He Hl) in Hc, Hpg, Hng.
  exists canvas, pg, ng.
  split; [exact Hc|]. split; [exact Hpg|]. split; [exact Hng|].
  split; [now rewrite Hdp|]. split; [now rewrite Hdn|].
  unfold handleExport, exportFunction, groupRef.
  rewrite (C3 Hne), Hidle, Hdp, Hdn. reflexivity.
Qed.

End EffectOrderFacts.

Lemma debounce_keeps_one_timer_witness :
  let w := run axisVertex (fun _ _ _ _ _ => Rejected)
             [Mount; ConfigChange scenario; ConfigChange DEFAULT_STATE] initialWorld in
  effects w !! 2%nat = Some (mkEffect DEFAULT_STATE false TimerArmed) /\
  isProcessing w = true /\
  forall id' e', effects w !! id' = Some e' -> phase e' = TimerArmed -> id' = 2%nat.
Proof.
  intros w. split; [reflexivity|].
  destruct (debounce_keeps_one_timer axisVertex (fun _ _ _ _ _ => Rejected)
              [Mount; ConfigChange scenario; ConfigChange DEFAULT_STATE]
              2%nat (mkEffect DEFAULT_STATE false TimerArmed) eq_refl eq_refl)
    as (_ & _ & Hbusy & Honly).
  split; [exact Hbusy | exact Honly].
Defined.

Lemma idle_display_matches_config_witness :
  let hm := fun (_ : PatternKind) (_ : string) (_ _ : Z) (_ : HeightMapOptions) =>
              Resolved twoRowCanvas in
  let w := run axisVertex hm [Mount; TimerFire 0; HeightMapSettled 0] initialWorld in
  isProcessing w = false /\ effects w <> [] /\
  exists posGeo negGeo,
    positiveGeometry axisVertex DEFAULT_STATE twoRowCanvas = Some posGeo /\
    negativeGeometry axisVertex DEFAULT_STATE twoRowCanvas = Some negGeo /\
    handleExport w
    = Downloaded [(posGeo, - (15 * 2.5 + 20) / 2); (negGeo, (15 * 2.5 + 20) / 2)].
Proof.
  intros hm w.
  assert (Hidle : isProcessing w = false) by reflexivity.
  assert (Hne : effects w <> []) by discriminate.
  split; [exact Hidle|]. split; [exact Hne|].
  destruct (idle_display_matches_config axisVertex hm
              [Mount; TimerFire 0; HeightMapSettled 0] Hidle Hne)
    as (canvas & pg & ng & Hc & Hpg & Hng & _ & _ & Hex).
  change (Resolved twoRowCanvas = Resolved canvas) in Hc.
  inversion Hc; subst canvas.
  exists pg, ng. split; [exact Hpg|]. split; [exact Hng|]. exact Hex.
Defined.

(** ** A rejected heightmap promise *)

Section FailedLoad.

Variable extrude : Shape -> ExtrudeSettings -> list (Vector3 * Vector3 * Vector2).
Variable heightMapOf :
  PatternKind -> string -> Z -> Z -> HeightMapOptions -> Promise HTMLCanvasElement.

Local Abbreviation react := (handle extrude heightMapOf).
Local Abbreviation replay := (run extrude heightMapOf).
Local Abbreviation awaited := (requestHeightMap heightMapOf).
Local Abbreviation orderly := (Orderly extrude heightMapOf).

Lemma stuck_step (id : nat) (w : World) (ev : Event) :
  stuck id w -> isConfigChange ev = false ->
  stuck id (react w ev) /\
  isProcessing (react w ev) = isProcessing w /\
  displayGeoPositive (react w ev) = displayGeoPositive w /\
  displayGeoNegative (react w ev) = displayGeoNegative w.
Proof.
  intros (Hc & Hl & e & He & Hph) Hev.
  assert (Hc' : Consistent (react w ev)) by now apply handle_consistent.
  assert (Hsame : stuck id w /\ isProcessing w = isProcessing w /\
                  displayGeoPositive w = displayGeoPositive w /\
                  displayGeoNegative w = displayGeoNegative w).
  { split; [|now repeat split]. split; [exact Hc|]. split; [exact Hl|]. now exists e. }
  assert (Hother : forall k e' p, effects w !! k = Some e' -> k <> id ->
            Consistent (setEffects (<[k := setPhase p e']> (effects w)) w) ->
            stuck id (setEffects (<[k := setPhase p e']> (effects w)) w)).
  { intros k e' p Hk Hne Hcons. split; [exact Hcons|].
    cbn [setEffects effects]. rewrite length_insert. split; [exact Hl|].
    exists e. now rewrite list_lookup_insert_ne. }
  destruct ev as [|c|k|k|]; try discriminate; cbn [handle] in *.
  - (* Mount *)
    destruct (effects w) eqn:Heff; [now rewrite lookup_nil in He|].
    rewrite <- Heff in *. exact Hsame.
  - (* TimerFire *)
    destruct (effects w !! k) as [e'|] eqn:Hk; [|exact Hsame].
    destruct (phase e') eqn:Hph'; try exact Hsame.
    assert (Hne : k <> id) by (intros ->; congruence).
    split; [now apply Hother | now repeat split].
  - (* HeightMapSettled *)
    destruct (effects w !! k) as [e'|] eqn:Hk; [|exact Hsame].
    destruct (phase e') eqn:Hph'; try exact Hsame.
    assert (Hne : k <> id) by (intros ->; congruence).
    assert (Hcan : isCancelled e' = true).
    { destruct Hc as [_ _ _ _ C5 _]. apply (C5 k e' Hk).
      apply lookup_lt_Some in Hk. lia. }
    destruct (awaited (config e')) as [canvas| |]; [| |exact Hsame].
    + unfold updateGeometry_resume in *. rewrite Hcan in *.
      split; [now apply Hother | now repeat split].
    + split; [now apply Hother | now repeat split].
  - (* ExportClick *)
    split; [|now repeat split]. split; [exact Hc'|].
    cbn [addShown effects]. split; [exact Hl|]. now exists e.
Qed.

Lemma stuck_run (id : nat) (evs : list Event) :
  forallb (fun ev => negb (isConfigChange ev)) evs = true ->
  forall w, stuck id w ->
    isProcessing (replay evs w) = isProcessing w /\
    displayGeoPositive (replay evs w) = displayGeoPositive w /\
    displayGeoNegative (replay evs w) = displayGeoNegative w.
Proof.
  induction evs as [|ev evs IH]; intros Hall w Hs; [now repeat split|].
  cbn in Hall. apply andb_prop in Hall as [Hev Hall].
  apply negb_true_iff in Hev.
  destruct (stuck_step id w ev Hs Hev) as (Hs' & Hp & Hdp & Hdn).
  destruct (IH Hall _ Hs') as (Hp' & Hdp' & Hdn').
  change (replay (ev :: evs) w) with (replay evs (react w ev)).
  rewrite Hp', Hdp', Hdn'. now repeat split.
Qed.

(** X19. When the heightmap promise of the newest run rejects (an image
    that fails to load), that run commits nothing and never clears the
    busy flag: until the next configuration change, whatever timers fire,
    promises settle or export requests arrive, the displayed pair stays
    what it was, the flag stays on, and every export request is answered
    with "Please wait for generation to complete.". *)
Theorem failed_load_keeps_busy
    (before after : list Event) (id : nat) (e : Effect) :
  let w := replay before initialWorld in
  let w' := replay (HeightMapSettled id :: after) w in
  effects w !! id = Some e -> (id + 1 = List.length (effects w))%nat ->
  phase e = Rasterizing -> awaited (config e) = Rejected ->
  forallb (fun ev => negb (isConfigChange ev)) after = true ->
  isProcessing w' = true /\
  displayGeoPositive w' = displayGeoPositive w /\
  displayGeoNegative w' = displayGeoNegative w /\
  handleExport w' = Alerted "Please wait for generation to complete.".
Proof.
  intros w w' He Hl Hph Hrej Hafter.
  destruct (run_orderly extrude heightMapOf before initialWorld
              initialWorld_consistent (initialWorld_orderly extrude heightMapOf))
    as [Hc Ho].
  fold w in Hc, Ho.
  assert (Hbusy : isProcessing w = true).
  { destruct (isProcessing w) eqn:Hp; [reflexivity|].
    destruct Ho as [_ _ _ O4 _]. apply (O4 id e He Hl) in Hp. congruence. }
  set (w1 := react w (HeightMapSettled id)).
  assert (Hw1 : w1 = setEffects (<[id := setPhase Threw e]> (effects w)) w).
  { unfold w1. cbn [handle]. now rewrite He, Hph, Hrej. }
  assert (Hs : stuck id w1).
  { split; [now apply handle_consistent|].
    rewrite Hw1. cbn [setEffects effects]. rewrite length_insert.
    split; [exact Hl|]. exists (setPhase Threw e).
    split; [|reflexivity].
    apply list_lookup_insert_eq. eapply lookup_lt_Some; eauto. }
  destruct (stuck_run id after Hafter w1 Hs) as (Hp & Hdp & Hdn).
  change w' with (replay after w1).
  assert (Hfinal : isProcessing (replay after w1) = true).
  { rewrite Hp, Hw1. exact Hbusy. }
  split; [exact Hfinal|].
  split; [rewrite Hdp, Hw1; reflexivity|].
  split; [rewrite Hdn, Hw1; reflexivity|].
  unfold handleExport. rewrite Hfinal, andb_false_r. reflexivity.
Qed.

End FailedLoad.

Lemma failed_load_keeps_busy_witness :
  let rejects := fun (_ : PatternKind) (_ : string) (_ _ : Z) (_ : HeightMapOptions) =>
                   @Rejected HTMLCanvasElement in
  let w' := run axisVertex rejects
              [HeightMapSettled 0; ExportClick; TimerFire 0; Mount]
              (run axisVertex rejects [Mount; TimerFire 0] initialWorld) in
  isProcessing w' = true /\
  handleExport w' = Alerted "Please wait for generation to complete.".
Proof.
  intros rejects w'.
  destruct (failed_load_keeps_busy axisVertex rejects
              [Mount; TimerFire 0] [ExportClick; TimerFire 0; Mount] 0%nat
              (mkEffect DEFAULT_STATE false Rasterizing)
              eq_refl eq_refl eq_refl eq_refl eq_refl)
    as (Hbusy & _ & _ & Hexport).
  split; [exact Hbusy | exact Hexport].
Defined.

(** ** generateHeightMap: the tile loop *)

Lemma tile_iteration (paint : DrawState -> list Z -> list Z)
    (x y angle : R) (c : Context2D) :
  restore (repaint paint
             (setState (pushTransform (Rotate angle))
                (setState (pushTransform (Translate x y)) (save c))))
  = mkCtx (state c) (stack c)
          (paint (pushTransform (Rotate angle)
                    (pushTransform (Translate x y) (state c)))
                 (pixels c)).
Proof. destruct c. reflexivity. Qed.

Lemma tile_row (paint : DrawState -> list Z -> list Z)
    (periodX periodY tiltDeg : R) (i : Z) (js : list Z) :
  forall c,
    fold_left (fun c j =>
        let x := IZR i * periodX in
        let y := IZR j * periodY in
        let c := save c in
        let c := setState (pushTransform (Translate x y)) c in
        let c := setState (pushTransform (Rotate ((tiltDeg * PI) / 180))) c in
        let c := repaint paint c in
        restore c) js c
    = mkCtx (state c) (stack c)
        (fold_left (fun pix ij => paint (tileState (state c) periodX periodY tiltDeg ij) pix)
                   (map (fun j => (i, j)) js) (pixels c)).
Proof.
  induction js as [|j js IH]; intros c; [now destruct c|].
  cbn [fold_left map]. cbv zeta. rewrite tile_iteration, IH. reflexivity.
Qed.

Lemma tile_rows (paint : DrawState -> list Z -> list Z)
    (periodX periodY tiltDeg : R) (js is_ : list Z) :
  forall c,
    fold_left (fun c i =>
      fold_left (fun c j =>
        let x := IZR i * periodX in
        let y := IZR j * periodY in
        let c := save c in
        let c := setState (pushTransform (Translate x y)) c in
        let c := setState (pushTransform (Rotate ((tiltDeg * PI) / 180))) c in
        let c := repaint paint c in
        restore c) js c) is_ c
    = mkCtx (state c) (stack c)
        (fold_left (fun pix ij => paint (tileState (state c) periodX periodY tiltDeg ij) pix)
                   (flat_map (fun i => map (fun j => (i, j)) js) is_) (pixels c)).
Proof.
  induction is_ as [|i is_ IH]; intros c; [now destruct c|].
  cbn [fold_left flat_map]. rewrite tile_row, IH. cbn [state stack pixels].
  now rewrite fold_left_app.
Qed.

Lemma zrange_length (lo hi : Z) : List.length (zrange lo hi) = Z.to_nat (hi - lo).
Proof. unfold zrange. now rewrite length_map, length_seq. Qed.

Lemma zrange_In (lo hi i : Z) : In i (zrange lo hi) <-> (lo <= i < hi)%Z.
Proof.
  unfold zrange. rewrite in_map_iff. split.
  - intros (k & <- & Hk). apply in_seq in Hk. lia.
  - intros Hi. exists (Z.to_nat (i - lo)). split; [lia|]. apply in_seq. lia.
Qed.

Lemma tileGrid_length (cols rows : Z) :
  List.length (tileGrid cols rows)
  = (Z.to_nat (cols + 1) * Z.to_nat (rows + 1))%nat.
Proof.
  unfold tileGrid.
  replace (cols + 1)%Z with (cols - -1)%Z by lia.
  replace (rows + 1)%Z with (rows - -1)%Z by lia.
  rewrite <- (zrange_length (-1) cols), <- (zrange_length (-1) rows).
  induction (zrange (-1) cols) as [|i l IH]; [reflexivity|].
  cbn [flat_map List.length]. rewrite length_app, length_map, IH. lia.
Qed.

Section TileLoop.

Variable paintText : DrawState -> string -> R -> R -> Z -> Z -> list Z -> list Z.
Variable paintImage :
  DrawState -> ImageSource -> R -> R -> option (R * R) -> Z -> Z -> list Z -> list Z.

(** X20. Rotation and offset are per tile: the tile loop paints the
    (cols + 1) * (rows + 1) tiles one after the other, each under the
    drawing state of the loop's start with only its own [translate] and
    [rotate] on top, and leaves the context's drawing state and its save
    stack exactly as they were; nothing accumulates from tile to tile. *)
Theorem tile_loop_composition (cols rows w h : Z) (periodX periodY tiltDeg : R)
    (content : string) (img : ImageSource) (dx dy : R) (c : Context2D) :
  stampTiles (Finite cols) (Finite rows) periodX periodY tiltDeg
             (fillText paintText w h content 0 0) c
  = Some (mkCtx (state c) (stack c)
            (fold_left (fun pix tile =>
                          paintText (tileState (state c) periodX periodY tiltDeg tile)
                                    content 0 0 w h pix)
                       (tileGrid cols rows) (pixels c))) /\
  stampTiles (Finite cols) (Finite rows) periodX periodY tiltDeg
             (drawImage paintImage w h img dx dy None) c
  = Some (mkCtx (state c) (stack c)
            (fold_left (fun pix tile =>
                          paintImage (tileState (state c) periodX periodY tiltDeg tile)
                                     img dx dy None w h pix)
                       (tileGrid cols rows) (pixels c))) /\
  List.length (tileGrid cols rows)
  = (Z.to_nat (cols + 1) * Z.to_nat (rows + 1))%nat.
Proof.
  split; [|split; [|apply tileGrid_length]].
  - unfold stampTiles, tileGrid. f_equal.
    apply (tile_rows (fun st pix => paintText st content 0 0 w h pix)).
  - unfold stampTiles, tileGrid. f_equal.
    apply (tile_rows (fun st pix => paintImage st img dx dy None w h pix)).
Qed.

End TileLoop.

(** ** generateHeightMap: how it ends *)

Lemma ceil_bounds (x : R) : x <= IZR (Math.ceil x) < x + 1.
Proof.
  unfold Math.ceil. rewrite opp_IZR.
  pose proof (base_Int_part (- x)) as [Hlo Hhi]. lra.
Qed.

(** X21. For a positive tile period and a canvas extent that is not
    negative the loop bound is finite, and the tile offsets run from
    -period up to at least extent + period (and less than
    extent + 2 * period): the grid overhangs the canvas by one whole tile
    on either side, with at least three tiles per direction. *)
Theorem tile_grid_has_margin (extent : Z) (period : R) :
  (0 <= extent)%Z -> 0 < period ->
  exists cols,
    tileBound extent period = Finite cols /\
    (forall i, In i (zrange (-1) cols) <-> (-1 <= i < cols)%Z) /\
    (3 <= cols + 1)%Z /\
    List.length (zrange (-1) cols) = Z.to_nat (cols + 1) /\
    IZR extent + period <= IZR (cols - 1) * period < IZR extent + 2 * period.
Proof.
  intros He Hp. unfold tileBound.
  destruct (Req_dec_T period 0) as [Hz|_]; [lra|].
  eexists. split; [reflexivity|].
  set (q := IZR extent / period).
  pose proof (ceil_bounds q) as [Hlo Hhi].
  assert (Hq : q * period = IZR extent) by (unfold q; field; lra).
  assert (Hq0 : 0 <= q).
  { unfold q. apply Rmult_le_pos; [now apply IZR_le | left; now apply Rinv_0_lt_compat]. }
  split; [intros i; apply zrange_In|].
  split.
  { assert (0 <= Math.ceil q)%Z; [|lia]. apply le_IZR. lra. }
  split; [rewrite zrange_length; f_equal; lia|].
  replace (Math.ceil q + 2 - 1)%Z with (Math.ceil q + 1)%Z by lia.
  rewrite plus_IZR. split; nra.
Qed.

Lemma tile_grid_has_margin_witness :
  exists cols,
    tileBound 4096 560 = Finite cols /\
    (forall i, In i (zrange (-1) cols) <-> (-1 <= i < cols)%Z) /\
    (3 <= cols + 1)%Z /\
    List.length (zrange (-1) cols) = Z.to_nat (cols + 1) /\
    IZR 4096 + 560 <= IZR (cols - 1) * 560 < IZR 4096 + 2 * 560.
Proof. apply (tile_grid_has_margin 4096 560); [lia | lra]. Defined.

Section HowItEnds.

Variable context2d : bool.
Variable stampContext2d : bool.
Variable measureText : DrawState -> string -> R.
Variable loadImage : string -> option ImageSource.
Variable paintRect : DrawState -> R -> R -> R -> R -> Z -> Z -> list Z -> list Z.
Variable paintText : DrawState -> string -> R -> R -> Z -> Z -> list Z -> list Z.
Variable paintImage :
  DrawState -> ImageSource -> R -> R -> option (R * R) -> Z -> Z -> list Z -> list Z.

Local Abbreviation generate :=
  (generateHeightMap context2d stampContext2d measureText loadImage
     paintRect paintText paintImage).
Local Abbreviation generateWithContext :=
  (generateHeightMap true stampContext2d measureText loadImage
     paintRect paintText paintImage).

(** Text mode with a context: the background fill, then the tile loop
    under the text drawing state with the blur set. *)
Lemma text_mode_shape (content : string) (w h : Z) (options : HeightMapOptions) :
  generateWithContext KText content w h options
  = match stampTiles (tileBound w (textPeriodX measureText content w options))
                     (tileBound h (textPeriodY w options))
                     (textPeriodX measureText content w options)
                     (textPeriodY w options) (tilt options)
                     (fillText paintText w h content 0 0)
                     (mkCtx (setBlur (1 * (IZR w / 1024 * 0.5)) (textDrawState w options))
                        [setTextBaseline "middle"
                           (setTextAlign "center" (setFillStyle "#FFFFFF"
                              (setFillStyle "#000000" defaultDraw)))]
                        (paintRect (setFillStyle "#000000" defaultDraw) 0 0 (IZR w) (IZR h)
                           w h (bitmap (createCanvas w h true)))) with
    | Some ctx => Resolved (mkCanvas w h (pixels (restore ctx)) true)
    | None => Pending
    end.
Proof. reflexivity. Qed.

(** X22. Text mode on a canvas of positive size, with a context, a text
    width that is not negative, spacings that are not negative and a
    positive font size: the call returns a canvas of the requested size
    unless the horizontal tile period is zero, which is exactly when the
    measured text width and the horizontal spacing are both 0; in that
    case the column loop has no end and the call never returns. *)
Theorem text_mode_outcome (content : string) (w h : Z) (options : HeightMapOptions) :
  (0 < w)%Z -> (0 < h)%Z ->
  0 <= measureText (textDrawState w options) content ->
  0 <= spacingX options -> 0 < fontSize options -> 0 <= spacingY options ->
  (textPeriodX measureText content w options = 0 <->
   measureText (textDrawState w options) content = 0 /\ spacingX options = 0) /\
  (textPeriodX measureText content w options = 0 ->
   generateWithContext KText content w h options = Pending) /\
  (textPeriodX measureText content w options <> 0 ->
   exists canvas,
     generateWithContext KText content w h options = Resolved canvas /\
     width canvas = w /\ height canvas = h /\ has2d canvas = true).
Proof.
  intros Hw Hh Hm Hsx Hfs Hsy.
  assert (Hscale : 0 < IZR w / 1024).
  { apply Rdiv_lt_0_compat; [now apply IZR_lt | lra]. }
  split; [|split].
  - unfold textPeriodX. split; [intros H; split; nra | intros [-> ->]; ring].
  - intros Hx. rewrite text_mode_shape. unfold stampTiles, tileBound.
    destruct (Req_dec_T _ _) as [_|Hno]; [|contradiction].
    now replace (0 <? w)%Z with true by (symmetry; apply Z.ltb_lt; lia).
  - intros Hx. rewrite text_mode_shape. unfold stampTiles, tileBound.
    destruct (Req_dec_T (textPeriodX measureText content w options) 0)
      as [Hyes|_]; [contradiction|].
    destruct (Req_dec_T (textPeriodY w options) 0) as [Hy|_].
    { exfalso. unfold textPeriodY in Hy. nra. }
    eexists. split; [reflexivity|]. now repeat split.
Qed.

(** Image mode once the image is loaded and has a positive natural
    width: the call rejects exactly when the stamp canvas has a zero
    dimension and the tile loop reaches its first [drawImage]. *)
Lemma image_mode_rejects (content : string) (w h : Z) (options : HeightMapOptions)
    (img : ImageSource) :
  nonEmpty content = true -> loadImage content = Some img -> 0 < naturalWidth img ->
  (generateWithContext KImage content w h options = Rejected <->
   (stampWidth w options img = 0 \/ stampHeight w options = 0)%Z /\
   entersTiles (imageCols w options img) (imageRows w h options) = true).
Proof.
  intros Hne Hload Hnw. unfold generateHeightMap. cbn [negb]. cbv zeta.
  rewrite Hne, Hload. cbn [negb].
  destruct (Rlt_dec 0 (naturalWidth img)) as [_|Hno]; [|contradiction].
  change (usableCanvas (createCanvas _ _ stampContext2d))
    with (negb ((stampWidth w options img =? 0)%Z || (stampHeight w options =? 0)%Z)).
  change (entersTiles _ _)
    with (entersTiles (imageCols w options img) (imageRows w h options)).
  rewrite negb_involutive.
  destruct (entersTiles _ _); rewrite ?andb_true_r, ?andb_false_r.
  - destruct (Z.eqb_spec (stampWidth w options img) 0) as [Hw|Hw];
      destruct (Z.eqb_spec (stampHeight w options) 0) as [Hh|Hh]; cbn [orb];
      try (split; [intros _; split; [tauto|reflexivity] | reflexivity]).
    match goal with
    | |- context [match ?x with Some _ => _ | None => _ end] => destruct x
    end; split; try discriminate; intros [[?|?] _]; contradiction.
  - match goal with
    | |- context [match ?x with Some _ => _ | None => _ end] => destruct x
    end; split; try discriminate; intros [_ ?]; discriminate.
Qed.

(** X23. The promise rejects in exactly two situations, both in image
    mode with a context and a non-empty source: loading the image fails;
    or the image loads with a positive natural width, the stamp canvas
    ends up with a width or height of 0 and the tile loop draws at least
    one tile, whose [drawImage] then throws.  Text mode never rejects. *)
Theorem generateHeightMap_rejections
    (type : PatternKind) (content : string) (w h : Z) (options : HeightMapOptions) :
  generate type content w h options = Rejected <->
  context2d = true /\ type = KImage /\ nonEmpty content = true /\
  (loadImage content = None \/
   exists img,
     loadImage content = Some img /\ 0 < naturalWidth img /\
     (stampWidth w options img = 0 \/ stampHeight w options = 0)%Z /\
     entersTiles (imageCols w options img) (imageRows w h options) = true).
Proof.
  destruct context2d eqn:Hctx.
  2:{ unfold generateHeightMap. cbn [negb].
      split; [discriminate | intros (H & _); discriminate]. }
  destruct type.
  - unfold generateHeightMap. cbn [negb]. cbv zeta beta.
    match goal with
    | |- context [match ?x with Some _ => _ | None => _ end] => destruct x
    end; split; try discriminate; intros (_ & H & _); discriminate.
  - destruct (nonEmpty content) eqn:Hne.
    2:{ unfold generateHeightMap. cbn [negb]. cbv zeta beta. rewrite Hne. cbn [negb].
        split; [discriminate | intros (_ & _ & H & _); discriminate]. }
    destruct (loadImage content) as [img|] eqn:Hload.
    2:{ unfold generateHeightMap. cbn [negb]. cbv zeta beta. rewrite Hne, Hload.
        cbn [negb]. split; [intros _; repeat split; now left | reflexivity]. }
    destruct (Rlt_dec 0 (naturalWidth img)) as [Hnw|Hnw].
    + rewrite (image_mode_rejects content w h options img Hne Hload Hnw).
      split.
      * intros [Hz He]. repeat split. right. exists img. now repeat split.
      * intros (_ & _ & _ & [Hnone | (img' & Himg & _ & Hz & He)]);
          [discriminate|]. inversion Himg; subst img'. now split.
    + unfold generateHeightMap. cbn [negb]. cbv zeta beta. rewrite Hne, Hload.
      cbn [negb]. destruct (Rlt_dec 0 (naturalWidth img)) as [Hyes|_]; [contradiction|].
      split; [discriminate|].
      intros (_ & _ & _ & [Hnone | (img' & Himg & Hpos & _)]); [discriminate|].
      inversion Himg; subst img'. contradiction.
Qed.

End HowItEnds.

Lemma text_mode_outcome_witness :
  let measure := fun (_ : DrawState) (_ : string) => 400 in
  let options := mkOptions 120 None None 20 120 0 1 in
  let load := fun _ : string => @None ImageSource in
  let pr := fun (_ : DrawState) (_ _ _ _ : R) (_ _ : Z) (pix : list Z) => pix in
  let pt := fun (_ : DrawState) (_ : string) (_ _ : R) (_ _ : Z) (pix : list Z) => pix in
  let pi := fun (_ : DrawState) (_ : ImageSource) (_ _ : R) (_ : option (R * R))
                (_ _ : Z) (pix : list Z) => pix in
  exists canvas,
    generateHeightMap true true measure load pr pt pi KText "AB" 4096 4096 options
      = Resolved canvas /\
    width canvas = 4096%Z /\ height canvas = 4096%Z /\ has2d canvas = true.
Proof.
  intros measure options load pr pt pi.
  assert (Hperiod : textPeriodX measure "AB" 4096 options <> 0).
  { unfold textPeriodX, measure, options. cbn [spacingX]. lra. }
  destruct (text_mode_outcome true measure load pr pt pi "AB" 4096 4096 options)
    as (_ & _ & H);
    [lia | lia | unfold measure; lra | cbn; lra | cbn; lra | cbn; lra |].
  exact (H Hperiod).
Defined.

(** The stamp canvas has a zero dimension exactly when the assigned
    number is a multiple of 2^32, 0 first of all. *)
Lemma canvasDimension_zero (default n : Z) :
  default <> 0%Z ->
  (canvasDimension default n = 0 <-> n mod 4294967296 = 0)%Z.
Proof.
  intros Hd. unfold canvasDimension.
  destruct (Z.leb_spec (n mod 4294967296) 2147483647); [tauto|].
  split; [contradiction | lia].
Qed.

Lemma ceil_of_zero (x : R) : x = 0 -> Math.ceil x = 0%Z.
Proof.
  intros ->. pose proof (ceil_bounds 0) as [Hlo Hhi].
  assert (Hl : (0 <= Math.ceil 0)%Z) by (apply le_IZR; lra).
  assert (Hh : (Math.ceil 0 < 1)%Z) by (apply lt_IZR; lra).
  lia.
Qed.

(** With imageScale = 0 the stamp canvas is 0 x 0: an image that loads
    makes the first tile's [drawImage] throw, and the promise rejects. *)
Example zero_scale_image_rejects
    (stamp : bool) (measure : DrawState -> string -> R)
    (pr : DrawState -> R -> R -> R -> R -> Z -> Z -> list Z -> list Z)
    (pt : DrawState -> string -> R -> R -> Z -> Z -> list Z -> list Z)
    (pi : DrawState -> ImageSource -> R -> R -> option (R * R) -> Z -> Z
          -> list Z -> list Z) :
  generateHeightMap true stamp measure (fun _ => Some (mkImage 64 64 [])) pr pt pi
    KImage "logo.png" TEXTURE_WIDTH TEXTURE_HEIGHT (mkOptions 120 None None 20 120 0 0)
  = Rejected.
Proof.
  apply (image_mode_rejects stamp measure (fun _ => Some (mkImage 64 64 [])) pr pt pi
           "logo.png" TEXTURE_WIDTH TEXTURE_HEIGHT _ (mkImage 64 64 []));
    [reflexivity | reflexivity | cbn; lra |].
  split.
  - right. unfold stampHeight, imageDrawHeight. cbn [imageScale].
    rewrite ceil_of_zero by (unfold TEXTURE_WIDTH; lra). reflexivity.
  - unfold imageCols, imageRows, imageDrawWidth, imageDrawHeight, tileBound,
      TEXTURE_WIDTH, TEXTURE_HEIGHT.
    cbn [imageScale spacingX spacingY naturalWidth naturalHeight].
    destruct (Req_dec_T _ _) as [H|_]; [exfalso; lra|].
    destruct (Req_dec_T _ _) as [H|_]; [exfalso; lra|].
    cbn [entersTiles]. apply andb_true_intro. split; apply Z.ltb_lt.
    + match goal with |- (_ < Math.ceil ?x + 2)%Z =>
        pose proof (ceil_bounds x) as [Hlo _];
        assert (0 <= x) by (apply Rmult_le_pos; [lra | left; apply Rinv_0_lt_compat; lra]);
        assert (0 <= Math.ceil x)%Z by (apply le_IZR; lra); lia
      end.
    + match goal with |- (_ < Math.ceil ?x + 2)%Z =>
        pose proof (ceil_bounds x) as [Hlo _];
        assert (0 <= x) by (apply Rmult_le_pos; [lra | left; apply Rinv_0_lt_compat; lra]);
        assert (0 <= Math.ceil x)%Z by (apply le_IZR; lra); lia
      end.
Qed.

(** ** Which vertices are sampled *)

Section Sampled.

Variable extrude : Shape -> ExtrudeSettings -> list (Vector3 * Vector3 * Vector2).

(** X24. The two radius factors fit together: for a positive radius, a
    shell vertex that passes the radius rule of applyDisplacement as
    updateGeometry calls it (threshold 0.9 * radius) has planar radius
    above 0.8 * radius, so the UV loop has given it cylindrical texture
    coordinates; no vertex is sampled at the extruder's own UVs. *)
Theorem sampled_vertices_have_cylindrical_uv (radius height : R) (i : nat) :
  0 < radius ->
  (i < List.length (position (uprightGeometry extrude radius height)))%nat ->
  ~ planarRadius (getV3 (position (uprightGeometry extrude radius height)) i)
      < radius * 0.9 ->
  exists built ta,
    buildCylinderGeometry extrude radius height 0 = Some built /\
    uv built = Some ta /\
    getV3 (position built) i
      = getV3 (position (uprightGeometry extrude radius height)) i /\
    getV2 ta i = cylindricalUv height (getV3 (position built) i).
Proof.
  intros HR Hi Hpass.
  destruct (buildCylinderGeometry_explicit extrude radius height 0)
    as (sn & st & _ & Hst & Hlsn & Hlst & Hb).
  destruct (shellGeometry_uv extrude radius height)
    as (before & after & _ & Hafter & _ & Hget).
  rewrite Hst in Hafter. inversion Hafter; subst after.
  rewrite shellGeometry_position in *.
  eexists _, _. split; [exact Hb|]. cbn [uv position].
  split; [reflexivity|].
  assert (Hpos : getV3 (position (uprightGeometry extrude radius height)
                          ++ plugPositions height) i
                 = getV3 (position (uprightGeometry extrude radius height)) i)
    by now apply getV3_app_l.
  split; [exact Hpos|].
  rewrite getV2_app_l by lia. rewrite Hpos, (Hget i Hi).
  destruct (Rgt_dec _ _) as [_|Hno]; [reflexivity|].
  exfalso. apply Hno. lra.
Qed.

End Sampled.

Lemma sampled_vertices_have_cylindrical_uv_witness :
  exists built ta,
    buildCylinderGeometry rimVertices 14 60 0 = Some built /\
    uv built = Some ta /\
    getV3 (position built) 0
      = getV3 (position (uprightGeometry rimVertices 14 60)) 0 /\
    getV2 ta 0 = cylindricalUv 60 (getV3 (position built) 0).
Proof.
  apply (sampled_vertices_have_cylindrical_uv rimVertices 14 60 0%nat).
  - lra.
  - cbn. lia.
  - rewrite rim_first_vertex, planarRadius_in_xy; lra.
Defined.

(** ** Configuration changes *)

(** X25. The dependency list of the geometry effect is complete: two
    configurations that agree on the thirteen listed keys request the same
    heightmap and give the same positive and the same negative mesh, so a
    change that does not re-run the effect cannot make the displayed pair
    stale. *)
Theorem effect_dependencies_complete
    (extrude : Shape -> ExtrudeSettings -> list (Vector3 * Vector3 * Vector2))
    (heightMapOf : PatternKind -> string -> Z -> Z -> HeightMapOptions
                   -> Promise HTMLCanvasElement)
    (a b : AppState.t) (canvas : HTMLCanvasElement) :
  sameForEffect a b ->
  requestHeightMap heightMapOf a = requestHeightMap heightMapOf b /\
  positiveGeometry extrude a canvas = positiveGeometry extrude b canvas /\
  negativeGeometry extrude a canvas = negativeGeometry extrude b canvas.
Proof.
  intros (H1 & H2 & H3 & H4 & H5 & H6 & H7 & H8 & H9 & H10 & H11 & H12 & H13).
  unfold requestHeightMap, positiveGeometry, negativeGeometry.
  rewrite H1, H2, H3, H4, H5, H6, H7, H8, H9, H10, H11, H12, H13.
  repeat split.
Qed.

Lemma effect_dependencies_complete_witness :
  let toggled := handleConfigChange
                   (Updates.mk None None None None None None None None None None
                               None None None (Some true)) DEFAULT_STATE in
  AppState.isGenerating toggled = true /\
  positiveGeometry axisVertex toggled twoRowCanvas
  = positiveGeometry axisVertex DEFAULT_STATE twoRowCanvas.
Proof.
  intros toggled. split; [reflexivity|].
  refine (proj1 (proj2 (effect_dependencies_complete axisVertex
                          (fun _ _ _ _ _ => Rejected) toggled DEFAULT_STATE
                          twoRowCanvas _))).
  repeat split.
Defined.

Lemma spreadKey_later {A} (prev : A) (first second : option A) :
  spreadKey (spreadKey prev first) second = spreadKey prev (laterKey first second).
Proof. now destruct second. Qed.

Lemma spreadKey_twice {A} (prev : A) (update : option A) :
  spreadKey (spreadKey prev update) update = spreadKey prev update.
Proof. now destruct update. Qed.

(** X26. handleConfigChange is a shallow merge: applying two updates one
    after the other is applying the second laid over the first, an update
    without keys changes nothing, and applying the same update twice is
    applying it once. *)
Theorem handleConfigChange_composes (first second : Updates.t) (prev : AppState.t) :
  handleConfigChange second (handleConfigChange first prev)
    = handleConfigChange (mergeUpdates first second) prev /\
  handleConfigChange Updates.none prev = prev /\
  handleConfigChange first (handleConfigChange first prev)
    = handleConfigChange first prev.
Proof.
  split; [|split].
  - unfold handleConfigChange, mergeUpdates. cbn. now rewrite !spreadKey_later.
  - now destruct prev.
  - unfold handleConfigChange. cbn. now rewrite !spreadKey_twice.
Qed.
